(** * SNID SAGE: clustering, preprocessing and CLI kernels

    A shallow embedding of the parts of
    - [snid_sage/snid/cosmological_clustering.py],
    - [snid_sage/snid/preprocessing.py] and
    - [snid_sage/interfaces/cli/identify.py]
    that the specification's testable properties talk about, and of the
    functions around them.

    Conventions.
    - A Python [float] is read as an exact rational ([Q]); [==] is equality
      of the numbers, [=] equality of the terms.  Rounding is not modelled,
      so the theorems state orderings, shapes, zeros and outcomes, which the
      rounded operations keep, and no identity that needs the field laws.
      NaN and the infinities have no counterpart in [Q]: where NumPy would
      produce one and Python then raises (for instance [int(nan)]), the
      model raises; the float arguments of [flatten_spectrum], whose
      overflow decides the exception, are a [pyfloat].
    - A NumPy array is a [list]; [arr.copy()] is the list itself.
    - A Python [str] is a [string] of its UTF-8 bytes.
    - A Python exception is a constructor of [exn]; a function that may raise
      returns a [result].
    - Functions of external packages (SciPy, scikit-learn, the transcendental
      functions of NumPy) are Section variables. *)

From Stdlib Require Import QArith Qround Qabs Qminmax Lqa ZArith Lia Ascii String Sorted.
From stdpp Require Import base list strings pretty.

(** * Part I: definitions *)

(** ** Exceptions *)

Inductive exn :=
| IndexError
| KeyError
| TypeError
| ValueError (msg : string)
| OverflowError
| ZeroDivisionError
| FileNotFoundError (msg : string)
| OtherException (msg : string).

Inductive result (A : Type) :=
| Ok (a : A)
| Raise (e : exn).
Arguments Ok {A} a.
Arguments Raise {A} e.

(** Sequencing: [x ← r; k] runs [k] on the value of [r] and passes a raise
    on. *)
#[export] Instance result_bind : MBind result := fun A B f r =>
  match r with
  | Ok a => f a
  | Raise e => Raise e
  end.

#[export] Instance result_ret : MRet result := @Ok.

(** ** Numbers *)

Local Open Scope Q_scope.

Definition Qsum (l : list Q) : Q := foldr Qplus 0 l.

(** [np.mean(v)] and [sum(v) / len(v)], without the rounding: the code's
    mean of doubles can fall an ulp outside the range of its summands. *)
Definition np_mean (l : list Q) : Q := Qsum l / inject_Z (Z.of_nat (length l)).

Definition Qltb (x y : Q) : bool := negb (Qle_bool y x).

(** [np.max] and [np.min] of a non-empty array ([ValueError] on an empty
    one, which the model renders as [None]). *)
Definition Qmax1 (x : Q) (l : list Q) : Q :=
  foldl (fun m y => if Qle_bool m y then y else m) x l.

Definition Qmin1 (x : Q) (l : list Q) : Q :=
  foldl (fun m y => if Qle_bool y m then y else m) x l.

Definition np_max (l : list Q) : option Q :=
  match l with
  | [] => None
  | x :: l' => Some (Qmax1 x l')
  end.

Definition np_min (l : list Q) : option Q :=
  match l with
  | [] => None
  | x :: l' => Some (Qmin1 x l')
  end.

(** NumPy's boolean-mask indexing [v[mask]]. *)
Fixpoint mask_select {T} (mask : list bool) (v : list T) : list T :=
  match mask, v with
  | b :: mask', x :: v' => if b then x :: mask_select mask' v' else mask_select mask' v'
  | _, _ => []
  end.

(** ** Python's stable sort, descending

    [list.sort(key=k, reverse=True)] and [sorted(l, key=k, reverse=True)]
    keep the input order of elements with equal keys.  Insertion from the
    right does the same: an element goes in front of the first element whose
    key is not larger than its own. *)

Section StableSort.
Context {A : Type} (key : A -> Q).

Fixpoint insert_desc (x : A) (s : list A) : list A :=
  match s with
  | [] => [x]
  | y :: s' => if Qle_bool (key y) (key x) then x :: s else y :: insert_desc x s'
  end.

Definition sort_desc (l : list A) : list A := foldr insert_desc [] l.

(** [first_max l b]: [b] is the first element of [l] whose key is maximal. *)
Definition first_max (l : list A) (b : A) : Prop :=
  exists pre post,
    l = pre ++ b :: post /\
    Forall (fun c => key c < key b) pre /\
    Forall (fun c => key c <= key b) post.

End StableSort.

(** ** cosmological_clustering.py *)

Module Clustering.

(** A template match is a dictionary; the keys the clustering code reads are
    fields here, and a key that may be absent is an [option]. *)
Record Template := mkTemplate {
  tpl_type : option string;
  tpl_subtype : option string
}.

Record Match := mkMatch {
  template : Template;
  redshift : Q;
  rlap : option Q;
  rlap_cos : option Q
}.

Inductive RedshiftQuality := tight | moderate | loose | very_loose.

Inductive ClusterMethod := direct_gmm | single_cluster.

(** [m.get(metric_key, m.get('rlap', 0))] *)
Definition get_metric (metric_key_is_rlap_cos : bool) (m : Match) : Q :=
  let dflt := default 0 (rlap m) in
  if metric_key_is_rlap_cos then default dflt (rlap_cos m) else default dflt (rlap m).

(** *** Per-type clustering: [_perform_direct_gmm_clustering] *)

(** An element of [type_result['clusters']]. *)
Record ClusterInfo := mkClusterInfo {
  ci_id : nat;
  ci_matches : list Match;
  ci_size : nat;
  ci_mean_rlap : Q;
  ci_mean_metric : Q;
  ci_redshift_span : Q;
  ci_redshift_quality : RedshiftQuality;
  ci_cluster_method : ClusterMethod
}.

(** The dictionary a per-type clustering returns: [{'success': False, ...}]
    or the successful one.  [tr_gmm_model] tells whether the key
    ['gmm_model'] (and ['gamma']) is present. *)
Inductive TypeResult :=
| TypeFailure
| TypeSuccess (optimal_n_clusters : nat) (clusters : list ClusterInfo) (tr_gmm_model : bool).

(** [_create_single_cluster_result].  [np.min(rlaps)] raises on an empty
    array; the caller's [try] turns that into a failure. *)
Definition _create_single_cluster_result
    (type_matches : list Match) (redshifts rlaps : list Q)
    (quality_threshold : Q) (metric_key_is_rlap_cos : bool) : option TypeResult :=
  zmax ← np_max redshifts;
  zmin ← np_min redshifts;
  let redshift_span := if (1 <? length redshifts)%nat then zmax - zmin else 0 in
  let metric_values := map (get_metric metric_key_is_rlap_cos) type_matches in
  let redshift_quality :=
    if Qle_bool redshift_span quality_threshold then tight
    else if Qle_bool redshift_span (quality_threshold * 2) then moderate
    else loose in
  _ ← np_min rlaps;
  _ ← np_min metric_values;
  Some (TypeSuccess 1
    [ {| ci_id := 0;
         ci_matches := type_matches;
         ci_size := length type_matches;
         ci_mean_rlap := np_mean rlaps;
         ci_mean_metric := np_mean metric_values;
         ci_redshift_span := redshift_span;
         ci_redshift_quality := redshift_quality;
         ci_cluster_method := single_cluster |} ]
    false).

Section GMM.

(** scikit-learn's part: fit [GaussianMixture] models with 1 to
    [max_clusters_actual] components on the redshifts, keep the one of least
    BIC ([optimal_n_clusters]) and predict a label for every match.  [None]
    when the fit raises. *)
Variable gmm_fit_predict : list Q -> nat -> option (nat * list nat).

(** The body of the loop [for cluster_id in range(optimal_n_clusters)]:
    the members are the matches labelled [cluster_id]; a component without
    members is skipped ([None]). *)
Definition build_cluster
    (type_matches : list Match) (redshifts rlaps metric_values : list Q)
    (labels : list nat) (quality_threshold : Q) (cluster_id : nat)
    : option ClusterInfo :=
  let cluster_mask := map (Nat.eqb cluster_id) labels in
  let cluster_redshifts := mask_select cluster_mask redshifts in
  let cluster_rlaps := mask_select cluster_mask rlaps in
  let cluster_metric_values := mask_select cluster_mask metric_values in
  let cluster_matches := mask_select cluster_mask type_matches in
  match cluster_redshifts with
  | [] => None
  | z :: zs =>
      let redshift_span := Qmax1 z zs - Qmin1 z zs in
      let redshift_quality :=
        if Qle_bool redshift_span quality_threshold then tight
        else if Qle_bool redshift_span (quality_threshold * 2) then moderate
        else if Qle_bool redshift_span (quality_threshold * 4) then loose
        else very_loose in
      Some {| ci_id := cluster_id;
              ci_matches := cluster_matches;
              ci_size := length cluster_matches;
              ci_mean_rlap := np_mean cluster_rlaps;
              ci_mean_metric := np_mean cluster_metric_values;
              ci_redshift_span := redshift_span;
              ci_redshift_quality := redshift_quality;
              ci_cluster_method := direct_gmm |}
  end.

(** [_perform_direct_gmm_clustering].  Every exception inside the function
    body (a match without ['rlap'], a failing fit, labels that do not fit
    the data) ends in [{'success': False}]. *)
Definition _perform_direct_gmm_clustering
    (type_matches : list Match) (max_clusters : Z)
    (quality_threshold : Q) (metric_key_is_rlap_cos : bool) : TypeResult :=
  let redshifts := map redshift type_matches in
  match mapM rlap type_matches with
  | None => TypeFailure
  | Some rlaps =>
      let metric_values := map (get_metric metric_key_is_rlap_cos) type_matches in
      let n_matches := length type_matches in
      let max_clusters_actual := Z.min max_clusters (Z.of_nat (n_matches / 2 + 1)) in
      if (max_clusters_actual <? 2)%Z then
        default TypeFailure
          (_create_single_cluster_result type_matches redshifts rlaps
             quality_threshold metric_key_is_rlap_cos)
      else
        match gmm_fit_predict redshifts (Z.to_nat max_clusters_actual) with
        | None => TypeFailure
        | Some (optimal_n_clusters, labels) =>
            if negb (length labels =? n_matches)%nat then TypeFailure
            else
              TypeSuccess optimal_n_clusters
                (omap (build_cluster type_matches redshifts rlaps metric_values
                         labels quality_threshold)
                      (seq 0 optimal_n_clusters))
                true
        end
  end.

End GMM.

(** *** Cluster selection: [find_winning_cluster_top5_method] *)

(** A cluster candidate, with the keys the selection reads and the keys it
    writes back ([top_5_values] to [composite_score]). *)
Record Candidate := mkCandidate {
  cand_type : option string;
  cand_cluster_id : option nat;
  cand_matches : list Match;
  cand_size : nat;
  cand_redshift_span : Q;
  cand_redshift_quality : RedshiftQuality;
  cand_top_5_values : list Q;
  cand_top_5_mean : Q;
  cand_penalty_factor : Q;
  cand_penalized_score : Q;
  cand_composite_score : Q
}.

(** An element of [cluster_scores]. *)
Record ClusterScore := mkClusterScore {
  cluster : Candidate;
  cluster_size : nat;
  top_5_values : list Q;
  top_5_mean : Q;
  penalty_factor : Q;
  penalized_score : Q;
  cluster_type : string;
  cluster_id : nat
}.

(** The body of the loop over [all_cluster_candidates]; [None] is the
    [continue] for a candidate without matches. *)
Definition score_cluster (use_rlap_cos : bool) (c : Candidate) : option ClusterScore :=
  let matches := cand_matches c in
  match matches with
  | [] => None
  | _ :: _ =>
      let metric_values := sort_desc id (map (get_metric use_rlap_cos) matches) in
      let top_5_values := take 5 metric_values in
      let top_5_mean :=
        match top_5_values with [] => 0 | _ :: _ => np_mean top_5_values end in
      let penalty_factor :=
        if (length metric_values <? 5)%nat
        then (95 # 100) ^ (5 - Z.of_nat (length metric_values))
        else 1 in
      let penalized_score := top_5_mean * penalty_factor in
      let annotated :=
        {| cand_type := cand_type c;
           cand_cluster_id := cand_cluster_id c;
           cand_matches := cand_matches c;
           cand_size := cand_size c;
           cand_redshift_span := cand_redshift_span c;
           cand_redshift_quality := cand_redshift_quality c;
           cand_top_5_values := top_5_values;
           cand_top_5_mean := top_5_mean;
           cand_penalty_factor := penalty_factor;
           cand_penalized_score := penalized_score;
           cand_composite_score := penalized_score |} in
      Some {| cluster := annotated;
              cluster_size := length matches;
              top_5_values := top_5_values;
              top_5_mean := top_5_mean;
              penalty_factor := penalty_factor;
              penalized_score := penalized_score;
              cluster_type := default "Unknown"%string (cand_type c);
              cluster_id := default 0%nat (cand_cluster_id c) |}
  end.

(** [cluster_scores] before it is sorted, in the order of the candidates. *)
Definition score_clusters (use_rlap_cos : bool) (cands : list Candidate)
    : list ClusterScore :=
  omap (score_cluster use_rlap_cos) cands.

Inductive ConfidenceLevel := conf_high | conf_medium | conf_low | conf_very_low.

(** [margin_vs_second] and [relative_margin] may be [float('inf')]: [None]. *)
Record ConfidenceAssessment := mkConfidence {
  confidence_level : ConfidenceLevel;
  margin_vs_second : option Q;
  relative_margin : option Q;
  second_best_type : option string
}.

(** [_calculate_cluster_confidence], without the t-test tag of
    [scipy.stats]. *)
Definition _calculate_cluster_confidence (cluster_scores : list ClusterScore)
    : ConfidenceAssessment :=
  match cluster_scores with
  | best :: second :: _ =>
      let best_score := penalized_score best in
      let second_best_score := penalized_score second in
      let margin := best_score - second_best_score in
      let relative_margin :=
        if Qltb 0 second_best_score then Some (margin / second_best_score) else None in
      let ge (t : Q) :=
        match relative_margin with Some r => Qle_bool t r | None => true end in
      {| confidence_level :=
           if ge (3 # 10) then conf_high
           else if ge (15 # 100) then conf_medium
           else if ge (5 # 100) then conf_low
           else conf_very_low;
         margin_vs_second := Some margin;
         relative_margin := relative_margin;
         second_best_type := Some (cluster_type second) |}
  | _ =>
      {| confidence_level := conf_high;
         margin_vs_second := None;
         relative_margin := None;
         second_best_type := None |}
  end.

Inductive QualityCategory := quality_high | quality_medium | quality_low.

(** [_calculate_absolute_quality]: the category of the winner's score. *)
Definition _calculate_absolute_quality (winning_cluster_info : ClusterScore)
    : QualityCategory :=
  let penalized_score := penalized_score winning_cluster_info in
  if Qle_bool 10 penalized_score then quality_high
  else if Qle_bool 5 penalized_score then quality_medium
  else quality_low.

Record Assessment := mkAssessment {
  winning_cluster : Candidate;
  winning_cluster_info : ClusterScore;
  all_cluster_scores : list ClusterScore;
  confidence_assessment : ConfidenceAssessment;
  quality_assessment : QualityCategory
}.

(** [find_winning_cluster_top5_method]; [None] stands for the two returns
    [(None, {'error': ...})]. *)
Definition find_winning_cluster_top5_method
    (all_cluster_candidates : list Candidate) (use_rlap_cos : bool)
    : option (Candidate * Assessment) :=
  match all_cluster_candidates with
  | [] => None
  | _ :: _ =>
      let cluster_scores :=
        sort_desc penalized_score (score_clusters use_rlap_cos all_cluster_candidates) in
      match cluster_scores with
      | [] => None
      | winning_cluster_info :: _ =>
          let winning_cluster := cluster winning_cluster_info in
          Some (winning_cluster,
                {| winning_cluster := winning_cluster;
                   winning_cluster_info := winning_cluster_info;
                   all_cluster_scores := cluster_scores;
                   confidence_assessment := _calculate_cluster_confidence cluster_scores;
                   quality_assessment := _calculate_absolute_quality winning_cluster_info |})
      end
  end.

(** *** Subtype assignment: [choose_subtype_weighted_voting] *)

(** An element of [cluster_members]. *)
Record Member := mkMember {
  subtype : string;
  metric_value : Q;
  cluster_membership : Q
}.

(** The characters [str.strip()] removes.  A [str] is held as its UTF-8
    bytes: the white space of one byte is 9-13 and 28-32; of two bytes
    U+0085 and U+00A0; of three bytes U+1680, U+2000-U+200A, U+2028,
    U+2029, U+202F, U+205F and U+3000. *)
Definition is_space (a : ascii) : bool :=
  let n := nat_of_ascii a in
  ((9 <=? n) && (n <=? 13) || (28 <=? n) && (n <=? 32))%nat.

Definition is_space2 (a b : ascii) : bool :=
  let '(x, y) := (nat_of_ascii a, nat_of_ascii b) in
  ((x =? 194) && ((y =? 133) || (y =? 160)))%nat.

Definition is_space3 (a b c : ascii) : bool :=
  let '(x, y, z) := (nat_of_ascii a, nat_of_ascii b, nat_of_ascii c) in
  ((x =? 225) && (y =? 154) && (z =? 128)
   || (x =? 226) && (y =? 128)
      && ((128 <=? z) && (z <=? 138) || (z =? 168) || (z =? 169) || (z =? 175))
   || (x =? 226) && (y =? 129) && (z =? 159)
   || (x =? 227) && (y =? 128) && (z =? 128))%nat.

(** [s.strip() == '']: every character of [s] is white space. *)
Fixpoint all_space (s : string) : bool :=
  match s with
  | EmptyString => true
  | String a s1 =>
      if is_space a then all_space s1
      else
        match s1 with
        | String b s2 =>
            if is_space2 a b then all_space s2
            else
              match s2 with
              | String c s3 => is_space3 a b c && all_space s3
              | EmptyString => false
              end
        | EmptyString => false
        end
  end.

Section SubtypeVoting.

(** [snid_sage.shared.utils.math_utils.get_best_metric_value]: RLAP-Cos if
    available, otherwise RLAP. *)
Variable get_best_metric_value : Match -> Q.

(** The loop [for i, match in enumerate(matches)], from index [i] on.
    [gamma[i, k_star]] outside the matrix raises. *)
Fixpoint collect_members (gamma : list (list Q)) (k_star : nat) (resp_cut : Q)
    (i : nat) (matches : list Match) : result (list Member) :=
  match matches with
  | [] => Ok []
  | m :: matches' =>
      match gamma !! i ≫= (.!! k_star) with
      | None => Raise IndexError
      | Some g =>
          match collect_members gamma k_star resp_cut (S i) matches' with
          | Raise e => Raise e
          | Ok rest =>
              if Qle_bool resp_cut g then
                let subtype := default "Unknown"%string (tpl_subtype (template m)) in
                let subtype := if all_space subtype then "Unknown"%string else subtype in
                Ok ({| subtype := subtype;
                       metric_value := get_best_metric_value m;
                       cluster_membership := g |} :: rest)
              else Ok rest
          end
      end
  end.

(** [subtype_groups[member['subtype']].append(member)] on a [defaultdict],
    which keeps its keys in the order of their first use. *)
Fixpoint group_append (k : string) (v : Member) (groups : list (string * list Member))
    : list (string * list Member) :=
  match groups with
  | [] => [(k, [v])]
  | (k', vs) :: groups' =>
      if String.eqb k k' then (k', vs ++ [v]) :: groups'
      else (k', vs) :: group_append k v groups'
  end.

Definition subtype_groups (cluster_members : list Member) : list (string * list Member) :=
  foldl (fun groups member => group_append (subtype member) member groups) [] cluster_members.

(** The score of one subtype: the body of the loop over
    [subtype_groups.items()]. *)
Definition subtype_score (members : list Member) : Q :=
  let sorted_members := sort_desc metric_value members in
  let top_members := take 5 sorted_members in
  let top_values := map metric_value top_members in
  let mean_top := Qsum top_values / inject_Z (Z.of_nat (length top_values)) in
  let penalty_factor := inject_Z (Z.of_nat (length top_values)) / 5 in
  mean_top * penalty_factor.

Definition subtype_scores (groups : list (string * list Member)) : list (string * Q) :=
  map (fun g => (g.1, subtype_score g.2)) groups.

(** [max(d, key=d.get)]: the first key of maximal value. *)
Definition max_by_score (scores : list (string * Q)) : option (string * Q) :=
  match scores with
  | [] => None
  | s :: scores' =>
      Some (foldl (fun best x => if Qltb best.2 x.2 then x else best) s scores')
  end.

Definition choose_subtype_weighted_voting
    (k_star : nat) (matches : list Match) (gamma : list (list Q)) (resp_cut : Q)
    : result (string * Q * Q * option string) :=
  match collect_members gamma k_star resp_cut 0 matches with
  | Raise e => Raise e
  | Ok [] => Ok ("Unknown"%string, 0, 0, None)
  | Ok cluster_members =>
      let scores := subtype_scores (subtype_groups cluster_members) in
      match max_by_score scores with
      | None => Ok ("Unknown"%string, 0, 0, None)
      | Some (best_subtype, best_score) =>
          let sorted_scores := sort_desc id (map snd scores) in
          let first := default 0 (sorted_scores !! 0%nat) in
          let second := sorted_scores !! 1%nat in
          let margin_over_second := first - default 0 second in
          let total_score := Qsum (map snd scores) in
          let confidence := if Qltb 0 total_score then best_score / total_score else 0 in
          let relative_margin_pct :=
            match second with
            | Some second_best_score =>
                if Qltb 0 second_best_score
                then margin_over_second / second_best_score * 100
                else 0
            | None => 0
            end in
          let second_best_subtype :=
            match second with
            | Some second_best_score =>
                fst <$> head (filter (fun x => Qltb (Qabs (x.2 - second_best_score)) (1 # 1000000) = true) scores)
            | None => None
            end in
          Ok (best_subtype, confidence, relative_margin_pct, second_best_subtype)
      end
  end.

End SubtypeVoting.

(** *** The entry point: [perform_direct_gmm_clustering] *)

(** [match['template'].get('type', 'Unknown')] *)
Definition type_of (m : Match) : string :=
  default "Unknown"%string (tpl_type (template m)).

(** [type_groups[sn_type].append(match)]; a new type goes last. *)
Fixpoint type_group_append (k : string) (m : Match) (groups : list (string * list Match))
    : list (string * list Match) :=
  match groups with
  | [] => [(k, [m])]
  | (k', ms) :: groups' =>
      if String.eqb k k' then (k', ms ++ [m]) :: groups'
      else (k', ms) :: type_group_append k m groups'
  end.

Definition type_groups (matches : list Match) : list (string * list Match) :=
  foldl (fun groups m => type_group_append (type_of m) m groups) [] matches.

Definition filtered_type_groups (min_matches_per_type : Z)
    (groups : list (string * list Match)) : list (string * list Match) :=
  List.filter (fun g => (min_matches_per_type <=? Z.of_nat (length g.2))%Z) groups.

(** The candidate made from a cluster of the type [sn_type].  The keys that
    the selection writes ([top_5_values] to [penalized_score]) are not there
    yet; the fields hold the values the cluster dictionaries start with. *)
Definition cluster_candidate (sn_type : string) (ci : ClusterInfo) : Candidate :=
  {| cand_type := Some sn_type;
     cand_cluster_id := Some (ci_id ci);
     cand_matches := ci_matches ci;
     cand_size := ci_size ci;
     cand_redshift_span := ci_redshift_span ci;
     cand_redshift_quality := ci_redshift_quality ci;
     cand_top_5_values := [];
     cand_top_5_mean := 0;
     cand_penalty_factor := 1;
     cand_penalized_score := 0;
     cand_composite_score := 0 |}.

(** A candidate as the selection leaves it: the dictionaries are annotated
    in place, so the list of candidates holds the annotated ones. *)
Definition annotated (use_rlap_cos : bool) (c : Candidate) : Candidate :=
  match score_cluster use_rlap_cos c with
  | Some sc => cluster sc
  | None => c
  end.

(** What the entry point returns: [{'success': False, 'reason': ...}] or the
    successful dictionary, of which the keys below are kept. *)
Inductive ClusteringResult :=
| ClusteringFailure (reason : string)
| ClusteringSuccess (best_cluster : Candidate) (all_candidates : list Candidate)
    (quality_assessment : Assessment) (n_types_clustered : nat).

Section Entry.

Variable gmm_fit_predict : list Q -> nat -> option (nat * list nat).

(** The body of the loop over [filtered_type_groups.items()] for one type:
    the candidates it appends.  A result without the key ['gmm_model'] stops
    the whole call with a [KeyError].  (The subtype information, computed
    inside its own [try], is not part of [Candidate].) *)
Definition type_candidates (sn_type : string) (type_matches : list Match)
    (max_clusters_per_type : Z) (quality_threshold : Q) (use_rlap_cos : bool)
    : result (list Candidate) :=
  match _perform_direct_gmm_clustering gmm_fit_predict type_matches
          max_clusters_per_type quality_threshold use_rlap_cos with
  | TypeFailure => Ok []
  | TypeSuccess optimal_n_clusters clusters gmm_model =>
      if negb gmm_model then Raise KeyError
      else
        Ok (omap (fun cluster_id =>
                    cluster_candidate sn_type
                      <$> List.find (fun c => Nat.eqb (ci_id c) cluster_id) clusters)
                 (seq 0 optimal_n_clusters))
  end.

Fixpoint collect_candidates (groups : list (string * list Match))
    (max_clusters_per_type : Z) (quality_threshold : Q) (use_rlap_cos : bool)
    (all_cluster_candidates : list Candidate) : result (list Candidate) :=
  match groups with
  | [] => Ok all_cluster_candidates
  | (sn_type, type_matches) :: groups' =>
      cs ← type_candidates sn_type type_matches max_clusters_per_type
             quality_threshold use_rlap_cos;
      collect_candidates groups' max_clusters_per_type quality_threshold use_rlap_cos
        (all_cluster_candidates ++ cs)
  end.

Definition perform_direct_gmm_clustering
    (matches : list Match) (min_matches_per_type : Z) (quality_threshold : Q)
    (max_clusters_per_type : Z) (use_rlap_cos : bool) : result ClusteringResult :=
  let filtered_type_groups := filtered_type_groups min_matches_per_type (type_groups matches) in
  match filtered_type_groups with
  | [] => Ok (ClusteringFailure "insufficient_matches")
  | _ :: _ =>
      all_cluster_candidates ←
        collect_candidates filtered_type_groups max_clusters_per_type quality_threshold
          use_rlap_cos [];
      match all_cluster_candidates with
      | [] => Ok (ClusteringFailure "no_clusters")
      | _ :: _ =>
          match find_winning_cluster_top5_method all_cluster_candidates use_rlap_cos with
          | None => Ok (ClusteringFailure "cluster_selection_failed")
          | Some (best_cluster, quality_assessment) =>
              Ok (ClusteringSuccess best_cluster
                    (map (annotated use_rlap_cos) all_cluster_candidates)
                    quality_assessment (length filtered_type_groups))
          end
      end
  end.

End Entry.

(** *** [create_3d_visualization_data] *)

(** The lists the function fills, the dictionary [type_to_index] (in the
    order of insertion) and the counter [current_type_index]. *)
Record VizData := mkVizData {
  viz_redshifts : list Q;
  viz_rlaps : list Q;
  viz_types : list string;
  viz_type_indices : list nat;
  viz_cluster_ids : list nat;
  viz_matches : list Match;
  viz_type_mapping : list (string * nat);
  viz_current_type_index : nat
}.

(** [type_to_index[sn_type]], where the key is there. *)
Definition type_index_of (sn_type : string) (type_to_index : list (string * nat))
    : option nat :=
  snd <$> List.find (fun p : string * nat => String.eqb sn_type p.1) type_to_index.

Section Visualization.

Variable get_best_metric_value : Match -> Q.

(** The inner loop [for match in ...]: one row per match. *)
Definition viz_add_matches (sn_type : string) (type_index cluster_id : nat)
    (matches : list Match) (d : VizData) : VizData :=
  foldl (fun d m =>
           {| viz_redshifts := viz_redshifts d ++ [redshift m];
              viz_rlaps := viz_rlaps d ++ [get_best_metric_value m];
              viz_types := viz_types d ++ [sn_type];
              viz_type_indices := viz_type_indices d ++ [type_index];
              viz_cluster_ids := viz_cluster_ids d ++ [cluster_id];
              viz_matches := viz_matches d ++ [m];
              viz_type_mapping := viz_type_mapping d;
              viz_current_type_index := viz_current_type_index d |})
        d matches.

(** [if sn_type not in type_to_index: ...; type_index = type_to_index[sn_type]] *)
Definition viz_register (sn_type : string) (d : VizData) : VizData * nat :=
  match type_index_of sn_type (viz_type_mapping d) with
  | Some type_index => (d, type_index)
  | None =>
      ({| viz_redshifts := viz_redshifts d;
          viz_rlaps := viz_rlaps d;
          viz_types := viz_types d;
          viz_type_indices := viz_type_indices d;
          viz_cluster_ids := viz_cluster_ids d;
          viz_matches := viz_matches d;
          viz_type_mapping := viz_type_mapping d ++ [(sn_type, viz_current_type_index d)];
          viz_current_type_index := S (viz_current_type_index d) |},
       viz_current_type_index d)
  end.

(** The body of the loop over [all_candidates]. *)
Definition viz_candidate (d : VizData) (candidate : Candidate) : VizData :=
  let sn_type := default "Unknown"%string (cand_type candidate) in
  let '(d, type_index) := viz_register sn_type d in
  let cluster_id := default 0%nat (cand_cluster_id candidate) in
  viz_add_matches sn_type type_index cluster_id (cand_matches candidate) d.

(** The body of the loop over [type_clustering_results.values()]; the
    string is [type_result['type']]. *)
Definition viz_type_result (d : VizData) (type_result : string * TypeResult) : VizData :=
  match type_result with
  | (_, TypeFailure) => d
  | (sn_type, TypeSuccess _ clusters _) =>
      let '(d, type_index) := viz_register sn_type d in
      foldl (fun d cluster =>
               viz_add_matches sn_type type_index (ci_id cluster) (ci_matches cluster) d)
            d clusters
  end.

Definition viz_empty : VizData :=
  {| viz_redshifts := []; viz_rlaps := []; viz_types := []; viz_type_indices := [];
     viz_cluster_ids := []; viz_matches := []; viz_type_mapping := [];
     viz_current_type_index := 0 |}.

(** [create_3d_visualization_data(clustering_results)]: [all_candidates] is
    [None] when the key is missing, and then the per-type results are
    read. *)
Definition create_3d_visualization_data
    (all_candidates : option (list Candidate))
    (type_clustering_results : list (string * TypeResult)) : VizData :=
  match all_candidates with
  | Some candidates => foldl viz_candidate viz_empty candidates
  | None => foldl viz_type_result viz_empty type_clustering_results
  end.

End Visualization.

End Clustering.

(** ** preprocessing.py *)

Module Preprocessing.

(** [int(x)] on a finite float: truncation towards zero.  (On an infinity
    or NaN [int] raises; see [float_int].) *)
Definition py_int (x : Q) : Z :=
  if Qltb x 0 then Qceiling x else Qfloor x.

(** [round(x)] on a float: to the nearest integer, halves to the even one. *)
Definition py_round (x : Q) : Z :=
  let f := Qfloor x in
  let d := x - inject_Z f in
  if Qltb d (1 # 2) then f
  else if Qltb (1 # 2) d then (f + 1)%Z
  else if Z.even f then f else (f + 1)%Z.

(** [v[i]] with Python's negative indices. *)
Definition getitem (v : list Q) (i : Z) : result Q :=
  let n := Z.of_nat (length v) in
  let k := if (i <? 0)%Z then (i + n)%Z else i in
  if ((0 <=? k) && (k <? n))%Z
  then match v !! Z.to_nat k with Some x => Ok x | None => Raise IndexError end
  else Raise IndexError.

(** [v[i] = x] with Python's negative indices. *)
Definition setitem (v : list Q) (i : Z) (x : Q) : result (list Q) :=
  let n := Z.of_nat (length v) in
  let k := if (i <? 0)%Z then (i + n)%Z else i in
  if ((0 <=? k) && (k <? n))%Z
  then Ok (<[Z.to_nat k := x]> v)
  else Raise IndexError.

(** [for x in xs: state = body(x, state)], stopping at the first raise. *)
Fixpoint for_each {A S} (xs : list A) (body : A -> S -> result S) (st : S) : result S :=
  match xs with
  | [] => Ok st
  | x :: xs' => st' ← body x st; for_each xs' body st'
  end.

(** [range(a, b)] *)
Definition py_range (a b : Z) : list Z :=
  map (fun k => (a + Z.of_nat k)%Z) (seq 0 (Z.to_nat (b - a))).

(** [out[start : start + len(factors)] *= factors], for a slice that lies
    inside [out]. *)
Definition scale_slice (start : nat) (factors : list Q) (out : list Q) : list Q :=
  take start out
  ++ zip_with Qmult (take (length factors) (drop start out)) factors
  ++ drop (start + length factors) out.

Section Apodize.

(** [cos_pi x] is [np.cos(np.pi * x)]. *)
Variable cos_pi : Q -> Q.

(** [0.5 * (1 - np.cos(np.pi * np.arange(ns) / (ns - 1.0)))] *)
Definition cosine_ramp (ns : Z) : list Q :=
  map (fun k => (1 # 2) * (1 - cos_pi (inject_Z k / (inject_Z ns - 1))))
      (py_range 0 ns).

(** [apodize(arr, n1, n2, percent)]; [percent = None] is allowed. *)
Definition apodize (arr : list Q) (n1 n2 : Z) (percent : option Q) : list Q :=
  let out := arr in
  let len := Z.of_nat (length arr) in
  if negb ((0 <=? n1) && (n1 <=? n2) && (n2 <? len))%Z then out
  else
    match percent with
    | None => out
    | Some percent =>
        if Qle_bool percent 0 then out
        else
          let valid_data_len := (n2 - n1 + 1)%Z in
          if (valid_data_len <=? 0)%Z then out
          else
            let ns := py_round (inject_Z valid_data_len * percent / 100) in
            let ns := Z.min ns (py_int (inject_Z valid_data_len / 2)) in
            if (ns <? 1)%Z then out
            else
              let ramp := if (ns =? 1)%Z then [0] else cosine_ramp ns in
              if ((len <? n1 + ns) || (n2 - ns + 1 <? 0))%Z then out
              else
                let out := scale_slice (Z.to_nat n1) ramp out in
                scale_slice (Z.to_nat (n2 - ns + 1)) (reverse ramp) out
    end.

End Apodize.

Section SavitzkyGolay.

(** [scipy.signal.savgol_filter(data, window_length, polyorder)]; [None]
    when it raises. *)
Variable savgol_filter : list Q -> Z -> Z -> option (list Q).

Definition savgol_filter_fixed (data : list Q) (window_length polyorder : Z) : list Q :=
  if (window_length <? 3)%Z then data
  else
    let window_length :=
      if (window_length mod 2 =? 0)%Z then (window_length + 1)%Z else window_length in
    let window_length := Z.min window_length (Z.of_nat (length data)) in
    if (window_length <? 3)%Z then data
    else
      let polyorder := Z.min polyorder (window_length - 1) in
      match savgol_filter data window_length polyorder with
      | Some filtered => filtered
      | None => data
      end.

(** [np.diff(wave)] *)
Definition np_diff (v : list Q) : list Q :=
  zip_with (fun a b => b - a) v (tail v).

(** The pixel window [savgol_filter_wavelength] derives from the FWHM,
    before it is clamped to the data: [int(2 * sigma / avg_dwl)], made at
    least 3 and odd.  With fewer than two wavelengths the mean spacing is
    NaN, with a zero mean spacing the quotient is infinite, and [int]
    raises. *)
Definition wavelength_window (wave : list Q) (fwhm_angstrom : Q) : result Z :=
  match np_diff wave with
  | [] => Raise (ValueError "cannot convert float NaN to integer")
  | diffs =>
      let avg_dwl := np_mean diffs in
      if Qeq_bool avg_dwl 0 then Raise OverflowError
      else
        let sigma_angstrom := fwhm_angstrom / (235 # 100) in
        let window_length_pixels := py_int (2 * sigma_angstrom / avg_dwl) in
        let window_length_pixels := Z.max 3 window_length_pixels in
        Ok (if (window_length_pixels mod 2 =? 0)%Z
            then (window_length_pixels + 1)%Z else window_length_pixels)
  end.

Definition savgol_filter_wavelength
    (wave data : list Q) (fwhm_angstrom : Q) (polyorder : Z) : result (list Q) :=
  if negb (length data =? length wave)%nat
  then Raise (ValueError "data and wave must have the same shape")
  else if Qle_bool fwhm_angstrom 0 then Ok data
  else
    window_length_pixels ← wavelength_window wave fwhm_angstrom;
    let window_length_pixels := Z.min window_length_pixels (Z.of_nat (length data)) in
    if (window_length_pixels <? 3)%Z then Ok data
    else
      let polyorder := Z.min polyorder (window_length_pixels - 1) in
      match savgol_filter data window_length_pixels polyorder with
      | Some filtered => Ok filtered
      | None => Ok data
      end.

End SavitzkyGolay.

(** *** The logarithmic grid and [log_rebin] *)

(** A value of [np.log]: a number, minus infinity (at 0) or NaN (below 0). *)
Inductive logval :=
| LFinite (q : Q)
| LNegInf
| LNaN.

(** [int(np.floor(x))] *)
Definition floor_int (x : logval) : result Z :=
  match x with
  | LFinite q => Ok (Qfloor q)
  | LNegInf => Raise OverflowError
  | LNaN => Raise (ValueError "cannot convert float NaN to integer")
  end.

(** The value used in arithmetic once [floor_int] has accepted it. *)
Definition finite_part (x : logval) : Q :=
  match x with
  | LFinite q => q
  | _ => 0
  end.

(** The linear pixel edges [s[0..n]]: midpoints of neighbouring samples,
    first and last extrapolated.  [wave[1]] does not exist for fewer than
    two samples. *)
Definition pixel_edges (wave : list Q) : result (list Q) :=
  match wave, reverse wave with
  | w0 :: w1 :: _, wn :: wm :: _ =>
      Ok (((3 # 2) * w0 - (1 # 2) * w1)
          :: zip_with (fun a b => (1 # 2) * (a + b)) wave (tail wave)
          ++ [(3 # 2) * wn - (1 # 2) * wm])
  | _, _ => Raise IndexError
  end.

Section LogRebin.

(** The grid globals [NW], [W0], [DWLOG] as [init_wavelength_grid] leaves
    them (the model is that of a grid with [0 < W0] and [0 < DWLOG]), and
    NumPy's [log] and [exp] on the numbers they are defined on. *)
Variable NW : nat.
Variables W0 DWLOG : Q.
Variable np_log : Q -> Q.
Variable np_exp : Q -> Q.

(** [np.log(s / w0) / dwlog + 1.0] *)
Definition slog_of (s : Q) : logval :=
  let x := s / W0 in
  if Qltb x 0 then LNaN
  else if Qeq_bool x 0 then LNegInf
  else LFinite (np_log x / DWLOG + 1).

(** [fdest[i - 1] += v] *)
Definition add_at (i : Z) (v : Q) (fdest : list Q) : result (list Q) :=
  x ← getitem fdest i; setitem fdest i (x + v).

(** The body of [for i in range(i0, i1 + 1)].  The sum is exact here and
    rounded in the code, so it is not linear in the flux there; no fact
    below needs that. *)
Definition rebin_bin (fsrc : list Q) (l : nat) (s0log s1log dlambda : Q)
    (i : Z) (fdest : list Q) : result (list Q) :=
  let alen := Qmin s1log (inject_Z i + 1) - Qmax s0log (inject_Z i) in
  if Qle_bool alen 0 then Ok fdest
  else
    let frac := alen / (s1log - s0log) in
    f ← getitem fsrc (Z.of_nat l);
    add_at (i - 1) (f * frac * dlambda) fdest.

(** The body of [for l in range(wave.size)]. *)
Definition rebin_pixel (s : list Q) (fsrc : list Q) (l : nat) (fdest : list Q)
    : result (list Q) :=
  sl ← getitem s (Z.of_nat l);
  sl1 ← getitem s (Z.of_nat l + 1);
  let s0log := slog_of sl in
  let s1log := slog_of sl1 in
  let dlambda := sl1 - sl in
  f0 ← floor_int s0log;
  let i0 := Z.max 1 f0 in
  f1 ← floor_int s1log;
  let i1 := Z.min (Z.of_nat NW) f1 in
  for_each (py_range i0 (i1 + 1))
    (rebin_bin fsrc l (finite_part s0log) (finite_part s1log) dlambda) fdest.

(** [w0 * np.exp((np.arange(nlog + 1) - 0.5) * dwlog)] at index [k] *)
Definition bin_edge (k : nat) : Q :=
  W0 * np_exp ((inject_Z (Z.of_nat k) - (1 # 2)) * DWLOG).

(** [np.diff(edges)] at index [k] *)
Definition binw (k : nat) : Q := bin_edge (S k) - bin_edge k.

Definition log_rebin (wave fsrc : list Q) : result (list Q * list Q) :=
  let nlog := NW in
  let log_wave :=
    map (fun k => W0 * np_exp ((inject_Z (Z.of_nat k) + (1 # 2)) * DWLOG)) (seq 0 nlog) in
  let fdest := replicate nlog 0 in
  s ← pixel_edges wave;
  fdest ← for_each (seq 0 (length wave)) (rebin_pixel s fsrc) fdest;
  let fdest := imap (fun k x => x / binw k) fdest in
  Ok (log_wave, fdest).

End LogRebin.

(** *** Continuum removal: [fit_continuum_spline] *)

Definition zeros_like (v : list Q) : list Q := replicate (length v) 0.

Definition ones_like (v : list Q) : list Q := replicate (length v) 1.

(** [a % b] on Python integers. *)
Definition py_mod (a b : Z) : result Z :=
  if (b =? 0)%Z then Raise ZeroDivisionError else Ok (a mod b)%Z.

(** [v[:-1]] *)
Definition init (v : list Q) : list Q := take (length v - 1) v.

(** [np.searchsorted(v, x)] on an ascending [v]: the number of elements
    below [x]. *)
Fixpoint searchsorted (v : list Q) (x : Q) : Z :=
  match v with
  | [] => 0
  | y :: v' => if Qltb y x then (1 + searchsorted v' x)%Z else 0%Z
  end.

(** [while l1 < n - 1 and (flux[l1] <= 0 or nuked < 1)]: [steps] is
    [n - 1 - l1], the number of indices left below [n - 1], so that the
    guard [l1 < n - 1] reads [steps <> 0]. *)
Fixpoint chop_left (flux : list Q) (steps : nat) (l1 nuked : Z) : result Z :=
  match steps with
  | O => Ok l1
  | S steps' =>
      f ← getitem flux l1;
      if Qle_bool f 0 || (nuked <? 1)%Z
      then chop_left flux steps' (l1 + 1) (if Qltb 0 f then nuked + 1 else nuked)%Z
      else Ok l1
  end.

(** [while l2 > 1 and (flux[l2] <= 0 or nuked < 1)]: [steps] is [l2 - 1]. *)
Fixpoint chop_right (flux : list Q) (steps : nat) (l2 nuked : Z) : result Z :=
  match steps with
  | O => Ok l2
  | S steps' =>
      f ← getitem flux l2;
      if Qle_bool f 0 || (nuked <? 1)%Z
      then chop_right flux steps' (l2 - 1) (if Qltb 0 f then nuked + 1 else nuked)%Z
      else Ok l2
  end.

Section Continuum.

(** [np.log10] on positive numbers, and [10.0 ** x]. *)
Variable np_log10 : Q -> Q.
Variable pow10 : Q -> Q.

(** The running sums and the knots placed so far. *)
Record KnotState := mkKnotState {
  nave : Q;
  sum_x : Q;
  sum_y : Q;
  xknot : list Q;
  yknot : list Q
}.

(** The body of the knot loop [for i in range(n)]. *)
Definition knot_step (flux : list Q) (l1 l2 istart kwidth : Z) (i : Z) (st : KnotState)
    : result KnotState :=
  st ← (if ((l1 <? i) && (i <? l2))%Z
        then
          f ← getitem flux i;
          if Qltb 0 f
          then Ok {| nave := nave st + 1;
                     sum_x := sum_x st + (inject_Z i - (1 # 2));
                     sum_y := sum_y st + np_log10 f;
                     xknot := xknot st;
                     yknot := yknot st |}
          else Ok st
        else Ok st);
  r ← py_mod (i - istart) kwidth;
  if (r =? 0)%Z && Qltb 0 (nave st)
  then Ok {| nave := 0;
             sum_x := 0;
             sum_y := 0;
             xknot := xknot st ++ [sum_x st / nave st];
             yknot := yknot st ++ [sum_y st / nave st] |}
  else Ok st.

Definition place_knots (flux : list Q) (l1 l2 istart kwidth : Z) : result KnotState :=
  for_each (py_range 0 (Z.of_nat (length flux)))
    (knot_step flux l1 l2 istart kwidth)
    {| nave := 0; sum_x := 0; sum_y := 0; xknot := []; yknot := [] |}.

(** The forward sweep [for i in range(1, len(rhs))] on the pair [(u, z)]. *)
Definition sweep_step (A C rhs : list Q) (i : Z) (uz : list Q * list Q)
    : result (list Q * list Q) :=
  let '(u, z) := uz in
  c ← getitem C (i - 1);
  up ← getitem u (i - 1);
  let li := c / up in
  a ← getitem A i;
  u ← setitem u i (a - li * c);
  r ← getitem rhs i;
  zp ← getitem z (i - 1);
  z ← setitem z i (r - li * zp);
  Ok (u, z).

(** The back substitution [for i in range(len(rhs) - 2, -1, -1)]. *)
Definition back_step (C u z : list Q) (i : Z) (y2 : list Q) : result (list Q) :=
  zi ← getitem z i;
  ci ← getitem C i;
  y ← getitem y2 (i + 2);
  ui ← getitem u i;
  setitem y2 (i + 1) ((zi - ci * y) / ui).

(** The second derivatives [y2] of the natural cubic spline through the
    knots. *)
Definition spline_y2 (xknot yknot : list Q) : result (list Q) :=
  let nk := length xknot in
  let h := np_diff xknot in
  let slope := zip_with Qdiv (np_diff yknot) h in
  let rhs := zip_with (fun right left => 6 * (right - left)) (tail slope) (init slope) in
  let A := zip_with (fun a b => 2 * (a + b)) (init h) (tail h) in
  let C := tail h in
  let u := zeros_like A in
  let z := zeros_like rhs in
  a0 ← getitem A 0;
  r0 ← getitem rhs 0;
  u ← setitem u 0 a0;
  z ← setitem z 0 r0;
  '(u, z) ← for_each (py_range 1 (Z.of_nat (length rhs))) (sweep_step A C rhs) (u, z);
  let y2 := replicate nk 0 in
  if (0 <? length rhs)%nat
  then
    zl ← getitem z (-1);
    ul ← getitem u (-1);
    y2 ← setitem y2 (-2) (zl / ul);
    for_each (reverse (py_range 0 (Z.of_nat (length rhs) - 1))) (back_step C u z) y2
  else Ok y2.

(** The body of the evaluation loop [for j in range(n)]: [cont[j]]. *)
Definition spline_eval (xknot yknot y2 : list Q) (j : Z) : result Q :=
  let nk := Z.of_nat (length xknot) in
  let xp := inject_Z j - (1 # 2) in
  let idx := Z.min (Z.max (searchsorted xknot xp - 1) 0) (nk - 2) in
  x1 ← getitem xknot (idx + 1);
  x0 ← getitem xknot idx;
  let h_i := x1 - x0 in
  let a := (x1 - xp) / h_i in
  let b := (xp - x0) / h_i in
  y0 ← getitem yknot idx;
  y1 ← getitem yknot (idx + 1);
  d0 ← getitem y2 idx;
  d1 ← getitem y2 (idx + 1);
  let logc := a * y0 + b * y1 + ((a ^ 3 - a) * d0 + (b ^ 3 - b) * d1) * (h_i ^ 2) / 6 in
  Ok (pow10 logc).

(** [flat[mask] = flux[mask] / cont[mask] - 1.0] on zeros.  The quotient is
    exact here and rounded in the code, where a small positive flux gives
    exactly [-1.0]; the facts below that use it are those that hold of both:
    the shape, the zeros, and the bound [-1 <= flat]. *)
Definition flatten_by (flux cont : list Q) : list Q :=
  zip_with (fun f c => if Qltb 0 f && Qltb 0 c then f / c - 1 else 0) flux cont.

Definition fit_continuum_spline (flux : list Q) (knotnum izoff : Z)
    : result (list Q * list Q) :=
  let n := Z.of_nat (length flux) in
  if ((n <? 10) || (knotnum <? 3))%Z then Ok (zeros_like flux, ones_like flux)
  else
    l1 ← chop_left flux (length flux - 1) 0 0;
    l2 ← chop_right flux (length flux - 2) (n - 1) 0;
    if (l2 - l1 <? 3 * knotnum)%Z then Ok (zeros_like flux, ones_like flux)
    else
      let kwidth := (n / knotnum)%Z in
      istart ← (if (0 <? izoff)%Z
                then r ← py_mod izoff kwidth; Ok (r - kwidth)%Z
                else Ok 0%Z);
      knots ← place_knots flux l1 l2 istart kwidth;
      let nk := length (xknot knots) in
      if (nk <? 3)%nat then Ok (zeros_like flux, ones_like flux)
      else
        y2 ← spline_y2 (xknot knots) (yknot knots);
        cont ← mapM (spline_eval (xknot knots) (yknot knots) y2) (py_range 0 n);
        Ok (flatten_by flux cont, cont).

End Continuum.

(** *** [fit_continuum] with [method="spline"], and [flatten_spectrum] *)

(** [np.nonzero(flux > 0)[0]] *)
Definition positive_indices (flux : list Q) : list nat :=
  omap (fun kx => if Qltb 0 kx.2 then Some kx.1 else None) (imap pair flux).

(** [v[:i0] = 0.0; v[i1+1:] = 0.0] *)
Definition zero_outside (i0 i1 : nat) (v : list Q) : list Q :=
  imap (fun k x => if ((k <? i0) || (i1 <? k))%nat then 0 else x) v.

(** What [flatten_spectrum] returns. *)
Record Flattened := mkFlattened {
  fl_wave : list Q;
  fl_flux : list Q;
  fl_continuum : list Q;
  fl_original_wave : list Q;
  fl_original_flux : list Q
}.

(** The parameters of [def log_rebin(wave, fsrc)]. *)
Definition log_rebin_parameters : list string := ["wave"; "fsrc"]%string.

(** A scalar float argument: a number, an infinity or NaN.  [int()] and
    [round()] raise on the last three, and a product of numbers becomes an
    infinity when it overflows. *)
Inductive pyfloat :=
| FFinite (q : Q)
| FPosInf
| FNegInf
| FNaN.

(** The least magnitude that a double rounds to an infinity:
    [2^1024 - 2^970]. *)
Definition float_overflow : Q := inject_Z (2 ^ 1024 - 2 ^ 970).

(** [x > 0] *)
Definition float_pos (x : pyfloat) : bool :=
  match x with
  | FFinite q => Qltb 0 q
  | FPosInf => true
  | FNegInf | FNaN => false
  end.

(** The float of a real number: an infinity once it overflows.  (The
    rounding of a number in range is not modelled: its value is kept.) *)
Definition float_of (x : Q) : pyfloat :=
  if Qle_bool float_overflow x then FPosInf
  else if Qle_bool x (- float_overflow) then FNegInf
  else FFinite x.

(** [n * x] for an integer [n] *)
Definition float_mul_int (n : Z) (x : pyfloat) : pyfloat :=
  match x with
  | FFinite q => float_of (inject_Z n * q)
  | FPosInf => if (n =? 0)%Z then FNaN else if (0 <? n)%Z then FPosInf else FNegInf
  | FNegInf => if (n =? 0)%Z then FNaN else if (0 <? n)%Z then FNegInf else FPosInf
  | FNaN => FNaN
  end.

(** [x / d] for a number [d > 0] *)
Definition float_div (x : pyfloat) (d : Q) : pyfloat :=
  match x with
  | FFinite q => FFinite (q / d)
  | other => other
  end.

(** [int(x)] and [round(x)] on a float: [OverflowError] on an infinity,
    [ValueError] on NaN. *)
Definition float_int (x : pyfloat) : result Z :=
  match x with
  | FFinite q => Ok (py_int q)
  | FPosInf | FNegInf => Raise OverflowError
  | FNaN => Raise (ValueError "cannot convert float NaN to integer")
  end.

Section FlattenSpectrum.

Variable cos_pi : Q -> Q.
Variable savgol_filter : list Q -> Z -> Z -> option (list Q).
Variable NW : nat.
Variables W0 DWLOG : Q.
Variables np_log np_exp np_log10 pow10 : Q -> Q.

(** The [method="spline"] branch of [fit_continuum] and its common tail. *)
Definition fit_continuum (flux : list Q) (knotnum izoff : Z) : result (list Q * list Q) :=
  '(flat, cont) ← fit_continuum_spline np_log10 pow10 flux knotnum izoff;
  let nz := positive_indices flux in
  match head nz, last nz with
  | Some i0, Some i1 => Ok (zero_outside i0 i1 flat, zero_outside i0 i1 cont)
  | _, _ => Ok (flat, cont)
  end.

(** A call [log_rebin(wave, fsrc, k1=v1, ...)]: a keyword that names no
    parameter raises [TypeError] before the body runs. *)
Definition call_log_rebin (wave fsrc : list Q) (keywords : list (string * Z))
    : result (list Q * list Q) :=
  if forallb (fun kw => bool_decide (kw.1 ∈ log_rebin_parameters)) keywords
  then log_rebin NW W0 DWLOG np_log np_exp wave fsrc
  else Raise TypeError.

(** [apodize(arr, n1, n2, percent)] for a float [percent]: with valid edges,
    [round(valid_data_len * percent / 100.0)] raises on an infinity or
    NaN. *)
Definition apodize_float (arr : list Q) (n1 n2 : Z) (percent : pyfloat) : result (list Q) :=
  let len := Z.of_nat (length arr) in
  if negb ((0 <=? n1) && (n1 <=? n2) && (n2 <? len))%Z then Ok arr
  else
    match percent with
    | FFinite q =>
        if Qle_bool q 0 then Ok arr
        else
          _ ← float_int (float_div (float_mul_int (n2 - n1 + 1) percent) 100);
          Ok (apodize cos_pi arr n1 n2 (Some q))
    | FNegInf => Ok arr
    | FPosInf => Raise OverflowError
    | FNaN => Raise (ValueError "cannot convert float NaN to integer")
    end.

(** [savgol_filter_wavelength(wave, data, fwhm_angstrom, polyorder)] for a
    float [fwhm_angstrom]: after the test of the shapes, [int(2 *
    sigma_angstrom / avg_dwl)] raises when the quotient is an infinity (an
    infinite FWHM, a zero mean spacing, an overflow) or NaN (NaN FWHM, fewer
    than two wavelengths). *)
Definition savgol_filter_wavelength_float
    (wave data : list Q) (fwhm_angstrom : pyfloat) (polyorder : Z) : result (list Q) :=
  if negb (length data =? length wave)%nat
  then Raise (ValueError "data and wave must have the same shape")
  else
    match fwhm_angstrom with
    | FNegInf => Ok data
    | FNaN => Raise (ValueError "cannot convert float NaN to integer")
    | FPosInf =>
        match np_diff wave with
        | [] => Raise (ValueError "cannot convert float NaN to integer")
        | _ => Raise OverflowError
        end
    | FFinite q =>
        if Qle_bool q 0 then Ok data
        else
          match np_diff wave with
          | [] => Raise (ValueError "cannot convert float NaN to integer")
          | diffs =>
              let avg_dwl := np_mean diffs in
              if Qeq_bool avg_dwl 0 then Raise OverflowError
              else
                _ ← float_int (float_of (Qabs (2 * (q / (235 # 100)) / avg_dwl)));
                savgol_filter_wavelength savgol_filter wave data q polyorder
          end
    end.

(** [if apodize_percent > 0: ...] *)
Definition apodize_step (flux : list Q) (apodize_percent : pyfloat) : result (list Q) :=
  if float_pos apodize_percent then
    let n_points := Z.of_nat (length flux) in
    n_apodize ← float_int (float_div (float_mul_int n_points apodize_percent) 100);
    apodize_float flux n_apodize n_apodize apodize_percent
  else Ok flux.

(** [if median_filter_type != "none" and median_filter_value > 0: ...] *)
Definition smoothing_step (wave flux : list Q) (median_filter_type : string)
    (median_filter_value : pyfloat) : result (list Q) :=
  if negb (String.eqb median_filter_type "none") && float_pos median_filter_value
  then
    if String.eqb median_filter_type "pixel"
    then
      n ← float_int median_filter_value;
      let window_length := Z.max 3 n in
      Ok (savgol_filter_fixed savgol_filter flux window_length 3)
    else if String.eqb median_filter_type "angstrom"
    then savgol_filter_wavelength_float wave flux median_filter_value 3
    else Ok flux
  else Ok flux.

Definition flatten_spectrum (wave flux : list Q) (apodize_percent : pyfloat)
    (median_filter_type : string) (median_filter_value : pyfloat) (num_points : Z)
    : result Flattened :=
  flux ← apodize_step flux apodize_percent;
  flux ← smoothing_step wave flux median_filter_type median_filter_value;
  '(log_wave, log_flux) ← call_log_rebin wave flux [("num_points"%string, num_points)];
  '(flat_flux, continuum) ← fit_continuum log_flux 13 0;
  Ok {| fl_wave := log_wave;
        fl_flux := flat_flux;
        fl_continuum := continuum;
        fl_original_wave := wave;
        fl_original_flux := flux |}.

End FlattenSpectrum.

(** *** Clipping, padding and restoring *)

(** [v[keep]] with a boolean mask, which must be as long as [v]. *)
Definition np_mask {T} (keep : list bool) (v : list T) : result (list T) :=
  if (length v =? length keep)%nat then Ok (mask_select keep v) else Raise IndexError.

(** [(w >= a) & (w <= b)] at one sample. *)
Definition in_band (a b x : Q) : bool := Qle_bool a x && Qle_bool x b.

(** [keep &= ~((w >= a) & (w <= b))] *)
Definition drop_band (w : list Q) (keep : list bool) (a b : Q) : list bool :=
  zip_with andb keep (map (fun x => negb (in_band a b x)) w).

(** [return w[keep], f[keep]] *)
Definition select_both (keep : list bool) (w f : list Q) : result (list Q * list Q) :=
  w' ← np_mask keep w; f' ← np_mask keep f; Ok (w', f').

Definition clip_aband (w f : list Q) (band : Q * Q) : result (list Q * list Q) :=
  let '(a, b) := band in
  let keep := map (fun x => negb (in_band a b x)) w in
  select_both keep w f.

Definition default_band : Q * Q := (7575, 7675).

Definition clip_sky_lines (w f : list Q) (width : Q) (lines : list Q)
    : result (list Q * list Q) :=
  let keep :=
    foldl (fun keep l => drop_band w keep (l - width) (l + width))
          (replicate (length w) true) lines in
  select_both keep w f.

Definition default_sky_lines : list Q := [5577; 63002 # 10; 6364].

(** The rest wavelengths of the host-galaxy lines. *)
Definition host_rest_lines : list Q :=
  [37273 # 10; 48613 # 10; 49589 # 10; 50068 # 10;
   65481 # 10; 65628 # 10; 65836 # 10; 67164 # 10; 67308 # 10].

Definition clip_host_emission_lines (w f : list Q) (z width : Q)
    : result (list Q * list Q) :=
  if Qltb z 0 then Ok (w, f)
  else
    let keep :=
      foldl (fun keep l => let ll := l * (1 + z) in drop_band w keep (ll - width) (ll + width))
            (replicate (length w) true) host_rest_lines in
    select_both keep w f.

Section WavelengthMask.

(** How an f-string prints a float. *)
Variable float_str : Q -> string.

(** The loop [for a, b in ranges] of [apply_wavelength_mask]. *)
Fixpoint mask_ranges (w : list Q) (keep : list bool) (ranges : list (Q * Q))
    : result (list bool) :=
  match ranges with
  | [] => Ok keep
  | (a, b) :: ranges' =>
      if Qltb b a
      then Raise (ValueError ("mask (" +:+ float_str a +:+ "," +:+ float_str b
                                +:+ ") has b < a"))
      else mask_ranges w (drop_band w keep a b) ranges'
  end.

Definition apply_wavelength_mask (w f : list Q) (ranges : list (Q * Q))
    : result (list Q * list Q) :=
  keep ← mask_ranges w (replicate (length w) true) ranges;
  select_both keep w f.

End WavelengthMask.

(** [pad_to_NW(arr, NW)].  The slice assignment [out[:arr.size] = arr]
    cannot take an array longer than [out], except that NumPy broadcasts a
    single element (here into the empty [out]). *)
Definition pad_to_NW (arr : list Q) (NW : nat) : result (list Q) :=
  if (length arr =? NW)%nat then Ok arr
  else if (length arr <? NW)%nat then Ok (arr ++ replicate (NW - length arr) 0)
  else if (length arr =? 1)%nat then Ok (replicate NW 0)
  else Raise (ValueError ("could not broadcast input array from shape ("
                            +:+ pretty (length arr) +:+ ",) into shape ("
                            +:+ pretty NW +:+ ",)")).

(** An elementwise operation on two one-dimensional arrays, with NumPy's
    broadcasting of an array of length 1. *)
Definition broadcast2 (op : Q -> Q -> Q) (a b : list Q) : result (list Q) :=
  if (length a =? length b)%nat then Ok (zip_with op a b)
  else
    match a, b with
    | [x], _ => Ok (map (op x) b)
    | _, [y] => Ok (map (fun x => op x y) a)
    | _, _ =>
        Raise (ValueError ("operands could not be broadcast together with shapes ("
                             +:+ pretty (length a) +:+ ",) (" +:+ pretty (length b) +:+ ",) "))
    end.

(** [(flat_tpl + 1.0) * cont] *)
Definition unflatten_on_loggrid (flat_tpl cont : list Q) : result (list Q) :=
  broadcast2 Qmult (map (fun x => x + 1) flat_tpl) cont.

Section PrepTemplate.

Variable NW : nat.
Variables W0 DWLOG : Q.
Variables np_log np_exp : Q -> Q.

Definition prep_template (tpl_wave flux_tpl : list Q) (skip_if_rebinned : bool)
    : result (list Q) :=
  if skip_if_rebinned && (length flux_tpl =? NW)%nat then Ok flux_tpl
  else
    '(_, rebinned_flux) ← log_rebin NW W0 DWLOG np_log np_exp tpl_wave flux_tpl;
    Ok rebinned_flux.

End PrepTemplate.

(** *** The legacy names and the automatic width *)

Section Legacy.

Variable savgol_filter : list Q -> Z -> Z -> option (list Q).

Definition medfilt (data : list Q) (medlen : Z) : list Q :=
  let window_length := Z.max 3 medlen in
  savgol_filter_fixed savgol_filter data window_length 3.

(** [maxdup] is not used. *)
Definition medwfilt (wave data : list Q) (fwmed : Q) (maxdup : Z) : result (list Q) :=
  savgol_filter_wavelength savgol_filter wave data fwmed 3.

End Legacy.

(** [np.clip(x, lo, hi)] *)
Definition np_clip (x lo hi : Q) : Q := Qmin (Qmax x lo) hi.

Section AutoSigma.

(** [np.median] and [np.std] of a non-empty array. *)
Variables np_median np_std : list Q -> Q.

(** [calculate_auto_gaussian_sigma(flux, wave_grid_size)]; [None] for the
    size is the default. *)
Definition calculate_auto_gaussian_sigma (flux : list Q) (wave_grid_size : option Z) : Q :=
  let wave_grid_size := default (Z.of_nat (length flux)) wave_grid_size in
  let base_sigma := inject_Z wave_grid_size / 25 in
  let valid_flux := List.filter (Qltb 0) flux in
  let base_sigma :=
    if (10 <? length valid_flux)%nat then
      let flux_median := np_median valid_flux in
      let flux_std := np_std valid_flux in
      let noise_ratio := if Qltb 0 flux_median then flux_std / flux_median else 1 in
      let noise_factor := 1 + (2 # 10) * (noise_ratio - (1 # 10)) in
      let noise_factor := np_clip noise_factor (7 # 10) (15 # 10) in
      base_sigma * noise_factor
    else base_sigma in
  np_clip base_sigma 10 100.

End AutoSigma.

End Preprocessing.

(** ** interfaces/cli/identify.py *)

Module Identify.

Local Open Scope string_scope.

(** Appending printed lines ([++] is on strings here). *)
Local Notation "a +++ b" := (@app _ a b) (at level 60, right associativity).

(** The level of a logging call. *)
Inductive level := DEBUG | INFO | WARNING.

(** Where a line goes: [print] writes to stdout or, with
    [file=sys.stderr], to stderr; a call of a logger hands a record to the
    logging system, whose handlers and thresholds are configured outside
    this file. *)
Inductive stream := Stdout | Stderr | Logger (l : level).

(** One [print] or logging call: where it goes and the text (without the
    newline that [print] adds; a progress update adds none). *)
Definition event : Type := stream * string.

(** The class of an exception as the handlers of [main] tell it apart:
    [FileNotFoundError]; another [Exception]; or a [BaseException] that is
    no [Exception], such as [KeyboardInterrupt] and [SystemExit]. *)
Inductive ExcClass := IsFileNotFoundError | IsException | IsBaseException.

(** An exception as the handlers of [main] see it: its class and
    [str(e)]. *)
Record Raised := mkRaised {
  exc_class : ExcClass;
  str_e : string
}.

Definition is_file_not_found (e : Raised) : bool :=
  match exc_class e with IsFileNotFoundError => true | _ => false end.

Inductive outcome (A : Type) :=
| Returns (a : A)
| Raises (e : Raised).
Arguments Returns {A} a.
Arguments Raises {A} e.

(** [find_templates_directory_or_raise()] behind its import: a directory;
    [ImportError] or [FileNotFoundError], which the callers catch together;
    or another exception. *)
Inductive Finder :=
| Found (dir : string)
| NotFound
| FinderError (e : Raised).

(** The fields of [SNIDResult] that [main] reads; the two numbers come as
    [f"{redshift:.4f}"] and [f"{rlap:.1f}"]; [error_message] is [None] when
    the attribute is missing. *)
Record SNIDResult := mkSNIDResult {
  success : bool;
  error_message : option string;
  consensus_type : string;
  redshift_4f : string;
  rlap_1f : string
}.

(** [create_unified_formatter(...)] behind its import, and
    [get_display_summary()] on what it returns.  The first two failures
    happen before the rule line is printed, the last two after it. *)
Inductive Formatter :=
| Summary (text : string)
| FormatterImportError
| FormatterRaises (e : Raised)
| SummaryImportError
| SummaryRaises (e : Raised).

(** The command-line arguments that [main] branches on, prints or logs;
    the three numbers as the f-strings format them. *)
Record Args := mkArgs {
  spectrum_path : string;
  templates_dir : option string;
  output_dir : string;
  verbose : bool;
  minimal : bool;
  complete : bool;
  zmin : string;
  zmax : string;
  rlapmin : string
}.

(** What the world answers during one run of [main].  An exception comes
    from one of the calls [main] makes; an interrupt between two calls is
    not modelled. *)
Record World := mkWorld {
  w_logging : option Raised;          (* importing and configuring the logging *)
  w_exists : string -> bool;          (* os.path.exists *)
  w_finder : Finder;
  w_preprocess : option Raised;       (* read_spectrum and preprocess_spectrum *)
  w_progress : list string;           (* what progress_indicator.update printed during the
                                         analysis, after the carriage return and the glass *)
  w_analysis : outcome (option SNIDResult);  (* run_snid_analysis; None for a falsy result *)
  w_total_templates : nat;            (* progress_indicator.total_templates at the end *)
  w_elapsed : string;                 (* the formatted elapsed time *)
  w_saving : option Raised;           (* output_dir.mkdir and the merge of processed_spectrum *)
  w_save_records : list (level * string);
                                      (* the records the handlers inside the try of
                                         _save_spectrum_outputs logged *)
  w_save_raised : option Raised;      (* what left the body of that try *)
  w_formatter : Formatter;
  w_traceback : string                (* what traceback.print_exc() writes *)
}.

Definition carriage_return : string := String (ascii_of_nat 13) "".

Definition newline : string := String (ascii_of_nat 10) "".

(** [CLIProgressIndicator.update] prints one of two lines, both without a
    newline and both after a carriage return and the magnifying glass;
    which one, and whether any, depends on the clock. *)
Definition update (progress_line : string) : event :=
  (Stdout, carriage_return ++ "🔍 " ++ progress_line).

(** [CLIProgressIndicator.finish(message)] *)
Definition finish (total_templates : nat) (elapsed : string) (message : string) : event :=
  if (0 <? total_templates)%nat
  then (Stdout, carriage_return ++ "[SUCCESS] " ++ message ++ " (" ++ pretty total_templates
                  ++ " templates in " ++ elapsed ++ ")")
  else (Stdout, carriage_return ++ "[SUCCESS] " ++ message).

Definition _validate_and_fix_templates_dir
    (exists_ : string -> bool) (finder : Finder) (templates_dir : option string)
    : list event * outcome string :=
  match templates_dir with
  | None =>
      match finder with
      | Found auto_found_dir =>
          ([(Stdout, "[SUCCESS] Auto-discovered templates at: " ++ auto_found_dir)],
           Returns auto_found_dir)
      | NotFound =>
          ([], Raises {| exc_class := IsFileNotFoundError;
                         str_e := "Could not auto-discover templates directory. Please provide templates_dir explicitly." |})
      | FinderError e =>
          if is_file_not_found e
          then ([], Raises {| exc_class := IsFileNotFoundError;
                              str_e := "Could not auto-discover templates directory. Please provide templates_dir explicitly." |})
          else ([], Raises e)
      end
  | Some templates_dir =>
      if exists_ templates_dir then ([], Returns templates_dir)
      else
        match finder with
        | Found auto_found_dir =>
            ([(Stdout, "⚠️  Templates directory '" ++ templates_dir ++ "' not found.");
              (Stdout, "✅ Auto-discovered templates at: " ++ auto_found_dir)],
             Returns auto_found_dir)
        | NotFound =>
            ([], Raises {| exc_class := IsFileNotFoundError;
                           str_e := "Templates directory not found: " ++ templates_dir |})
        | FinderError e =>
            if is_file_not_found e
            then ([], Raises {| exc_class := IsFileNotFoundError;
                                str_e := "Templates directory not found: " ++ templates_dir |})
            else ([], Raises e)
        end
  end.

(** [_save_spectrum_outputs]: its body runs in a [try] whose handler,
    [except Exception], logs a warning; the handlers inside the body log
    their own records; nothing is printed. *)
Definition _save_spectrum_outputs (w : World) : list event * outcome unit :=
  let records := map (fun r : level * string => (Logger r.1, r.2)) (w_save_records w) in
  match w_save_raised w with
  | None => (records, Returns tt)
  | Some e =>
      match exc_class e with
      | IsBaseException => (records, Raises e)
      | _ => (records +++ [(Logger WARNING, "Failed to save outputs: " ++ str_e e)],
              Returns tt)
      end
  end.

(** The two handlers that close [main]: [except FileNotFoundError] and
    [except Exception]; any other exception leaves [main]. *)
Definition handle (args : Args) (w : World) (out : list event) (e : Raised)
    : outcome Z * list event :=
  match exc_class e with
  | IsFileNotFoundError =>
      (Returns 1%Z, out +++ [(Stderr, "[ERROR] File not found - " ++ str_e e)])
  | IsException =>
      (Returns 1%Z, out +++ [(Stderr, "[ERROR] Error during SNID identification: " ++ str_e e)]
                      +++ (if verbose args then [(Stderr, w_traceback w)] else []))
  | IsBaseException => (Raises e, out)
  end.

Definition rule80 : string := String.concat "" (replicate 80 "=").

Section Main.

(** [pathlib.Path(p).stem] *)
Variable path_stem : string -> string.

Definition _extract_spectrum_name (spectrum_path : string) : string :=
  path_stem spectrum_path.

(** [main(args)]: the exit code, or the exception that leaves [main], and
    what was printed and logged by this file, in order. *)
Definition main (args : Args) (w : World) : outcome Z * list event :=
  match w_logging w with
  | Some e => handle args w [] e
  | None =>
  if negb (w_exists w (spectrum_path args))
  then (Returns 1%Z, [(Stderr, "[ERROR] Spectrum file not found: " ++ spectrum_path args)])
  else
  match _validate_and_fix_templates_dir (w_exists w) (w_finder w) (templates_dir args) with
  | (out, Raises e) =>
      if is_file_not_found e
      then (Returns 1%Z, out +++ [(Stderr, "[ERROR] " ++ str_e e)])
      else handle args w out e
  | (out, Returns templates_dir) =>
  let out :=
    if verbose args
    then out +++ [(Logger INFO, "Starting SNID analysis for: " ++ spectrum_path args);
                  (Logger INFO, "Templates directory: " ++ templates_dir);
                  (Logger INFO, "Redshift range: " ++ zmin args ++ " to " ++ zmax args);
                  (Logger INFO, "RLAP threshold: " ++ rlapmin args)]
    else out in
  let spectrum_name := _extract_spectrum_name (spectrum_path args) in
  match w_preprocess w with
  | Some e => handle args w out e
  | None =>
  let out := if verbose args then out
             else out +++ [(Stdout, "🔍 Starting SNID analysis...")]
                      +++ map update (w_progress w) in
  match w_analysis w with
  | Raises e => handle args w out e
  | Returns result =>
  let ok := match result with Some r => success r | None => false end in
  let out :=
    if verbose args then out
    else out +++ [finish (w_total_templates w) (w_elapsed w)
                   (if ok then "Analysis complete" else "Analysis failed");
                 (Stdout, "")] in
  match result with
  | None =>
      (Returns 1%Z,
       out +++ [(Stdout, newline ++ "[ERROR] SNID analysis failed for " ++ spectrum_name)])
  | Some r =>
  if negb (success r)
  then (Returns 1%Z,
        out +++ [(Stdout, newline ++ "[ERROR] SNID analysis failed for " ++ spectrum_name)]
            +++ match error_message r with
                | Some msg => [(Stdout, "   Error: " ++ msg)]
                | None => []
                end)
  else
  match w_saving w with
  | Some e => handle args w out e
  | None =>
  match _save_spectrum_outputs w with
  | (records, Raises e) => handle args w (out +++ records) e
  | (records, Returns _) =>
  let out := out +++ records in
  if success r
  then
    let fallback :=
      [(Stdout, newline ++ "📄 " ++ spectrum_name ++ ": " ++ consensus_type r
                  ++ " z=" ++ redshift_4f r ++ " RLAP=" ++ rlap_1f r);
       (Stdout, String.concat "" (replicate 80 "-"))] in
    let saved :=
      if negb (minimal args)
      then (Stdout, newline ++ "📁 Results saved to: " ++ output_dir args ++ "/")
           :: (if complete args
               then [(Stdout, "   📊 3D Plots: Static PNG files with optimized viewing angle");
                     (Stdout, "   📈 Top 5 templates: Sorted by RLAP (highest quality first)")]
               else [])
      else [(Stdout, "📁 Main result file saved to: " ++ output_dir args ++ "/")] in
    match w_formatter w with
    | FormatterRaises e => handle args w out e
    | SummaryRaises e => handle args w (out +++ [(Stdout, newline ++ rule80)]) e
    | Summary text =>
        (Returns 0%Z,
         out +++ [(Stdout, newline ++ rule80); (Stdout, text); (Stdout, rule80)] +++ saved)
    | FormatterImportError => (Returns 0%Z, out +++ fallback +++ saved)
    | SummaryImportError =>
        (Returns 0%Z, out +++ [(Stdout, newline ++ rule80)] +++ fallback +++ saved)
    end
  else (Returns 1%Z,
        out +++ [(Stdout, newline ++ "[ERROR] " ++ spectrum_name ++ ": No good matches found")])
  end end end end end end end.

End Main.

End Identify.

(** ** Sentences of the specification, and inputs to try them on *)

Module Spec.
Import Clustering.

(** P10 as the specification words it: the winner has the largest
    penalized score, among equal scores the larger size wins, and among
    equal sizes the type name that comes first. *)
Definition best_cluster_rule (cands : list Candidate) (use_rlap_cos : bool) : Prop :=
  exists best a,
    find_winning_cluster_top5_method cands use_rlap_cos = Some (best, a) /\
    forall sc, sc ∈ all_cluster_scores a ->
      let w := winning_cluster_info a in
      penalized_score sc <= penalized_score w /\
      (penalized_score sc == penalized_score w ->
       (cluster_size sc <= cluster_size w)%nat /\
       (cluster_size sc = cluster_size w ->
        String.leb (cluster_type w) (cluster_type sc) = true)).

(** The penalty of the cluster selection, by the number of members. *)
Definition top5_penalty (size : nat) : Q :=
  if (5 <=? size)%nat then 1 else (95 # 100) ^ (5 - Z.of_nat size).

(** The subtype score as the specification words it: the cluster rule,
    applied to the members of one subtype. *)
Definition subtype_score_as_specified (members : list Member) : Q :=
  np_mean (take 5 (sort_desc id (map metric_value members)))
  * top5_penalty (length members).

(** The four-way redshift quality of the specification. *)
Definition redshift_quality_rule (span q : Q) : RedshiftQuality :=
  if Qle_bool span q then tight
  else if Qle_bool span (q * 2) then moderate
  else if Qle_bool span (q * 4) then loose
  else very_loose.

Definition match_of (ty : string) (z metric : Q) : Match :=
  {| template := {| tpl_type := Some ty; tpl_subtype := Some "norm"%string |};
     redshift := z;
     rlap := Some metric;
     rlap_cos := Some metric |}.

Definition candidate_of (ty : string) (id : nat) (metrics : list Q) : Candidate :=
  {| cand_type := Some ty;
     cand_cluster_id := Some id;
     cand_matches := map (match_of ty (1 # 50)) metrics;
     cand_size := length metrics;
     cand_redshift_span := 0;
     cand_redshift_quality := tight;
     cand_top_5_values := [];
     cand_top_5_mean := 0;
     cand_penalty_factor := 1;
     cand_penalized_score := 0;
     cand_composite_score := 0 |}.

(** Two candidates of equal score; the second is the larger one. *)
Definition tied_candidates : list Candidate :=
  [ candidate_of "II" 0 [10; 10; 10; 10; 10];
    candidate_of "Ia" 0 [10; 10; 10; 10; 10; 10] ].

(** A subtype with a single member of metric 10. *)
Definition lone_member : list Member :=
  [ {| subtype := "norm"; metric_value := 10; cluster_membership := 1 |} ].

(** A cluster of six matches: one of subtype 91T with metric 10 and five of
    subtype norm with metric 3, all fully in component 0. *)
Definition subtype_match (sub : string) (metric : Q) : Match :=
  {| template := {| tpl_type := Some "Ia"%string; tpl_subtype := Some sub |};
     redshift := 1 # 50;
     rlap := Some metric;
     rlap_cos := Some metric |}.

Definition mixed_cluster : list Match :=
  subtype_match "91T" 10 :: replicate 5 (subtype_match "norm" 3).

Definition mixed_gamma : list (list Q) := replicate 6 [1].

(** Modelled from the spec: [get_best_metric_value] of
    [snid_sage.shared.utils.math_utils], which is not among the sources;
    the selected metric is "rlap_cos if present, else rlap". *)
Definition get_best_metric_value (m : Match) : Q :=
  default (default 0 (rlap m)) (rlap_cos m).

(** Two matches of one type, a tenth apart in redshift. *)
Definition wide_pair : list Match :=
  [ match_of "Ia" 0 5; match_of "Ia" (1 # 10) 5 ].


(** *** Preprocessing *)

Import Preprocessing.

(** The default grid: 1024 bins from 2500 Å, and a rational close to
    ln(10000 / 2500) / 1024. *)
Definition default_NW : nat := 1024.
Definition default_W0 : Q := 2500.
Definition default_DWLOG : Q := 1353803 # 1000000000.

(** SciPy's [savgol_filter] in exact arithmetic, for an odd window within
    the data and [mode="interp"]: every output sample is the value of the
    least-squares polynomial of degree [polyorder] through a window of the
    data, the centred window in the interior and the first or last window
    near the ends.  The fit is the orthogonal projection of the window on
    the span of the monomials [1, k, ..., k^polyorder] sampled at
    [k = 0 .. window - 1]; fractions are kept in lowest terms.  Arguments
    SciPy rejects, and even windows, give [None]. *)
Definition dot (u v : list Q) : Q := Qred (Qsum (zip_with Qmult u v)).

Definition axpy (a : Q) (x y : list Q) : list Q :=
  zip_with (fun xi yi => Qred (a * xi + yi)) x y.

(** Remove from [v] its components along the orthogonal vectors [qs]. *)
Definition orthogonalize (qs : list (list Q)) (v : list Q) : list Q :=
  foldl (fun r q => axpy (- (dot v q / dot q q)) q r) v qs.

Definition monomial (w : nat) (d : nat) : list Q :=
  map (fun k => inject_Z (Z.of_nat k) ^ Z.of_nat d) (seq 0 w).

Definition orthogonal_basis (w p : nat) : list (list Q) :=
  foldl (fun qs d => qs ++ [orthogonalize qs (monomial w d)]) [] (seq 0 (S p)).

(** The fitted values at the [w] points of the window [ys]. *)
Definition polyfit_values (p : nat) (ys : list Q) : list Q :=
  foldl (fun r q => axpy (dot ys q / dot q q) q r)
        (replicate (length ys) 0)
        (orthogonal_basis (length ys) p).

Definition savgol_interp (x : list Q) (window_length polyorder : Z) : option (list Q) :=
  let n := length x in
  let w := Z.to_nat window_length in
  let p := Z.to_nat polyorder in
  if ((window_length <? 1) || (polyorder <? 0) || (window_length <=? polyorder)
      || (Z.of_nat n <? window_length) || (window_length mod 2 =? 0))%Z
  then None
  else
    let halflen := (w / 2)%nat in
    Some (map (fun j =>
                 if (j <? halflen)%nat
                 then default 0 (polyfit_values p (take w x) !! j)
                 else if (n - halflen <=? j)%nat
                 then default 0 (polyfit_values p (drop (n - w) x) !! (j - (n - w))%nat)
                 else default 0 (polyfit_values p (take w (drop (j - halflen) x)) !! halflen))
              (seq 0 n)).

(** "If the window exceeds data length, the step is a no-op", for the
    filter [f] in the place of SciPy's. *)
Definition savgol_noop_rule (f : list Q -> Z -> Z -> option (list Q)) : Prop :=
  forall data window_length polyorder,
    (Z.of_nat (length data) < window_length)%Z ->
    savgol_filter_fixed f data window_length polyorder = data.

(** A spike on five samples. *)
Definition spike : list Q := [0; 0; 1; 0; 0].

(** The log coordinate of a positive wavelength: [np.log(s / w0) / dwlog + 1]. *)
Definition log_coord (W0 DWLOG : Q) (np_log : Q -> Q) (s : Q) : Q :=
  np_log (s / W0) / DWLOG + 1.

(** Bin [j] (counted from 0) collects the log coordinates from [j + 1] to
    [j + 2]; it lies outside the coverage when the last pixel edge is not
    above its lower end or the first pixel edge not below its upper end. *)
Definition outside_coverage (W0 DWLOG : Q) (np_log : Q -> Q)
    (first_edge last_edge : Q) (j : nat) : Prop :=
  log_coord W0 DWLOG np_log last_edge <= inject_Z (Z.of_nat j) + 1 \/
  inject_Z (Z.of_nat j) + 2 <= log_coord W0 DWLOG np_log first_edge.

(** The accumulator has its [NW] bins, and those outside the coverage
    from [e0] to [eN] hold 0. *)
Definition zero_outside_coverage (NW : nat) (W0 DWLOG : Q) (np_log : Q -> Q)
    (e0 eN : Q) (fdest : list Q) : Prop :=
  length fdest = NW /\
  forall j, outside_coverage W0 DWLOG np_log e0 eN j ->
            (j < NW)%nat -> fdest !! j = Some 0.

(** "Outside the input coverage, output bins are exactly 0", for every
    increasing wavelength array with at least two samples. *)
Definition log_rebin_rule (NW : nat) (W0 DWLOG : Q) (np_log np_exp : Q -> Q) : Prop :=
  forall wave fsrc : list Q,
    StronglySorted Qlt wave ->
    (2 <= length wave)%nat ->
    length fsrc = length wave ->
    exists log_wave fdest s,
      log_rebin NW W0 DWLOG np_log np_exp wave fsrc = Ok (log_wave, fdest) /\
      length fdest = NW /\
      pixel_edges wave = Ok s /\
      forall j x,
        outside_coverage W0 DWLOG np_log (default 0 (head s)) (default 0 (last s)) j ->
        fdest !! j = Some x -> x == 0.

(** The usable range [(l1, l2)] that [fit_continuum_spline] is left with
    after chopping the ends. *)
Definition usable_range (flux : list Q) : option (Z * Z) :=
  match chop_left flux (length flux - 1) 0 0,
        chop_right flux (length flux - 2) (Z.of_nat (length flux) - 1) 0 with
  | Ok l1, Ok l2 => Some (l1, l2)
  | _, _ => None
  end.

(** The number of knots it places in that range. *)
Definition knots_placed (np_log10 : Q -> Q) (flux : list Q) (knotnum izoff : Z)
    : option nat :=
  match usable_range flux with
  | Some (l1, l2) =>
      let kwidth := (Z.of_nat (length flux) / knotnum)%Z in
      let istart := if (0 <? izoff)%Z then (izoff mod kwidth - kwidth)%Z else 0%Z in
      match place_knots np_log10 flux l1 l2 istart kwidth with
      | Ok knots => Some (length (xknot knots))
      | Raise _ => None
      end
  | None => None
  end.

(** The four cases in which no continuum is fitted. *)
Definition no_continuum_case (np_log10 : Q -> Q) (flux : list Q) (knotnum izoff : Z)
    : Prop :=
  (Z.of_nat (length flux) < 10)%Z \/
  (knotnum < 3)%Z \/
  (exists l1 l2, usable_range flux = Some (l1, l2) /\ (l2 - l1 < 3 * knotnum)%Z) \/
  (exists nk, knots_placed np_log10 flux knotnum izoff = Some nk /\ (nk < 3)%nat).

(** "flatten_spectrum raises a TypeError", for every call. *)
Definition flatten_raises_TypeError_rule
    (cos_pi : Q -> Q) (savgol_filter : list Q -> Z -> Z -> option (list Q))
    (NW : nat) (W0 DWLOG : Q) (np_log np_exp np_log10 pow10 : Q -> Q) : Prop :=
  forall wave flux apodize_percent median_filter_type median_filter_value num_points,
    flatten_spectrum cos_pi savgol_filter NW W0 DWLOG np_log np_exp np_log10 pow10
      wave flux apodize_percent median_filter_type median_filter_value num_points
    = Raise TypeError.

(** The exception of [int()] on the apodization index
    [len(flux) * apodize_percent / 100.0], if there is one: the index is
    computed only for a percentage above 0, and is not an integer when the
    percentage is infinite or the product overflows. *)
Definition apodize_index_exception (flux : list Q) (apodize_percent : pyfloat)
    : option exn :=
  match apodize_percent with
  | FPosInf =>
      if (length flux =? 0)%nat
      then Some (ValueError "cannot convert float NaN to integer")
      else Some OverflowError
  | FFinite q =>
      if Qltb 0 q && Qle_bool float_overflow (inject_Z (Z.of_nat (length flux)) * q)
      then Some OverflowError else None
  | FNegInf | FNaN => None
  end.

(** The exception of the Angstrom smoothing, if there is one: the shapes
    differ; or, for a FWHM above 0 or NaN, there are fewer than two
    wavelengths or the FWHM is NaN ([ValueError]), or the window in pixels
    is infinite because the mean spacing is zero, the FWHM is infinite or
    the quotient overflows ([OverflowError]). *)
Definition angstrom_exception (wave flux : list Q) (fwhm : pyfloat) : option exn :=
  if negb (length flux =? length wave)%nat
  then Some (ValueError "data and wave must have the same shape")
  else
    match fwhm with
    | FNegInf => None
    | FNaN => Some (ValueError "cannot convert float NaN to integer")
    | FPosInf =>
        if (length wave <? 2)%nat
        then Some (ValueError "cannot convert float NaN to integer")
        else Some OverflowError
    | FFinite q =>
        if Qle_bool q 0 then None
        else if (length wave <? 2)%nat
        then Some (ValueError "cannot convert float NaN to integer")
        else
          let avg_dwl := np_mean (np_diff wave) in
          if Qeq_bool avg_dwl 0
             || Qle_bool float_overflow (Qabs (2 * (q / (235 # 100)) / avg_dwl))
          then Some OverflowError else None
    end.

(** The exception of the smoothing step, if there is one; the step runs
    for a type other than ["none"] and a value above 0. *)
Definition smoothing_exception (wave flux : list Q) (median_filter_type : string)
    (median_filter_value : pyfloat) : option exn :=
  if negb (String.eqb median_filter_type "none") && float_pos median_filter_value then
    if String.eqb median_filter_type "pixel" then
      match median_filter_value with
      | FFinite _ => None
      | _ => Some OverflowError
      end
    else if String.eqb median_filter_type "angstrom"
    then angstrom_exception wave flux median_filter_value
    else None
  else None.

(** What [flatten_spectrum] raises: the exception of the first step that
    has one, and the [TypeError] of the [log_rebin] call otherwise. *)
Definition flatten_exception (wave flux : list Q) (apodize_percent : pyfloat)
    (median_filter_type : string) (median_filter_value : pyfloat) : exn :=
  match apodize_index_exception flux apodize_percent with
  | Some e => e
  | None =>
      match smoothing_exception wave flux median_filter_type median_filter_value with
      | Some e => e
      | None => TypeError
      end
  end.


(** *** The identify command *)

Import Identify.

Definition sample_args : Args :=
  {| spectrum_path := "data/sn2024abc.dat";
     templates_dir := Some "templates"%string;
     output_dir := "out";
     verbose := false;
     minimal := false;
     complete := false;
     zmin := "-0.01";
     zmax := "1.0";
     rlapmin := "5.0" |}.

Definition failed_result : SNIDResult :=
  {| success := false;
     error_message := Some "No good matches"%string;
     consensus_type := "";
     redshift_4f := "";
     rlap_1f := "" |}.

(** A run in which everything is found and the analysis returns a result
    that is not a success. *)
Definition failing_world : World :=
  {| w_logging := None;
     w_exists := fun _ => true;
     w_finder := NotFound;
     w_preprocess := None;
     w_progress := [];
     w_analysis := Returns (Some failed_result);
     w_total_templates := 0;
     w_elapsed := "0.0s";
     w_saving := None;
     w_save_records := [];
     w_save_raised := None;
     w_formatter := FormatterImportError;
     w_traceback := "" |}.

Definition good_result : SNIDResult :=
  {| success := true;
     error_message := None;
     consensus_type := "Ia";
     redshift_4f := "0.0123";
     rlap_1f := "12.3" |}.

(** A run interrupted from the keyboard during the analysis, after one
    progress update. *)
Definition interrupted_world : World :=
  {| w_logging := None;
     w_exists := fun _ => true;
     w_finder := NotFound;
     w_preprocess := None;
     w_progress := ["Loaded 120 templates"];
     w_analysis := Raises {| exc_class := IsBaseException; str_e := "" |};
     w_total_templates := 120;
     w_elapsed := "0.0s";
     w_saving := None;
     w_save_records := [];
     w_save_raised := None;
     w_formatter := FormatterImportError;
     w_traceback := "" |}.

(** A successful run in which [get_display_summary()] raises. *)
Definition summary_failing_world : World :=
  {| w_logging := None;
     w_exists := fun _ => true;
     w_finder := NotFound;
     w_preprocess := None;
     w_progress := [];
     w_analysis := Returns (Some good_result);
     w_total_templates := 0;
     w_elapsed := "0.0s";
     w_saving := None;
     w_save_records := [];
     w_save_raised := Some {| exc_class := IsException; str_e := "disk full" |};
     w_formatter := SummaryRaises {| exc_class := IsException; str_e := "no summary" |};
     w_traceback := "" |}.

(** "Errors go to stderr prefixed [ERROR]": whenever the exit code is 1,
    some line is written to stderr, and every line that carries [ERROR] is
    written to stderr and starts with it. *)
Definition has_prefix (p s : string) : bool := String.prefix p s.

Fixpoint contains (p s : string) : bool :=
  String.prefix p s ||
  match s with
  | EmptyString => false
  | String _ s' => contains p s'
  end.

Definition errors_on_stderr_rule (path_stem : string -> string) : Prop :=
  forall args w,
    (main path_stem args w).1 = Returns 1%Z ->
    (exists text, (Stderr, text) ∈ (main path_stem args w).2) /\
    forall st text,
      (st, text) ∈ (main path_stem args w).2 ->
      contains "[ERROR]" text = true ->
      st = Stderr /\ has_prefix "[ERROR]" text = true.


(** *** Clipping *)

(** The sample [x] lies in none of the ranges. *)
Definition outside_all (ranges : list (Q * Q)) (x : Q) : bool :=
  forallb (fun r => negb (in_band r.1 r.2 x)) ranges.

(** The (wavelength, flux) pairs whose wavelength lies in none of the
    ranges, in their order. *)
Definition kept_pairs (ranges : list (Q * Q)) (w f : list Q) : list (Q * Q) :=
  List.filter (fun p => outside_all ranges p.1) (zip w f).

(** The ranges of half-width [width] around the lines. *)
Definition line_ranges (width : Q) (lines : list Q) : list (Q * Q) :=
  map (fun l => (l - width, l + width)) lines.

(** *** Apodizing *)

(** The number of samples [apodize] tapers at each end:
    [min(int(round(valid_data_len * percent / 100)), int(valid_data_len / 2))]. *)
Definition taper_width (n1 n2 : Z) (percent : Q) : Z :=
  let valid_data_len := (n2 - n1 + 1)%Z in
  Z.min (py_round (inject_Z valid_data_len * percent / 100))
        (py_int (inject_Z valid_data_len / 2)).

(** The ramp of that many samples. *)
Definition taper_ramp (cos_pi : Q -> Q) (ns : Z) : list Q :=
  if (ns =? 1)%Z then [0] else cosine_ramp cos_pi ns.

(** *** Comparing two runs *)

(** Two runs that raise the same exception, or return related values. *)
Definition same_outcome {A} (R : A -> A -> Prop) (r r' : result A) : Prop :=
  match r, r' with
  | Ok x, Ok x' => R x x'
  | Raise e, Raise e' => e = e'
  | _, _ => False
  end.

(** Twenty samples with a zero at either end. *)
Definition wavy : list Q :=
  [0; 1; 2; 3; 2; 1; 2; 3; 4; 3; 2; 3; 5; 4; 3; 2; 1; 2; 3; 0].

(** *** Subtype voting *)

(** The subtype a match votes for: that of its template, ["Unknown"] when
    it is missing, empty or blank. *)
Definition vote_of (m : Match) : string :=
  let subtype := default "Unknown"%string (tpl_subtype (template m)) in
  if all_space subtype then "Unknown"%string else subtype.

(** [gamma[i, k_star]], where the matrix has it. *)
Definition responsibility (gamma : list (list Q)) (k_star i : nat) : option Q :=
  gamma !! i ≫= (.!! k_star).

(** *** Grouping by type *)

(** The matches of the type [t], in their order. *)
Definition matches_of_type (t : string) (matches : list Match) : list Match :=
  List.filter (fun m => String.eqb (type_of m) t) matches.

(** *** Visualization data *)

(** The arrays are parallel, row [i] describing [matches[i]], and the type
    mapping numbers the types 0, 1, 2, ... in the order of their first
    appearance. *)
Definition viz_consistent (get_best_metric_value : Match -> Q) (d : VizData) : Prop :=
  viz_redshifts d = map redshift (viz_matches d) /\
  viz_rlaps d = map get_best_metric_value (viz_matches d) /\
  length (viz_types d) = length (viz_matches d) /\
  length (viz_type_indices d) = length (viz_matches d) /\
  length (viz_cluster_ids d) = length (viz_matches d) /\
  NoDup (map fst (viz_type_mapping d)) /\
  map snd (viz_type_mapping d) = seq 0 (length (viz_type_mapping d)) /\
  viz_current_type_index d = length (viz_type_mapping d) /\
  forall i t k, viz_types d !! i = Some t -> viz_type_indices d !! i = Some k ->
    (t, k) ∈ viz_type_mapping d.

End Spec.

(** * Part II: theorems *)

Import Clustering Preprocessing.

(** ** Numbers *)

Lemma Qltb_lt x y : Qltb x y = true <-> x < y.
Proof.
  unfold Qltb. rewrite negb_true_iff, <- not_true_iff_false, Qle_bool_iff.
  split; [apply Qnot_le_lt | apply Qlt_not_le].
Qed.

Lemma Qle_bool_false x y : Qle_bool x y = false <-> y < x.
Proof.
  rewrite <- not_true_iff_false, Qle_bool_iff.
  split; [apply Qnot_le_lt | apply Qlt_not_le].
Qed.

(** ** The stable sort *)

Section StableSortFacts.
Context {A : Type} (key : A -> Q).

Lemma insert_desc_perm x s : insert_desc key x s ≡ₚ x :: s.
Proof.
  induction s as [|y s IH]; simpl; [done|].
  destruct (Qle_bool (key y) (key x)); [done|].
  rewrite IH. apply Permutation_swap.
Qed.

Lemma sort_desc_perm l : sort_desc key l ≡ₚ l.
Proof.
  induction l as [|x l IH]; simpl; [done|].
  by rewrite insert_desc_perm, IH.
Qed.

Lemma sort_desc_length l : length (sort_desc key l) = length l.
Proof. by rewrite sort_desc_perm. Qed.

Lemma sort_desc_elem x l : x ∈ sort_desc key l <-> x ∈ l.
Proof. by rewrite sort_desc_perm. Qed.

Lemma first_max_bound l b c : first_max key l b -> c ∈ l -> key c <= key b.
Proof.
  intros (pre & post & -> & Hpre & Hpost) Hc.
  rewrite Forall_forall in Hpre, Hpost.
  apply elem_of_app in Hc as [Hc|Hc]; [by apply Qlt_le_weak, Hpre|].
  apply elem_of_cons in Hc as [->|Hc]; [apply Qle_refl | by apply Hpost].
Qed.

Lemma first_max_elem l b : first_max key l b -> b ∈ l.
Proof.
  intros (pre & post & -> & _). apply elem_of_app. right. apply elem_of_cons. by left.
Qed.

(** The head of the sorted list is the first maximum of the input. *)
Lemma sort_desc_head_first_max l b :
  head (sort_desc key l) = Some b -> first_max key l b.
Proof.
  revert b. induction l as [|x l IH]; intros b; simpl; [done|].
  destruct (sort_desc key l) as [|y s] eqn:Es; simpl.
  - intros [= <-].
    assert (l = []) as ->
      by (apply length_zero_iff_nil; by rewrite <- sort_desc_length, Es).
    exists [], []. by repeat split.
  - specialize (IH y eq_refl).
    destruct (Qle_bool (key y) (key x)) eqn:E; simpl; intros [= <-].
    + apply Qle_bool_iff in E.
      exists [], l. repeat split; [done|].
      apply Forall_forall. intros c Hc.
      eapply Qle_trans; [by eapply first_max_bound | done].
    + apply Qle_bool_false in E.
      destruct IH as (pre & post & -> & Hpre & Hpost).
      exists (x :: pre), post. repeat split; [|done].
      by constructor.
Qed.

Lemma sort_desc_head_is_Some l : l <> [] -> is_Some (head (sort_desc key l)).
Proof.
  intros Hl. destruct (sort_desc key l) eqn:E; [|by eexists].
  apply (f_equal length) in E. rewrite sort_desc_length in E.
  by destruct l.
Qed.

(** [first_max] fixes the position of the element, hence the element. *)
Lemma first_max_unique l b b' : first_max key l b -> first_max key l b' -> b = b'.
Proof.
  intros (pre & post & -> & Hpre & Hpost) (pre' & post' & E & Hpre' & Hpost').
  revert pre' E Hpre'.
  induction pre as [|p pre IH]; intros [|p' pre'] E Hpre'; simplify_eq/=.
  - done.
  - apply Forall_cons in Hpre' as [Hlt _].
    rewrite Forall_app, Forall_cons in Hpost. destruct Hpost as (_ & Hle & _).
    by apply Qlt_not_le in Hlt.
  - apply Forall_cons in Hpre as [Hlt _].
    rewrite Forall_app, Forall_cons in Hpost'. destruct Hpost' as (_ & Hle & _).
    by apply Qlt_not_le in Hlt.
  - apply Forall_cons in Hpre as [_ Hpre]. apply Forall_cons in Hpre' as [_ Hpre'].
    by eapply IH.
Qed.

(** The output is in descending order of the keys. *)
Lemma insert_desc_sorted x s :
  StronglySorted (fun a b => key b <= key a) s ->
  StronglySorted (fun a b => key b <= key a) (insert_desc key x s).
Proof.
  induction 1 as [|y s Hs IH Hy]; simpl; [repeat constructor|].
  destruct (Qle_bool (key y) (key x)) eqn:E.
  - apply Qle_bool_iff in E. constructor; [by constructor|].
    constructor; [done|].
    eapply Forall_impl; [exact Hy|]. intros c Hc. simpl in Hc. by eapply Qle_trans.
  - apply Qle_bool_false in E. constructor; [done|].
    rewrite insert_desc_perm. constructor; [by apply Qlt_le_weak | done].
Qed.

Lemma sort_desc_sorted l : StronglySorted (fun a b => key b <= key a) (sort_desc key l).
Proof.
  induction l as [|x l IH]; simpl; [constructor | by apply insert_desc_sorted].
Qed.

End StableSortFacts.

(** Sorting the keys is sorting by key and reading the keys off. *)
Lemma sort_desc_map {A} (key : A -> Q) l :
  sort_desc id (map key l) = map key (sort_desc key l).
Proof.
  induction l as [|x l IH]; simpl; [done|]. rewrite IH.
  generalize (sort_desc key l). intros s.
  induction s as [|y s IHs]; simpl; [done|].
  destruct (Qle_bool (key y) (key x)); simpl; [done|].
  by rewrite IHs.
Qed.

(** ** Cluster selection *)

Section ClusterSelection.

Lemma score_cluster_Some use_rlap_cos c sc :
  score_cluster use_rlap_cos c = Some sc ->
  let values := sort_desc id (map (get_metric use_rlap_cos) (cand_matches c)) in
  cand_matches c <> [] /\
  cluster_size sc = length (cand_matches c) /\
  top_5_values sc = take 5 values /\
  top_5_mean sc = np_mean (take 5 values) /\
  penalty_factor sc =
    (if (length (cand_matches c) <? 5)%nat
     then (95 # 100) ^ (5 - Z.of_nat (length (cand_matches c))) else 1) /\
  penalized_score sc = top_5_mean sc * penalty_factor sc /\
  cand_matches (cluster sc) = cand_matches c /\
  cand_top_5_mean (cluster sc) = top_5_mean sc /\
  cand_penalty_factor (cluster sc) = penalty_factor sc /\
  cand_penalized_score (cluster sc) = penalized_score sc.
Proof.
  intros H values. unfold score_cluster in H.
  destruct (cand_matches c) as [|m ms] eqn:Em; [done|].
  assert (length values = S (length ms)) as Hlen
    by (unfold values; by rewrite sort_desc_length, length_map).
  fold values in H. inversion H; subst sc; clear H; simpl.
  rewrite Hlen.
  destruct values as [|v vs]; [done|]. simpl.
  repeat split; done.
Qed.

Lemma score_cluster_is_Some use_rlap_cos c :
  cand_matches c <> [] -> is_Some (score_cluster use_rlap_cos c).
Proof. unfold score_cluster. destruct (cand_matches c); [done | by eexists]. Qed.

Lemma find_winning_Some cands use_rlap_cos best a :
  find_winning_cluster_top5_method cands use_rlap_cos = Some (best, a) ->
  all_cluster_scores a = sort_desc penalized_score (score_clusters use_rlap_cos cands) /\
  head (all_cluster_scores a) = Some (winning_cluster_info a) /\
  winning_cluster a = best /\
  best = cluster (winning_cluster_info a).
Proof.
  unfold find_winning_cluster_top5_method. destruct cands as [|c0 cands]; [done|].
  destruct (sort_desc _ _) as [|w rest] eqn:Es; [done|].
  by intros [= <- <-].
Qed.

Lemma find_winning_is_Some cands use_rlap_cos :
  (exists c, c ∈ cands /\ cand_matches c <> []) ->
  is_Some (find_winning_cluster_top5_method cands use_rlap_cos).
Proof.
  intros (c & Hc & Hm). unfold find_winning_cluster_top5_method.
  destruct cands as [|c0 cands]; [by apply elem_of_nil in Hc|].
  destruct (score_cluster_is_Some use_rlap_cos c Hm) as [sc Hsc].
  assert (sc ∈ score_clusters use_rlap_cos (c0 :: cands)) as Hin
    by (apply list_elem_of_omap; eauto).
  apply (sort_desc_elem penalized_score) in Hin.
  destruct (sort_desc _ _); [by apply elem_of_nil in Hin | by eexists].
Qed.

(** C6. Every candidate with matches is scored, and every entry of
    [cluster_scores] belongs to a candidate; its penalized score is the mean
    of its (up to) five largest metric values times its penalty factor,
    which is 1 from five members on and 0.95^(5 - size) below; with exactly
    five members the score is the mean itself.  The same numbers are
    written back into the candidate. *)
Theorem penalized_score_is_mean_times_penalty cands use_rlap_cos best a :
  find_winning_cluster_top5_method cands use_rlap_cos = Some (best, a) ->
  (forall c, c ∈ cands -> cand_matches c <> [] ->
     exists sc, sc ∈ all_cluster_scores a /\ score_cluster use_rlap_cos c = Some sc) /\
  (forall sc, sc ∈ all_cluster_scores a ->
     exists c, c ∈ cands /\ score_cluster use_rlap_cos c = Some sc /\
       let size := length (cand_matches c) in
       cluster_size sc = size /\
       top_5_mean sc =
         np_mean (take 5 (sort_desc id (map (get_metric use_rlap_cos) (cand_matches c)))) /\
       penalized_score sc = top_5_mean sc * penalty_factor sc /\
       ((5 <= size)%nat -> penalty_factor sc = 1) /\
       ((size < 5)%nat -> penalty_factor sc = (95 # 100) ^ (5 - Z.of_nat size)) /\
       (size = 5%nat -> penalized_score sc == top_5_mean sc) /\
       cand_top_5_mean (cluster sc) = top_5_mean sc /\
       cand_penalty_factor (cluster sc) = penalty_factor sc /\
       cand_penalized_score (cluster sc) = penalized_score sc).
Proof.
  intros H. apply find_winning_Some in H as (Hall & _). rewrite Hall. split.
  - intros c Hc Hm. destruct (score_cluster_is_Some use_rlap_cos c Hm) as [sc Hsc].
    exists sc. split; [|done].
    apply sort_desc_elem, list_elem_of_omap. eauto.
  - intros sc Hsc. apply sort_desc_elem, list_elem_of_omap in Hsc as (c & Hc & Hsc).
    exists c. do 2 (split; [done|]).
    destruct (score_cluster_Some _ _ _ Hsc)
      as (_ & Hsize & _ & Hmean & Hpen & Hscore & _ & Hc1 & Hc2 & Hc3).
    cbv zeta. repeat split; try done.
    + intros Hge. rewrite Hpen.
      destruct (Nat.ltb_spec (length (cand_matches c)) 5) as [Hlt|_]; [lia | done].
    + intros Hlt. rewrite Hpen.
      destruct (Nat.ltb_spec (length (cand_matches c)) 5) as [_|Hge]; [done | lia].
    + intros H5. rewrite Hscore, Hpen, H5. simpl. ring.
Qed.

(** The two tied candidates are both scored 10 with penalty 1. *)
Lemma penalized_score_is_mean_times_penalty_witness :
  exists best a,
    find_winning_cluster_top5_method Spec.tied_candidates true = Some (best, a) /\
    forall sc, sc ∈ all_cluster_scores a ->
      exists c, c ∈ Spec.tied_candidates /\
        penalized_score sc = top_5_mean sc * penalty_factor sc /\
        penalty_factor sc = 1.
Proof.
  destruct (find_winning_cluster_top5_method Spec.tied_candidates true)
    as [[best a]|] eqn:E; [|by vm_compute in E].
  exists best, a. split; [done|]. intros sc Hsc.
  destruct (penalized_score_is_mean_times_penalty _ _ _ _ E) as [_ H].
  destruct (H sc Hsc) as (c & Hc & _ & _ & _ & Hscore & Hge & _).
  exists c. do 2 (split; [done|]). apply Hge.
  apply elem_of_cons in Hc as [->|Hc]; [simpl; lia|].
  apply list_elem_of_singleton in Hc as ->. simpl; lia.
Defined.

(** C1, as the code has it.  When some candidate has matches, a winner is
    returned; it is the scored candidate of largest penalized score, and
    among the candidates of that score it is the one that comes first in
    the list of candidates (neither size nor type name is looked at). *)
Theorem best_cluster_is_first_maximum cands use_rlap_cos :
  (exists c, c ∈ cands /\ cand_matches c <> []) ->
  exists best a,
    find_winning_cluster_top5_method cands use_rlap_cos = Some (best, a) /\
    best = cluster (winning_cluster_info a) /\
    cand_penalized_score best = penalized_score (winning_cluster_info a) /\
    first_max penalized_score (score_clusters use_rlap_cos cands) (winning_cluster_info a) /\
    (forall sc, sc ∈ all_cluster_scores a ->
       penalized_score sc <= cand_penalized_score best).
Proof.
  intros Hex. destruct (find_winning_is_Some cands use_rlap_cos Hex) as [[best a] E].
  exists best, a. split; [done|].
  apply find_winning_Some in E as (Hall & Hhead & _ & Hbest).
  rewrite Hall in Hhead. apply sort_desc_head_first_max in Hhead as Hfirst.
  assert (cand_penalized_score best = penalized_score (winning_cluster_info a)) as Hps.
  { pose proof (first_max_elem _ _ _ Hfirst) as Hin.
    apply list_elem_of_omap in Hin as (c & _ & Hsc).
    apply score_cluster_Some in Hsc. rewrite Hbest. tauto. }
  repeat split; try done.
  intros sc Hsc. rewrite Hps. eapply first_max_bound; [done|].
  rewrite Hall in Hsc. by apply sort_desc_elem in Hsc.
Qed.

Lemma best_cluster_is_first_maximum_witness :
  exists best a,
    find_winning_cluster_top5_method Spec.tied_candidates true = Some (best, a) /\
    cand_type best = Some "II"%string /\
    first_max penalized_score (score_clusters true Spec.tied_candidates)
      (winning_cluster_info a).
Proof.
  destruct (best_cluster_is_first_maximum Spec.tied_candidates true)
    as (best & a & E & Hbest & _ & Hfirst & _).
  { eexists. split; [apply elem_of_cons; by left | done]. }
  exists best, a. repeat split; [done | | done].
  vm_compute in E. by injection E as <- _.
Defined.

(** C1 as worded fails: of two candidates with score 10 the first one wins,
    although the second has six members against five. *)
Lemma tie_is_not_broken_by_size : ~ Spec.best_cluster_rule Spec.tied_candidates true.
Proof.
  intros (best & a & E & Hrule).
  apply find_winning_Some in E as (Hall & Hhead & _).
  rewrite Hall in Hhead, Hrule. clear Hall.
  destruct (sort_desc penalized_score (score_clusters true Spec.tied_candidates))
    as [|s1 [|s2 rest]] eqn:Es; vm_compute in Es; try discriminate.
  injection Es as <- <- <-. injection Hhead as Hw. rewrite <- Hw in Hrule.
  match type of Hrule with forall _, _ ∈ [_; ?s2] -> _ =>
    destruct (Hrule s2) as [_ Hsize];
      [apply elem_of_cons; right; apply elem_of_cons; by left|]
  end.
  destruct Hsize as [Hle _]; [reflexivity|].
  simpl in Hle. lia.
Qed.

End ClusterSelection.

(** ** Subtype voting *)

Section SubtypeVotingFacts.

Lemma group_append_nonempty k v groups :
  Forall (fun g => g.2 <> []) groups ->
  Forall (fun g => g.2 <> []) (group_append k v groups).
Proof.
  induction 1 as [|[k' vs] groups Hg Hgs IH]; simpl.
  - by repeat constructor.
  - destruct (String.eqb k k'); constructor; simpl in *; try done.
    by destruct vs.
Qed.

Lemma subtype_groups_nonempty cluster_members :
  Forall (fun g => g.2 <> []) (subtype_groups cluster_members).
Proof.
  unfold subtype_groups.
  assert (Forall (fun g : string * list Member => g.2 <> []) []) as Hnil by constructor.
  revert Hnil. generalize (@nil (string * list Member)).
  induction cluster_members as [|m ms IH]; intros acc Hacc; simpl; [done|].
  by apply IH, group_append_nonempty.
Qed.

(** The score of a subtype in closed form. *)
Lemma subtype_score_closed members :
  subtype_score members =
    np_mean (take 5 (sort_desc id (map metric_value members)))
    * (inject_Z (Z.of_nat (5 `min` length members)) / 5).
Proof.
  unfold subtype_score, np_mean.
  rewrite sort_desc_map, <- !fmap_take, !length_fmap, length_take, sort_desc_length.
  done.
Qed.

(** C2, as the code has it.  Every subtype that is scored has at least one
    member, and its score is the mean of its (up to) five largest metric
    values times [min(size, 5) / 5]: no penalty from five members on, and a
    factor [size / 5] below. *)
Theorem subtype_score_uses_linear_penalty cluster_members s v :
  (s, v) ∈ subtype_scores (subtype_groups cluster_members) ->
  exists members,
    (s, members) ∈ subtype_groups cluster_members /\
    members <> [] /\
    let mean_top := np_mean (take 5 (sort_desc id (map metric_value members))) in
    v = mean_top * (inject_Z (Z.of_nat (5 `min` length members)) / 5) /\
    ((5 <= length members)%nat -> v == mean_top) /\
    ((length members < 5)%nat ->
       v == mean_top * (inject_Z (Z.of_nat (length members)) / 5)).
Proof.
  unfold subtype_scores. intros H.
  apply list_elem_of_fmap in H as ([s' members] & [= -> ->] & Hin). simpl.
  exists members. split; [done|]. split.
  { pose proof (subtype_groups_nonempty cluster_members) as Hne.
    rewrite Forall_forall in Hne. exact (Hne _ Hin). }
  rewrite subtype_score_closed. split; [done|]. split; intros Hlen.
  - rewrite Nat.min_l by done. simpl. field.
  - rewrite Nat.min_r by lia. reflexivity.
Qed.

Lemma subtype_score_uses_linear_penalty_witness :
  exists members,
    ("norm"%string, members) ∈ subtype_groups Spec.lone_member /\
    members <> [] /\
    subtype_score Spec.lone_member
    == np_mean (take 5 (sort_desc id (map metric_value members)))
       * (inject_Z (Z.of_nat (length members)) / 5).
Proof.
  destruct (subtype_score_uses_linear_penalty Spec.lone_member "norm"
              (subtype_score Spec.lone_member))
    as (members & Hin & Hne & _ & _ & Hlt).
  { apply elem_of_cons. by left. }
  exists members. repeat split; [done | done |].
  apply Hlt. vm_compute in Hin.
  apply list_elem_of_singleton in Hin. injection Hin as ->. simpl. lia.
Defined.

(** C2 as worded fails: a subtype with one member of metric 10 is scored
    10 * 1/5 = 2, not 10 * 0.95^4. *)
Lemma subtype_penalty_is_not_geometric :
  subtype_score Spec.lone_member == 2 /\
  Spec.subtype_score_as_specified Spec.lone_member == 10 * (95 # 100) ^ 4 /\
  ~ subtype_score Spec.lone_member == Spec.subtype_score_as_specified Spec.lone_member.
Proof. split; [|split]; vm_compute; [done | done | discriminate]. Qed.

(** The difference shows in the outcome: a lone 91T match of metric 10
    loses to five norm matches of metric 3 (scores 2 and 3), where the
    cluster rule would score them 8.1 and 3. *)
Example lone_strong_subtype_loses :
  exists confidence margin,
    choose_subtype_weighted_voting Spec.get_best_metric_value 0
      Spec.mixed_cluster Spec.mixed_gamma (1 # 10)
    = Ok ("norm"%string, confidence, margin, Some "91T"%string).
Proof. vm_compute. eauto. Qed.

End SubtypeVotingFacts.

(** ** Redshift quality of the clusters *)

Section RedshiftQuality.

(** On the GMM path every cluster carries the four-way quality of its
    span. *)
Lemma build_cluster_quality type_matches redshifts rlaps metric_values labels q id ci :
  build_cluster type_matches redshifts rlaps metric_values labels q id = Some ci ->
  ci_redshift_quality ci = Spec.redshift_quality_rule (ci_redshift_span ci) q /\
  ci_cluster_method ci = direct_gmm.
Proof.
  unfold build_cluster.
  destruct (mask_select _ redshifts) as [|z zs]; [done|].
  by intros [= <-].
Qed.

Lemma gmm_clusters_quality gmm type_matches max_clusters q use n clusters :
  _perform_direct_gmm_clustering gmm type_matches max_clusters q use
    = TypeSuccess n clusters true ->
  Forall (fun ci => ci_redshift_quality ci
                    = Spec.redshift_quality_rule (ci_redshift_span ci) q) clusters.
Proof.
  unfold _perform_direct_gmm_clustering.
  destruct (mapM rlap type_matches) as [rlaps|]; [|done].
  destruct (Z.ltb_spec (Z.min max_clusters (Z.of_nat (length type_matches / 2 + 1))) 2).
  - destruct (_create_single_cluster_result _ _ _ _ _) as [r|] eqn:E; simpl; [|done].
    unfold _create_single_cluster_result in E.
    destruct (np_max _), (np_min _), (np_min rlaps), (np_min _); simplify_eq/=.
    done.
  - destruct (gmm _ _) as [[k labels]|]; [|done].
    destruct (negb _); [done|]. intros [= <- <-].
    apply Forall_forall. intros ci Hci.
    apply list_elem_of_omap in Hci as (id & _ & Hci).
    by apply build_cluster_quality in Hci as [? _].
Qed.

(** The single-cluster fallback never reports [very_loose]. *)
Lemma single_cluster_never_very_loose type_matches redshifts rlaps q use n clusters b :
  _create_single_cluster_result type_matches redshifts rlaps q use
    = Some (TypeSuccess n clusters b) ->
  Forall (fun ci => ci_redshift_quality ci <> very_loose
                    /\ ci_cluster_method ci = single_cluster) clusters.
Proof.
  unfold _create_single_cluster_result.
  destruct (np_max _), (np_min _), (np_min rlaps), (np_min _); simpl; try done.
  intros [= <- <- <-]. constructor; [|constructor]. simpl.
  split; [|done]. by repeat case_match.
Qed.

(** C3 at the failing input: with [max_clusters = 1] the two matches a
    tenth apart in redshift form the single fallback cluster; its span 0.1
    exceeds 4 * 0.02, the rule of the specification (and of the GMM path)
    calls it [very_loose], the fallback reports [loose]. *)
Theorem single_cluster_fallback_reports_loose
    (gmm : list Q -> nat -> option (nat * list nat)) :
  exists ci,
    _perform_direct_gmm_clustering gmm Spec.wide_pair 1 (2 # 100) true
      = TypeSuccess 1 [ci] false /\
    ci_redshift_span ci == 1 # 10 /\
    ci_cluster_method ci = single_cluster /\
    ci_redshift_quality ci = loose /\
    Spec.redshift_quality_rule (ci_redshift_span ci) (2 # 100) = very_loose.
Proof. eexists. split; [reflexivity|]. by vm_compute. Qed.

End RedshiftQuality.

(** ** Apodization *)

Section ApodizeFacts.
Variable cos_pi : Q -> Q.

(** A percentage that is not positive leaves the array alone, whatever the
    edges. *)
Lemma apodize_nonpositive_percent arr n1 n2 percent :
  percent <= 0 -> apodize cos_pi arr n1 n2 (Some percent) = arr.
Proof.
  intros Hp. unfold apodize.
  destruct (negb _); [done|].
  apply Qle_bool_iff in Hp. by rewrite Hp.
Qed.

Lemma scale_slice_length start factors out :
  (start + length factors <= length out)%nat ->
  length (scale_slice start factors out) = length out.
Proof.
  intros H. unfold scale_slice.
  rewrite !length_app, length_zip_with, !length_take, !length_drop. lia.
Qed.

Lemma py_range_length a b : length (py_range a b) = Z.to_nat (b - a).
Proof. unfold py_range. by rewrite length_map, length_seq. Qed.

Lemma elem_of_py_range a b x : x ∈ py_range a b <-> (a <= x < b)%Z.
Proof.
  unfold py_range. rewrite list_elem_of_fmap. split.
  - intros (k & -> & Hk). apply elem_of_seq in Hk. lia.
  - intros H. exists (Z.to_nat (x - a)). split; [lia|].
    apply elem_of_seq. lia.
Qed.

Lemma apodize_length arr n1 n2 percent :
  length (apodize cos_pi arr n1 n2 percent) = length arr.
Proof.
  unfold apodize.
  destruct (negb _) eqn:Hvalid; [done|].
  destruct percent as [percent|]; [|done].
  destruct (Qle_bool percent 0); [done|].
  destruct (_ <=? 0)%Z; [done|].
  set (ns := Z.min _ _).
  destruct (Z.ltb_spec ns 1) as [|Hns]; [done|].
  destruct (orb _ _) eqn:Hb; [done|].
  apply orb_false_iff in Hb as [Hb1 Hb2].
  apply Z.ltb_ge in Hb1, Hb2.
  apply negb_false_iff in Hvalid.
  apply andb_true_iff in Hvalid as [Hvalid Hn2].
  apply andb_true_iff in Hvalid as [Hn1 Hn12].
  apply Z.leb_le in Hn1, Hn12. apply Z.ltb_lt in Hn2.
  assert (length (if (ns =? 1)%Z then [0] else cosine_ramp cos_pi ns) = Z.to_nat ns)
    as Hramp.
  { destruct (Z.eqb_spec ns 1) as [->|_]; [done|].
    unfold cosine_ramp. rewrite length_map, py_range_length. f_equal. lia. }
  set (ramp := if (ns =? 1)%Z then [0] else cosine_ramp cos_pi ns) in *.
  assert (length (scale_slice (Z.to_nat n1) ramp arr) = length arr) as Hfirst
    by (apply scale_slice_length; lia).
  rewrite scale_slice_length; [done|].
  rewrite length_reverse, Hfirst, Hramp. lia.
Qed.

(** C8.  With [percent = 0], and edges [0 <= n1 <= n2 < len(arr)], the
    result is the array itself, sample by sample; so [tapered_flux], which
    is [apodize(flat_flux, left_edge, right_edge, percent)], equals
    [flat_flux] when the percentage is 0. *)
Theorem apodize_percent_zero_is_identity (arr : list Q) (n1 n2 : Z) :
  (0 <= n1 <= n2)%Z -> (n2 < Z.of_nat (length arr))%Z ->
  apodize cos_pi arr n1 n2 (Some 0) = arr /\
  forall i, apodize cos_pi arr n1 n2 (Some 0) !! i = arr !! i.
Proof.
  intros _ _. rewrite apodize_nonpositive_percent by apply Qle_refl. done.
Qed.

End ApodizeFacts.

Lemma apodize_percent_zero_is_identity_witness :
  apodize (fun x => 1 - 2 * x) [3; 1; 4; 1; 5] 1 3 (Some 0) = [3; 1; 4; 1; 5].
Proof.
  apply (apodize_percent_zero_is_identity (fun x => 1 - 2 * x) [3; 1; 4; 1; 5] 1 3);
    simpl; lia.
Defined.

(** With a positive percentage the same call does taper: the edges of the
    valid region are scaled by the ramp. *)
Example apodize_tapers_when_positive :
  apodize (fun x => 1 - 2 * x) [3; 1; 4; 1; 5] 1 3 (Some 40) = [3; 0 * 1; 4; 0 * 1; 5].
Proof. reflexivity. Qed.

(** ** Savitzky-Golay smoothing *)

Section SavitzkyGolayFacts.
Variable savgol_filter : list Q -> Z -> Z -> option (list Q).

(** C4, as the code has it.  A window beyond the [n] samples of the data is
    clamped to [n] and the order to [min(polyorder, n - 1)].  With fewer
    than three samples the data is returned; otherwise the result is what
    SciPy's filter returns for that window and order, and the data itself
    if that call raises.  The same holds for the window
    [savgol_filter_wavelength] derives from the FWHM.  Whether the result
    differs from the data is then up to the filter: it does on the spike
    below, and does not on three samples, which a parabola fits exactly. *)
Theorem savgol_window_is_clamped (data : list Q) (window_length polyorder : Z) :
  (Z.of_nat (length data) < window_length)%Z ->
  let n := Z.of_nat (length data) in
  savgol_filter_fixed savgol_filter data window_length polyorder
  = (if (n <? 3)%Z then data
     else default data (savgol_filter data n (Z.min polyorder (n - 1)))) /\
  forall wave fwhm_angstrom w,
    length data = length wave ->
    0 < fwhm_angstrom ->
    wavelength_window wave fwhm_angstrom = Ok w ->
    (n < w)%Z ->
    savgol_filter_wavelength savgol_filter wave data fwhm_angstrom polyorder
    = Ok (if (n <? 3)%Z then data
          else default data (savgol_filter data n (Z.min polyorder (n - 1)))).
Proof.
  intros Hlt n. split.
  - unfold savgol_filter_fixed. fold n.
    destruct (Z.ltb_spec window_length 3) as [Hw|Hw].
    + destruct (Z.ltb_spec n 3); [done | lia].
    + set (w := if (window_length mod 2 =? 0)%Z then _ else _).
      assert (window_length <= w)%Z by (unfold w; case_match; lia).
      rewrite Z.min_r by lia.
      destruct (Z.ltb_spec n 3); [done|].
      by destruct (savgol_filter _ _ _).
  - intros wave fwhm w Hlen Hfwhm Hw Hnw.
    unfold savgol_filter_wavelength. rewrite Hlen, Nat.eqb_refl. simpl.
    apply Qle_bool_false in Hfwhm.
    rewrite Hfwhm, Hw. simpl. rewrite <- Hlen. fold n.
    rewrite Z.min_r by lia.
    destruct (Z.ltb_spec n 3); [done|].
    by destruct (savgol_filter _ _ _).
Qed.

End SavitzkyGolayFacts.

(** A requested window of 11 on the five-sample spike: the filter runs with
    window 5 and order 3. *)
Lemma savgol_window_is_clamped_witness :
  savgol_filter_fixed Spec.savgol_interp Spec.spike 11 3
  = default Spec.spike (Spec.savgol_interp Spec.spike 5 3).
Proof.
  destruct (savgol_window_is_clamped Spec.savgol_interp Spec.spike 11 3) as [H _];
    [simpl; lia|].
  exact H.
Defined.

(** The least-squares cubic through the spike is the familiar
    (-3, 12, 17, 12, -3) / 35. *)
Example savgol_spike :
  map Qred (savgol_filter_fixed Spec.savgol_interp Spec.spike 11 3)
  = [-3 # 35; 12 # 35; 17 # 35; 12 # 35; -3 # 35].
Proof. reflexivity. Qed.

(** On three samples the clamped window is 3 and the order 2: the filter
    interpolates, and the data comes back as it went in. *)
Example savgol_three_samples :
  map Qred (savgol_filter_fixed Spec.savgol_interp [1; 5; 2] 11 3) = [1; 5; 2].
Proof. reflexivity. Qed.

(** C4 as worded fails: the window 11 exceeds the five samples of the
    spike, and the spike comes back smoothed. *)
Lemma savgol_oversized_window_still_smooths : ~ Spec.savgol_noop_rule Spec.savgol_interp.
Proof.
  intros H. specialize (H Spec.spike 11%Z 3%Z ltac:(simpl; lia)).
  apply (f_equal (map Qred)) in H. rewrite savgol_spike in H. discriminate H.
Qed.

(** The same through the wavelength-based entry: a FWHM of 50 Å at 1 Å per
    pixel asks for 43 pixels. *)
Example savgol_wavelength_spike :
  wavelength_window [1; 2; 3; 4; 5] 50 = Ok 43%Z /\
  (map Qred <$> (match savgol_filter_wavelength Spec.savgol_interp [1; 2; 3; 4; 5] Spec.spike 50 3
                 with Ok r => Some r | Raise _ => None end))
  = Some [-3 # 35; 12 # 35; 17 # 35; 12 # 35; -3 # 35].
Proof. by vm_compute. Qed.

(** ** [flatten_spectrum] *)

Lemma np_diff_nil (wave : list Q) : np_diff wave = [] <-> (length wave < 2)%nat.
Proof.
  unfold np_diff. destruct wave as [|a [|b wave]]; simpl; split; try done; lia.
Qed.

Lemma float_int_float_of (x : Q) :
  float_int (float_of (Qabs x))
  = if Qle_bool float_overflow (Qabs x) then Raise OverflowError else Ok (py_int (Qabs x)).
Proof.
  unfold float_of. destruct (Qle_bool float_overflow (Qabs x)) eqn:E; [done|].
  destruct (Qle_bool (Qabs x) (- float_overflow)) eqn:E'; [|done].
  apply Qle_bool_iff in E'. pose proof (Qabs_nonneg x).
  assert (0 < float_overflow) by reflexivity. lra.
Qed.

Section FlattenSpectrumFacts.
Variable cos_pi : Q -> Q.
Variable savgol_filter : list Q -> Z -> Z -> option (list Q).
Variable NW : nat.
Variables W0 DWLOG : Q.
Variables np_log np_exp np_log10 pow10 : Q -> Q.

(** The call [log_rebin(wave, flux, num_points=...)] cannot bind its
    keyword. *)
Lemma call_log_rebin_num_points wave flux num_points :
  call_log_rebin NW W0 DWLOG np_log np_exp wave flux [("num_points"%string, num_points)]
  = Raise TypeError.
Proof. reflexivity. Qed.

(** The Angstrom smoothing returns on arrays of one length whose mean
    spacing gives a window. *)
Lemma savgol_filter_wavelength_Ok wave data fwhm polyorder :
  length data = length wave ->
  (exists w, wavelength_window wave fwhm = Ok w) ->
  exists r, savgol_filter_wavelength savgol_filter wave data fwhm polyorder = Ok r.
Proof.
  intros Hlen [w Hw]. unfold savgol_filter_wavelength.
  rewrite Hlen, Nat.eqb_refl. simpl.
  destruct (Qle_bool fwhm 0); [by eexists|].
  rewrite Hw. simpl.
  destruct (_ <? 3)%Z; [by eexists|].
  destruct (savgol_filter _ _ _); by eexists.
Qed.

(** Inside [flatten_spectrum] the taper itself cannot raise: the index has
    been computed, so the percentage is a number, and the valid region is
    one sample. *)
Lemma apodize_step_outcome flux apodize_percent :
  match Spec.apodize_index_exception flux apodize_percent with
  | Some e => apodize_step cos_pi flux apodize_percent = Raise e
  | None => exists flux1, apodize_step cos_pi flux apodize_percent = Ok flux1 /\
                          length flux1 = length flux
  end.
Proof.
  unfold Spec.apodize_index_exception, apodize_step.
  destruct apodize_percent as [q| | |]; simpl; try (by eexists).
  - unfold float_of. destruct (Qltb 0 q) eqn:Hq; simpl; [|by eexists].
    destruct (Qle_bool float_overflow (inject_Z (Z.of_nat (length flux)) * q)) eqn:Hov;
      [done|].
    destruct (Qle_bool (inject_Z (Z.of_nat (length flux)) * q) (- float_overflow)) eqn:Hneg.
    { exfalso. apply Qle_bool_iff in Hneg. apply Qltb_lt in Hq.
      assert (0 <= inject_Z (Z.of_nat (length flux))) by (rewrite <- (Zle_Qle 0); lia).
      assert (0 <= inject_Z (Z.of_nat (length flux)) * q)
        by (apply Qmult_le_0_compat; lra).
      assert (0 < float_overflow) by reflexivity. lra. }
    cbn. set (n_apodize := py_int _). unfold apodize_float.
    destruct (negb _) eqn:Hedge; [by eexists|].
    apply negb_false_iff in Hedge.
    apply andb_true_iff in Hedge as [Hedge Hlt].
    apply andb_true_iff in Hedge as [H0 _].
    apply Z.leb_le in H0. apply Z.ltb_lt in Hlt.
    apply Qltb_lt, Qle_bool_false in Hq. rewrite Hq.
    replace (n_apodize - n_apodize + 1)%Z with 1%Z by lia. simpl.
    unfold float_of.
    destruct (Qle_bool float_overflow (inject_Z 1 * q)) eqn:Hov1.
    { exfalso. apply Qle_bool_iff in Hov1. apply Qle_bool_false in Hov, Hq.
      destruct (length flux) as [|n] eqn:Hlen.
      - simpl in Hlt. lia.
      - assert (1 <= inject_Z (Z.of_nat (S n))) by (rewrite <- (Zle_Qle 1); lia).
        change (inject_Z 1) with 1 in Hov1.
        assert (0 <= (inject_Z (Z.of_nat (S n)) - 1) * q)
          by (apply Qmult_le_0_compat; lra).
        lra. }
    destruct (Qle_bool (inject_Z 1 * q) (- float_overflow)) eqn:Hneg1.
    { exfalso. apply Qle_bool_iff in Hneg1. apply Qle_bool_false in Hq.
      change (inject_Z 1) with 1 in Hneg1.
      assert (0 < float_overflow) by reflexivity. lra. }
    cbn. eexists. split; [done|]. apply apodize_length.
  - by destruct (length flux).
Qed.

Lemma angstrom_outcome wave flux fwhm :
  match Spec.angstrom_exception wave flux fwhm with
  | Some e => savgol_filter_wavelength_float savgol_filter wave flux fwhm 3 = Raise e
  | None => exists flux2, savgol_filter_wavelength_float savgol_filter wave flux fwhm 3
                          = Ok flux2
  end.
Proof.
  unfold Spec.angstrom_exception, savgol_filter_wavelength_float.
  destruct (Nat.eqb_spec (length flux) (length wave)) as [Hlen|Hlen]; cbv [negb];
    [|done].
  destruct fwhm as [q| | |]; try (by eexists); try done.
  - destruct (Qle_bool q 0) eqn:Hq; [by eexists|].
    destruct (Nat.ltb_spec (length wave) 2) as [Hshort|Hlong].
    { apply np_diff_nil in Hshort. by rewrite Hshort. }
    destruct (np_diff wave) as [|d ds] eqn:Hdiff.
    { apply np_diff_nil in Hdiff. lia. }
    cbv iota zeta.
    destruct (Qeq_bool (np_mean (d :: ds)) 0) eqn:Havg; [done|].
    rewrite float_int_float_of. cbv beta iota.
    destruct (Qle_bool float_overflow _); [done|]. cbn.
    apply savgol_filter_wavelength_Ok; [done|].
    unfold wavelength_window. rewrite Hdiff, Havg. by eexists.
  - destruct (Nat.ltb_spec (length wave) 2) as [Hshort|Hlong].
    + apply np_diff_nil in Hshort. by rewrite Hshort.
    + destruct (np_diff wave) eqn:Hdiff; [|done].
      apply np_diff_nil in Hdiff. lia.
Qed.

Lemma smoothing_step_outcome wave flux flux1 median_filter_type median_filter_value :
  length flux1 = length flux ->
  match Spec.smoothing_exception wave flux median_filter_type median_filter_value with
  | Some e => smoothing_step savgol_filter wave flux1 median_filter_type median_filter_value
              = Raise e
  | None => exists flux2,
      smoothing_step savgol_filter wave flux1 median_filter_type median_filter_value
      = Ok flux2
  end.
Proof.
  intros Hlen. unfold Spec.smoothing_exception, smoothing_step.
  destruct (negb _); cbv [andb]; [|by eexists].
  destruct (float_pos median_filter_value) eqn:Hpos; [|by eexists].
  destruct (String.eqb median_filter_type "pixel").
  { destruct median_filter_value; try discriminate Hpos; try done. by eexists. }
  destruct (String.eqb median_filter_type "angstrom"); [|by eexists].
  pose proof (angstrom_outcome wave flux1 median_filter_value) as H.
  unfold Spec.angstrom_exception in *. by rewrite Hlen in H.
Qed.

(** C9, as the code has it.  No call returns.  The exception is that of
    the first step that raises: [int()] on the apodization index, when the
    percentage is infinite or its product with the length overflows; then
    the smoothing, which raises for the pixel filter with an infinite value
    and for the Angstrom filter whenever [savgol_filter_wavelength] does
    (shapes that differ, fewer than two wavelengths, a zero mean spacing, an
    infinite window); and in every other case, as with the default
    arguments, the [TypeError] of the [log_rebin] call. *)
Theorem flatten_spectrum_never_returns
    (wave flux : list Q) (apodize_percent : pyfloat) (median_filter_type : string)
    (median_filter_value : pyfloat) (num_points : Z) :
  let run :=
    flatten_spectrum cos_pi savgol_filter NW W0 DWLOG np_log np_exp np_log10 pow10
      wave flux apodize_percent median_filter_type median_filter_value num_points in
  run = Raise (Spec.flatten_exception wave flux apodize_percent median_filter_type
                 median_filter_value) /\
  (forall e, apodize_step cos_pi flux apodize_percent = Raise e -> run = Raise e) /\
  (forall flux1 e,
     apodize_step cos_pi flux apodize_percent = Ok flux1 ->
     smoothing_step savgol_filter wave flux1 median_filter_type median_filter_value
     = Raise e ->
     run = Raise e) /\
  (forall flux1 e,
     apodize_step cos_pi flux apodize_percent = Ok flux1 ->
     median_filter_type = "angstrom"%string ->
     float_pos median_filter_value = true ->
     savgol_filter_wavelength_float savgol_filter wave flux1 median_filter_value 3
     = Raise e ->
     run = Raise e) /\
  (forall flux1 flux2,
     apodize_step cos_pi flux apodize_percent = Ok flux1 ->
     smoothing_step savgol_filter wave flux1 median_filter_type median_filter_value
     = Ok flux2 ->
     run = Raise TypeError).
Proof.
  intros run.
  assert (forall e, apodize_step cos_pi flux apodize_percent = Raise e -> run = Raise e)
    as Hfirst by (intros e He; unfold run, flatten_spectrum; by rewrite He).
  assert (forall flux1 e,
            apodize_step cos_pi flux apodize_percent = Ok flux1 ->
            smoothing_step savgol_filter wave flux1 median_filter_type median_filter_value
            = Raise e -> run = Raise e) as Hsecond
    by (intros flux1 e H1 He; unfold run, flatten_spectrum; rewrite H1; cbn; by rewrite He).
  assert (forall flux1 flux2,
            apodize_step cos_pi flux apodize_percent = Ok flux1 ->
            smoothing_step savgol_filter wave flux1 median_filter_type median_filter_value
            = Ok flux2 -> run = Raise TypeError) as Hthird
    by (intros flux1 flux2 H1 H2; unfold run, flatten_spectrum; rewrite H1; cbn;
        by rewrite H2).
  split; [|split; [done|split; [done|split; [|done]]]].
  - unfold Spec.flatten_exception.
    pose proof (apodize_step_outcome flux apodize_percent) as H1.
    destruct (Spec.apodize_index_exception flux apodize_percent) as [e|];
      [by apply Hfirst|].
    destruct H1 as (flux1 & H1 & Hlen).
    pose proof (smoothing_step_outcome wave flux flux1 median_filter_type
                  median_filter_value Hlen) as H2.
    destruct (Spec.smoothing_exception wave flux median_filter_type median_filter_value)
      as [e|]; [by eapply Hsecond|].
    destruct H2 as (flux2 & H2). by eapply Hthird.
  - intros flux1 e H1 -> Hpos He. apply (Hsecond flux1 e H1).
    unfold smoothing_step. by rewrite Hpos.
Qed.

(** With the arguments of the signature left at their defaults, on an
    array that an address space can hold. *)
Corollary flatten_spectrum_default_raises_TypeError (wave flux : list Q) :
  (Z.of_nat (length flux) < 2 ^ 63)%Z ->
  flatten_spectrum cos_pi savgol_filter NW W0 DWLOG np_log np_exp np_log10 pow10
    wave flux (FFinite 5) "none" (FFinite 0) 1024 = Raise TypeError.
Proof.
  intros Hsize. unfold flatten_spectrum.
  pose proof (apodize_step_outcome flux (FFinite 5)) as H.
  unfold Spec.apodize_index_exception in H.
  destruct (Qle_bool float_overflow (inject_Z (Z.of_nat (length flux)) * 5)) eqn:E.
  - exfalso. apply Qle_bool_iff in E. revert E.
    change 5 with (inject_Z 5). rewrite <- inject_Z_mult. unfold float_overflow.
    rewrite <- Zle_Qle.
    assert (2 ^ 63 * 5 < 2 ^ 1024 - 2 ^ 970)%Z as Hbig by reflexivity.
    revert Hbig Hsize. generalize (2 ^ 1024 - 2 ^ 970)%Z (2 ^ 63)%Z. lia.
  - change (Qltb 0 5) with true in H. cbv [andb] in H.
    destruct H as (flux1 & -> & _). reflexivity.
Qed.

End FlattenSpectrumFacts.

(** Five samples and a percentage of [2^1023]: the product overflows and
    [int()] raises before anything else runs. *)
Lemma flatten_spectrum_never_returns_witness :
  flatten_spectrum (fun x => 1 - 2 * x) Spec.savgol_interp Spec.default_NW
    Spec.default_W0 Spec.default_DWLOG (fun x => x - 1) (fun x => 1 + x)
    (fun x => x - 1) (fun x => 1 + x)
    [1; 2; 3; 4; 5] Spec.spike (FFinite (inject_Z (2 ^ 1023))) "pixel" (FFinite 11) 1024
  = Raise OverflowError.
Proof.
  destruct (flatten_spectrum_never_returns (fun x => 1 - 2 * x) Spec.savgol_interp
              Spec.default_NW Spec.default_W0 Spec.default_DWLOG
              (fun x => x - 1) (fun x => 1 + x) (fun x => x - 1) (fun x => 1 + x)
              [1; 2; 3; 4; 5] Spec.spike (FFinite (inject_Z (2 ^ 1023))) "pixel"
              (FFinite 11) 1024) as (H & _).
  exact H.
Defined.

(** C9 as worded fails: with the Angstrom smoothing asked for and arrays of
    different lengths, the [ValueError] of [savgol_filter_wavelength] comes
    before the [TypeError], whatever the external functions are. *)
Lemma flatten_spectrum_can_raise_ValueError :
  ~ exists cos_pi savgol_filter NW W0 DWLOG np_log np_exp np_log10 pow10,
      Spec.flatten_raises_TypeError_rule cos_pi savgol_filter NW W0 DWLOG
        np_log np_exp np_log10 pow10.
Proof.
  intros (cos_pi & f & NW & W0 & DWLOG & lg & ex & lg10 & p10 & H).
  specialize (H [1; 2; 3] [1; 2] (FFinite 5) "angstrom"%string (FFinite 5) 1024%Z).
  discriminate H.
Qed.

Example flatten_spectrum_shape_mismatch cos_pi f NW W0 DWLOG lg ex lg10 p10 :
  flatten_spectrum cos_pi f NW W0 DWLOG lg ex lg10 p10
    [1; 2; 3] [1; 2] (FFinite 5) "angstrom" (FFinite 5) 1024
  = Raise (ValueError "data and wave must have the same shape").
Proof. reflexivity. Qed.

(** ** Indexing and loops *)

Lemma getitem_in_range (v : list Q) (i : Z) :
  (0 <= i < Z.of_nat (length v))%Z ->
  exists x, getitem v i = Ok x /\ v !! Z.to_nat i = Some x.
Proof.
  intros Hi. unfold getitem.
  destruct (Z.ltb_spec i 0); [lia|].
  destruct (Z.leb_spec 0 i); [|lia].
  destruct (Z.ltb_spec i (Z.of_nat (length v))); [|lia]. simpl.
  destruct (lookup_lt_is_Some_2 v (Z.to_nat i)) as [x Hx]; [lia|].
  rewrite Hx. eauto.
Qed.

Lemma getitem_lookup (v : list Q) (i : nat) x :
  v !! i = Some x -> getitem v (Z.of_nat i) = Ok x.
Proof.
  intros Hx. pose proof (lookup_lt_Some _ _ _ Hx).
  destruct (getitem_in_range v (Z.of_nat i)) as (y & -> & Hy); [lia|].
  rewrite Nat2Z.id in Hy. congruence.
Qed.

Lemma getitem_last (v : list Q) (k : Z) :
  (0 < k <= Z.of_nat (length v))%Z ->
  exists x, getitem v (- k) = Ok x.
Proof.
  intros Hk. unfold getitem.
  destruct (Z.ltb_spec (- k) 0); [|lia].
  destruct (Z.leb_spec 0 (- k + Z.of_nat (length v))); [|lia].
  destruct (Z.ltb_spec (- k + Z.of_nat (length v)) (Z.of_nat (length v))); [|lia]. simpl.
  destruct (lookup_lt_is_Some_2 v (Z.to_nat (- k + Z.of_nat (length v)))) as [x Hx]; [lia|].
  rewrite Hx. eauto.
Qed.

Lemma setitem_in_range (v : list Q) (i : Z) x :
  (0 <= i < Z.of_nat (length v))%Z ->
  setitem v i x = Ok (<[Z.to_nat i := x]> v).
Proof.
  intros Hi. unfold setitem.
  destruct (Z.ltb_spec i 0); [lia|].
  destruct (Z.leb_spec 0 i); [|lia].
  by destruct (Z.ltb_spec i (Z.of_nat (length v))); [|lia].
Qed.

Lemma setitem_last (v : list Q) (k : Z) x :
  (0 < k <= Z.of_nat (length v))%Z ->
  exists v', setitem v (- k) x = Ok v' /\ length v' = length v.
Proof.
  intros Hk. unfold setitem.
  destruct (Z.ltb_spec (- k) 0); [|lia].
  destruct (Z.leb_spec 0 (- k + Z.of_nat (length v))); [|lia].
  destruct (Z.ltb_spec (- k + Z.of_nat (length v)) (Z.of_nat (length v))); [|lia]. simpl.
  eexists. split; [done|]. apply length_insert.
Qed.

(** A loop whose body keeps an invariant and never raises, returns, with the
    invariant. *)
Lemma for_each_invariant {A S} (P : S -> Prop) (xs : list A)
    (body : A -> S -> result S) (st : S) :
  P st ->
  (forall x st, x ∈ xs -> P st -> exists st', body x st = Ok st' /\ P st') ->
  exists st', for_each xs body st = Ok st' /\ P st'.
Proof.
  revert st. induction xs as [|x xs IH]; intros st Hst Hbody; simpl; [by eauto|].
  destruct (Hbody x st) as (st' & -> & Hst'); [apply elem_of_cons; by left | done |].
  simpl. apply IH; [done|]. intros y st'' Hy. apply Hbody, elem_of_cons. by right.
Qed.

Lemma mapM_result_Ok {A B} (f : A -> result B) (xs : list A) :
  (forall x, x ∈ xs -> exists y, f x = Ok y) ->
  exists ys, mapM f xs = Ok ys /\ length ys = length xs.
Proof.
  induction xs as [|x xs IH]; intros Hf; simpl; [by exists []|].
  destruct (Hf x) as [y Hy]; [apply elem_of_cons; by left|].
  destruct IH as (ys & Hys & Hlen); [intros z Hz; apply Hf, elem_of_cons; by right|].
  exists (y :: ys). cbn. rewrite Hy. cbn. rewrite Hys. cbn. split; [done|].
  simpl. by rewrite Hlen.
Qed.

(** ** [log_rebin] *)

Lemma sorted_head_bound (l : list Q) a :
  StronglySorted Qlt l -> head l = Some a -> forall x, x ∈ l -> a <= x.
Proof.
  intros Hs Hh x Hx. destruct Hs as [|b l Hl Hb]; simplify_eq/=.
  apply elem_of_cons in Hx as [->|Hx]; [apply Qle_refl|].
  rewrite Forall_forall in Hb. by apply Qlt_le_weak, Hb.
Qed.

Lemma sorted_last_bound (l : list Q) z :
  StronglySorted Qlt l -> last l = Some z -> forall x, x ∈ l -> x <= z.
Proof.
  induction 1 as [|b l Hl IH Hb]; intros Hlast x Hx; [by apply elem_of_nil in Hx|].
  destruct l as [|c l'].
  - simplify_eq/=. apply list_elem_of_singleton in Hx as ->. apply Qle_refl.
  - change (last (c :: l') = Some z) in Hlast.
    apply elem_of_cons in Hx as [->|Hx]; [|by apply IH].
    rewrite Forall_forall in Hb. apply Qlt_le_weak, Hb.
    rewrite last_lookup in Hlast. by eapply list_elem_of_lookup_2.
Qed.

Lemma pixel_edges_bounds (wave s : list Q) :
  StronglySorted Qlt wave ->
  pixel_edges wave = Ok s ->
  exists e0 eN,
    head s = Some e0 /\ last s = Some eN /\
    length s = S (length wave) /\
    forall x, x ∈ s -> e0 <= x <= eN.
Proof.
  intros Hs. unfold pixel_edges.
  destruct wave as [|w0 [|w1 rest]]; try done.
  destruct (reverse (w0 :: w1 :: rest)) as [|wn [|wm r]] eqn:Er; try done.
  set (wave := w0 :: w1 :: rest) in *.
  set (mids := zip_with _ wave (tail wave)).
  assert (length mids = S (length rest)) as Hmids
    by (unfold mids, wave; rewrite length_zip_with; cbn [length tail]; lia).
  assert (forall x, x ∈ mids -> exists a b, x = (1 # 2) * (a + b) /\ a ∈ wave /\ b ∈ wave)
    as Hin.
  { intros x Hx. apply elem_of_zip_with in Hx as (a & b & -> & Ha & Hb').
    exists a, b. repeat split; [done|]. apply elem_of_cons. by right. }
  clearbody mids.
  intros [= <-]. do 2 eexists. split; [done|]. split.
  { rewrite app_comm_cons. apply last_snoc. }
  split.
  { simpl. rewrite length_app, Hmids. simpl. lia. }
  assert (wave = reverse r ++ [wm] ++ [wn]) as Hw.
  { rewrite <- (reverse_involutive wave), Er, !reverse_cons, <- app_assoc. done. }
  assert (forall x, x ∈ wave -> w0 <= x <= wn) as Hb.
  { intros x Hx. split.
    - by apply (sorted_head_bound wave).
    - apply (sorted_last_bound wave); [done | | done].
      rewrite Hw, !app_assoc. apply last_snoc. }
  assert (w1 ∈ wave) as H1 by (apply elem_of_cons; right; apply elem_of_cons; by left).
  assert (wm ∈ wave) as Hm by (rewrite Hw, !elem_of_app, !list_elem_of_singleton; tauto).
  assert (wn ∈ wave) as Hn by (rewrite Hw, !elem_of_app, !list_elem_of_singleton; tauto).
  pose proof (Hb _ H1) as [? ?]. pose proof (Hb _ Hm) as [? ?]. pose proof (Hb _ Hn) as [? ?].
  intros x Hx.
  apply elem_of_cons in Hx as [->|Hx]; [lra|].
  apply elem_of_app in Hx as [Hx|Hx].
  - apply Hin in Hx as (a & b & -> & Ha & Hb').
    pose proof (Hb _ Ha) as [? ?]. pose proof (Hb _ Hb') as [? ?]. lra.
  - apply list_elem_of_singleton in Hx as ->. lra.
Qed.

Section LogRebinFacts.
Variable NW : nat.
Variables W0 DWLOG : Q.
Variables np_log np_exp : Q -> Q.

(** The grid is a proper one, and the logarithm and the exponential keep
    the order of their arguments (as the real functions and their
    floating-point versions do). *)
Hypothesis W0_pos : 0 < W0.
Hypothesis DWLOG_pos : 0 < DWLOG.
Hypothesis np_log_monotone : forall x y, 0 < x -> x <= y -> np_log x <= np_log y.
Hypothesis np_exp_increasing : forall x y, x < y -> np_exp x < np_exp y.

Lemma slog_of_positive s :
  0 < s -> slog_of W0 DWLOG np_log s = LFinite (Spec.log_coord W0 DWLOG np_log s).
Proof.
  intros Hs. unfold slog_of.
  assert (0 < s / W0) as Hx.
  { apply Qlt_shift_div_l; [done|]. rewrite Qmult_0_l. done. }
  unfold Spec.log_coord. generalize dependent (s / W0). intros x Hx.
  destruct (Qltb x 0) eqn:E1; [apply Qltb_lt in E1; exfalso; lra|].
  destruct (Qeq_bool x 0) eqn:E2; [apply Qeq_bool_iff in E2; exfalso; lra|].
  done.
Qed.

Lemma log_coord_monotone x y :
  0 < x -> x <= y ->
  Spec.log_coord W0 DWLOG np_log x <= Spec.log_coord W0 DWLOG np_log y.
Proof.
  intros Hx Hxy. unfold Spec.log_coord.
  assert (0 < / W0) as Hi by by apply Qinv_lt_0_compat.
  assert (0 < / DWLOG) as Hd by by apply Qinv_lt_0_compat.
  assert (np_log (x / W0) <= np_log (y / W0)) as Hl.
  { apply np_log_monotone.
    - unfold Qdiv. apply Qmult_lt_0_compat; done.
    - unfold Qdiv. apply Qmult_le_compat_r; [done | by apply Qlt_le_weak]. }
  apply Qplus_le_l. unfold Qdiv. apply Qmult_le_compat_r; [done | by apply Qlt_le_weak].
Qed.

Lemma binw_positive k : 0 < binw W0 DWLOG np_exp k.
Proof.
  unfold binw, bin_edge.
  assert (np_exp ((inject_Z (Z.of_nat k) - (1 # 2)) * DWLOG)
          < np_exp ((inject_Z (Z.of_nat (S k)) - (1 # 2)) * DWLOG)) as H.
  { apply np_exp_increasing. rewrite Nat2Z.inj_succ.
    unfold Z.succ. rewrite inject_Z_plus. change (inject_Z 1) with 1.
    generalize (inject_Z (Z.of_nat k)). intros a.
    apply Qlt_minus_iff. ring_simplify. done. }
  revert H. generalize (np_exp ((inject_Z (Z.of_nat k) - (1 # 2)) * DWLOG)).
  generalize (np_exp ((inject_Z (Z.of_nat (S k)) - (1 # 2)) * DWLOG)).
  intros e2 e1 H. apply Qlt_minus_iff in H.
  assert (W0 * e2 - W0 * e1 == W0 * (e2 + - e1)) as -> by ring.
  by apply Qmult_lt_0_compat.
Qed.

(** A bin outside the coverage does not overlap a pixel between the
    edges. *)
Lemma no_overlap_outside lo hi a b (j : nat) :
  lo <= a -> b <= hi ->
  (hi <= inject_Z (Z.of_nat j) + 1 \/ inject_Z (Z.of_nat j) + 2 <= lo) ->
  Qmin b (inject_Z (Z.of_nat j + 1) + 1) - Qmax a (inject_Z (Z.of_nat j + 1)) <= 0.
Proof.
  intros Ha Hb Hout. rewrite inject_Z_plus.
  pose proof (Q.le_min_l b (inject_Z (Z.of_nat j) + inject_Z 1 + 1)).
  pose proof (Q.le_min_r b (inject_Z (Z.of_nat j) + inject_Z 1 + 1)).
  pose proof (Q.le_max_l a (inject_Z (Z.of_nat j) + inject_Z 1)).
  pose proof (Q.le_max_r a (inject_Z (Z.of_nat j) + inject_Z 1)).
  change (inject_Z 1) with 1 in *.
  destruct Hout; lra.
Qed.


(** One bin of one pixel: the accumulator keeps its length, and a bin that
    does not overlap the pixel keeps its zero. *)
Lemma rebin_bin_keeps_zero fsrc l a b dl i fdest :
  length fdest = NW -> (1 <= i <= Z.of_nat NW)%Z -> (l < length fsrc)%nat ->
  exists fdest',
    rebin_bin fsrc l a b dl i fdest = Ok fdest' /\
    length fdest' = NW /\
    forall j : nat,
      ((Z.of_nat j + 1)%Z = i -> Qmin b (inject_Z i + 1) - Qmax a (inject_Z i) <= 0) ->
      fdest !! j = Some 0 -> fdest' !! j = Some 0.
Proof.
  intros Hlen Hi Hl. unfold rebin_bin.
  destruct (Qle_bool _ 0) eqn:Ealen; [by eauto|].
  destruct (getitem_in_range fsrc (Z.of_nat l)) as (f & -> & _); [lia|]. cbn.
  unfold add_at.
  destruct (getitem_in_range fdest (i - 1)) as (x & -> & _); [lia|]. cbn.
  rewrite setitem_in_range by lia.
  eexists. split; [done|]. split; [by rewrite length_insert|].
  intros j Hout Hj.
  rewrite list_lookup_insert_ne; [done|].
  intros Heq. apply Qle_bool_false in Ealen.
  assert ((Z.of_nat j + 1)%Z = i) as Hji by lia.
  specialize (Hout Hji). lra.
Qed.

(** One pixel between positive edges. *)
Lemma rebin_pixel_keeps_zero s fsrc l fdest e0 eN :
  (forall x, x ∈ s -> e0 <= x <= eN) -> 0 < e0 ->
  (S l < length s)%nat -> (l < length fsrc)%nat ->
  Spec.zero_outside_coverage NW W0 DWLOG np_log e0 eN fdest ->
  exists fdest',
    rebin_pixel NW W0 DWLOG np_log s fsrc l fdest = Ok fdest' /\
    Spec.zero_outside_coverage NW W0 DWLOG np_log e0 eN fdest'.
Proof.
  intros Hs He0 Hl Hfsrc Hzero. unfold rebin_pixel.
  destruct (lookup_lt_is_Some_2 s l) as [sl Hsl]; [lia|].
  destruct (lookup_lt_is_Some_2 s (S l)) as [sl1 Hsl1]; [lia|].
  rewrite (getitem_lookup _ _ _ Hsl). cbn.
  replace (Z.of_nat l + 1)%Z with (Z.of_nat (S l)) by lia.
  rewrite (getitem_lookup _ _ _ Hsl1). cbn.
  destruct (Hs sl) as [Hsl_lo Hsl_hi]; [by eapply list_elem_of_lookup_2|].
  destruct (Hs sl1) as [Hsl1_lo Hsl1_hi]; [by eapply list_elem_of_lookup_2|].
  assert (0 < sl) as Hsl_pos by lra. assert (0 < sl1) as Hsl1_pos by lra.
  rewrite !slog_of_positive by done. cbn.
  set (a := Spec.log_coord W0 DWLOG np_log sl).
  set (b := Spec.log_coord W0 DWLOG np_log sl1).
  apply (for_each_invariant (Spec.zero_outside_coverage NW W0 DWLOG np_log e0 eN)); [done|].
  intros i fd Hi [Hfd Hfdj]. apply elem_of_py_range in Hi.
  destruct (rebin_bin_keeps_zero fsrc l a b (sl1 - sl) i fd)
    as (fd' & -> & Hfd' & Hkeep); [done | lia | done |].
  exists fd'. split; [done|]. split; [done|].
  intros j Hout Hj. apply Hkeep; [|by apply Hfdj].
  intros <-.
  apply (no_overlap_outside (Spec.log_coord W0 DWLOG np_log e0)
                            (Spec.log_coord W0 DWLOG np_log eN)).
  - by apply log_coord_monotone.
  - by apply log_coord_monotone.
  - destruct Hout; [by left | by right].
Qed.

(** C7, as the code has it.  For an increasing wavelength array with at
    least two samples, a flux array of the same length, and a positive
    first pixel edge [1.5 * wave[0] - 0.5 * wave[1]], [log_rebin] returns
    two arrays of length [NW], and every bin outside the coverage of the
    pixel edges is 0 (divided by a positive bin width). *)
Theorem log_rebin_zero_outside_coverage (wave fsrc s : list Q) :
  StronglySorted Qlt wave ->
  (2 <= length wave)%nat ->
  length fsrc = length wave ->
  pixel_edges wave = Ok s ->
  0 < default 0 (head s) ->
  exists log_wave fdest,
    log_rebin NW W0 DWLOG np_log np_exp wave fsrc = Ok (log_wave, fdest) /\
    length log_wave = NW /\
    length fdest = NW /\
    forall j x,
      Spec.outside_coverage W0 DWLOG np_log (default 0 (head s)) (default 0 (last s)) j ->
      fdest !! j = Some x ->
      x == 0 /\ 0 < binw W0 DWLOG np_exp j.
Proof.
  intros Hsorted Hlen2 Hfsrc Hs Hpos. unfold log_rebin. rewrite Hs. cbn.
  destruct (pixel_edges_bounds wave s Hsorted Hs) as (e0 & eN & Hh & Hl & Hlen & Hb).
  rewrite Hh, Hl in *. simpl in Hpos |- *.
  destruct (for_each_invariant (Spec.zero_outside_coverage NW W0 DWLOG np_log e0 eN) (seq 0 (length wave))
              (rebin_pixel NW W0 DWLOG np_log s fsrc) (replicate NW 0))
    as (fdest & -> & Hlenf & Hzero).
  { split; [apply length_replicate|]. intros j _ Hj. by apply lookup_replicate_2. }
  { intros l fd Hl' Hfd. apply elem_of_seq in Hl'.
    apply (rebin_pixel_keeps_zero s fsrc l fd e0 eN); [done | done | lia | lia | done]. }
  cbn. do 2 eexists. split; [done|].
  split; [by rewrite length_map, length_seq|].
  split; [by rewrite length_imap|].
  intros j x Hout Hx. rewrite list_lookup_imap in Hx.
  destruct (fdest !! j) as [y|] eqn:Hy; [|done].
  pose proof (lookup_lt_Some _ _ _ Hy) as Hj. rewrite Hlenf in Hj.
  rewrite (Hzero j Hout Hj) in Hy. simplify_eq/=.
  split; [|apply binw_positive].
  unfold Qdiv. ring.
Qed.

End LogRebinFacts.

Lemma log_rebin_zero_outside_coverage_witness :
  exists log_wave fdest,
    log_rebin Spec.default_NW Spec.default_W0 Spec.default_DWLOG
      (fun x => x - 1) (fun x => 1 + x) [3000; 3500; 4000] [1; 1; 1]
    = Ok (log_wave, fdest) /\
    length fdest = Spec.default_NW /\
    forall x, fdest !! 1023%nat = Some x -> x == 0.
Proof.
  edestruct (log_rebin_zero_outside_coverage Spec.default_NW Spec.default_W0
               Spec.default_DWLOG (fun x => x - 1) (fun x => 1 + x)
               ltac:(reflexivity) ltac:(reflexivity)
               ltac:(intros; cbv beta; lra) ltac:(intros; cbv beta; lra)
               [3000; 3500; 4000] [1; 1; 1])
    as (log_wave & fdest & Heq & _ & Hlen & Hzero).
  - repeat constructor.
  - simpl; lia.
  - reflexivity.
  - reflexivity.
  - reflexivity.
  - exists log_wave, fdest. repeat split; [done | done |].
    intros x Hx. apply (Hzero 1023%nat x); [|done].
    left. by vm_compute.
Defined.

(** C7 as worded fails: the samples 1 and 4 are increasing, but the first
    extrapolated edge is -0.5, its logarithm is NaN and [int] raises,
    whatever [np.log] and [np.exp] are on the positive numbers. *)
Lemma log_rebin_raises_on_nonpositive_edge :
  ~ exists np_log np_exp,
      Spec.log_rebin_rule Spec.default_NW Spec.default_W0 Spec.default_DWLOG np_log np_exp.
Proof.
  intros (lg & ex & H).
  destruct (H [1; 4] [1; 1]) as (log_wave & fdest & s & Heq & _).
  - repeat constructor.
  - simpl; lia.
  - reflexivity.
  - vm_compute in Heq. discriminate Heq.
Qed.

Example log_rebin_nonpositive_edge np_log np_exp :
  log_rebin Spec.default_NW Spec.default_W0 Spec.default_DWLOG np_log np_exp [1; 4] [1; 1]
  = Raise (ValueError "cannot convert float NaN to integer").
Proof. by vm_compute. Qed.

(** ** [fit_continuum_spline] *)

Lemma np_diff_length (v : list Q) : length (np_diff v) = (length v - 1)%nat.
Proof. unfold np_diff. rewrite length_zip_with. destruct v; cbn [length tail]; lia. Qed.

Lemma init_length (v : list Q) : length (init v) = (length v - 1)%nat.
Proof. unfold init. rewrite length_take. lia. Qed.

Lemma tail_length (v : list Q) : length (tail v) = (length v - 1)%nat.
Proof. destruct v; simpl; lia. Qed.

Lemma chop_left_Ok flux steps l1 nuked :
  (0 <= l1)%Z -> (l1 + Z.of_nat steps < Z.of_nat (length flux))%Z ->
  exists l1', chop_left flux steps l1 nuked = Ok l1' /\
              (l1 <= l1' <= l1 + Z.of_nat steps)%Z.
Proof.
  revert l1 nuked. induction steps as [|steps IH]; intros l1 nuked Hl1 Hn; simpl.
  - exists l1. split; [done | lia].
  - destruct (getitem_in_range flux l1) as (f & -> & _); [lia|]. cbn.
    destruct (Qle_bool f 0 || (nuked <? 1)%Z).
    + destruct (IH (l1 + 1)%Z (if Qltb 0 f then nuked + 1 else nuked)%Z)
        as (l1' & -> & Hb); [lia | lia |].
      exists l1'. split; [done | lia].
    + exists l1. split; [done | lia].
Qed.

Lemma chop_right_Ok flux steps l2 nuked :
  (Z.of_nat steps <= l2)%Z -> (l2 < Z.of_nat (length flux))%Z ->
  exists l2', chop_right flux steps l2 nuked = Ok l2' /\
              (l2 - Z.of_nat steps <= l2' <= l2)%Z.
Proof.
  revert l2 nuked. induction steps as [|steps IH]; intros l2 nuked Hl2 Hn; simpl.
  - exists l2. split; [done | lia].
  - destruct (getitem_in_range flux l2) as (f & -> & _); [lia|]. cbn.
    destruct (Qle_bool f 0 || (nuked <? 1)%Z).
    + destruct (IH (l2 - 1)%Z (if Qltb 0 f then nuked + 1 else nuked)%Z)
        as (l2' & -> & Hb); [lia | lia |].
      exists l2'. split; [done | lia].
    + exists l2. split; [done | lia].
Qed.

Section ContinuumFacts.
Variables np_log10 pow10 : Q -> Q.

Lemma knot_step_Ok flux l1 l2 istart kwidth i st :
  (0 <= i < Z.of_nat (length flux))%Z -> kwidth <> 0%Z ->
  length (xknot st) = length (yknot st) ->
  exists st', knot_step np_log10 flux l1 l2 istart kwidth i st = Ok st' /\
              length (xknot st') = length (yknot st').
Proof.
  intros Hi Hk Hlen. unfold knot_step.
  destruct (getitem_in_range flux i) as (f & Hf & _); [done|].
  assert (exists st1,
    (if ((l1 <? i) && (i <? l2))%Z
     then f ← getitem flux i;
          if Qltb 0 f
          then Ok {| nave := nave st + 1;
                     sum_x := sum_x st + (inject_Z i - (1 # 2));
                     sum_y := sum_y st + np_log10 f;
                     xknot := xknot st; yknot := yknot st |}
          else Ok st
     else Ok st) = Ok st1 /\ length (xknot st1) = length (yknot st1))
    as (st1 & -> & Hlen1).
  { destruct (_ && _)%Z; [|by eauto]. rewrite Hf. cbn.
    destruct (Qltb 0 f); eauto. }
  cbn. unfold py_mod. destruct (Z.eqb_spec kwidth 0); [done|]. cbn.
  destruct (_ && _); [|by eauto].
  eexists. split; [done|]. simpl. rewrite !length_app. simpl. lia.
Qed.

Lemma place_knots_Ok flux l1 l2 istart kwidth :
  kwidth <> 0%Z ->
  exists knots, place_knots np_log10 flux l1 l2 istart kwidth = Ok knots /\
                length (xknot knots) = length (yknot knots).
Proof.
  intros Hk. unfold place_knots.
  apply (for_each_invariant (fun st => length (xknot st) = length (yknot st))); [done|].
  intros i st Hi Hst. apply elem_of_py_range in Hi.
  apply knot_step_Ok; [lia | done | done].
Qed.

Lemma sweep_step_Ok A C rhs i u z (m : nat) :
  length A = m -> length C = m -> length rhs = m ->
  length u = m -> length z = m -> (1 <= i < Z.of_nat m)%Z ->
  exists u' z', sweep_step A C rhs i (u, z) = Ok (u', z') /\
                length u' = m /\ length z' = m.
Proof.
  intros HA HC Hr Hu Hz Hi. unfold sweep_step.
  destruct (getitem_in_range C (i - 1)) as (c & -> & _); [lia|]. cbn.
  destruct (getitem_in_range u (i - 1)) as (up & -> & _); [lia|]. cbn.
  destruct (getitem_in_range A i) as (a & -> & _); [lia|]. cbn.
  rewrite setitem_in_range by lia. cbn.
  destruct (getitem_in_range rhs i) as (r & -> & _); [lia|]. cbn.
  destruct (getitem_in_range z (i - 1)) as (zp & -> & _); [lia|]. cbn.
  rewrite setitem_in_range by lia. cbn.
  do 2 eexists. split; [done|]. by rewrite !length_insert.
Qed.

Lemma back_step_Ok C u z i y2 (m : nat) :
  length C = m -> length u = m -> length z = m -> length y2 = (m + 2)%nat ->
  (0 <= i < Z.of_nat m - 1)%Z ->
  exists y2', back_step C u z i y2 = Ok y2' /\ length y2' = (m + 2)%nat.
Proof.
  intros HC Hu Hz Hy Hi. unfold back_step.
  destruct (getitem_in_range z i) as (zi & -> & _); [lia|]. cbn.
  destruct (getitem_in_range C i) as (ci & -> & _); [lia|]. cbn.
  destruct (getitem_in_range y2 (i + 2)) as (y & -> & _); [lia|]. cbn.
  destruct (getitem_in_range u i) as (ui & -> & _); [lia|]. cbn.
  rewrite setitem_in_range by lia.
  eexists. split; [done|]. by rewrite length_insert.
Qed.


Lemma spline_y2_Ok xk yk :
  length xk = length yk -> (3 <= length xk)%nat ->
  exists y2, spline_y2 xk yk = Ok y2 /\ length y2 = length xk.
Proof.
  intros Hlen H3. unfold spline_y2.
  set (h := np_diff xk).
  set (slope := zip_with Qdiv (np_diff yk) h).
  set (rhs := zip_with _ (tail slope) (init slope)).
  set (A := zip_with _ (init h) (tail h)).
  set (m := (length xk - 2)%nat).
  assert (length h = S m) as Hh by (unfold h; rewrite np_diff_length; lia).
  assert (length slope = S m) as Hslope
    by (unfold slope; rewrite length_zip_with, np_diff_length; lia).
  assert (length rhs = m) as Hrhs
    by (unfold rhs; rewrite length_zip_with, tail_length, init_length; lia).
  assert (length A = m) as HA
    by (unfold A; rewrite length_zip_with, tail_length, init_length; lia).
  assert (length (tail h) = m) as HC by (rewrite tail_length; lia).
  assert (length (zeros_like A) = m) as Hu by (unfold zeros_like; by rewrite length_replicate).
  assert (length (zeros_like rhs) = m) as Hz
    by (unfold zeros_like; by rewrite length_replicate).
  assert (1 <= m)%nat as Hm by lia.
  destruct (getitem_in_range A 0) as (a0 & -> & _); [lia|]. cbn.
  destruct (getitem_in_range rhs 0) as (r0 & -> & _); [lia|]. cbn.
  rewrite !setitem_in_range by lia. cbn.
  destruct (for_each_invariant (fun uz => length uz.1 = m /\ length uz.2 = m)
              (py_range 1 (Z.of_nat (length rhs))) (sweep_step A (tail h) rhs)
              (<[Z.to_nat 0:=a0]> (zeros_like A), <[Z.to_nat 0:=r0]> (zeros_like rhs)))
    as ([u z] & -> & Hu' & Hz').
  { simpl. by rewrite !length_insert. }
  { intros i [u z] Hi [Hu1 Hz1]. apply elem_of_py_range in Hi. cbn [fst snd] in *.
    destruct (sweep_step_Ok A (tail h) rhs i u z m) as (u' & z' & -> & ? & ?);
      try done; [lia|].
    by eexists (_, _). }
  simpl in Hu', Hz'. cbn.
  destruct (Nat.ltb_spec 0 (length rhs)) as [_|]; [|lia].
  pose proof (getitem_last z 1 ltac:(lia)) as (zl & Hzl).
  change (getitem z (-1) = Ok zl) in Hzl. rewrite Hzl. cbn.
  pose proof (getitem_last u 1 ltac:(lia)) as (ul & Hul).
  change (getitem u (-1) = Ok ul) in Hul. rewrite Hul. cbn.
  pose proof (setitem_last (replicate (length xk) 0) 2 (zl / ul)
                ltac:(rewrite length_replicate; lia)) as (y2 & Hy2 & Hy2len).
  change (setitem (replicate (length xk) 0) (-2) (zl / ul) = Ok y2) in Hy2.
  rewrite Hy2. cbn. rewrite length_replicate in Hy2len.
  destruct (for_each_invariant (fun y => length y = (m + 2)%nat)
              (reverse (py_range 0 (Z.of_nat (length rhs) - 1))) (back_step (tail h) u z) y2)
    as (y2' & -> & Hy2').
  { lia. }
  { intros i y Hi Hy. apply elem_of_reverse, elem_of_py_range in Hi.
    apply (back_step_Ok (tail h) u z i y m); try done. lia. }
  exists y2'. split; [|lia].
  destruct (length rhs); [lia | done].
Qed.

Lemma spline_eval_Ok xk yk y2 j :
  length yk = length xk -> length y2 = length xk -> (2 <= length xk)%nat ->
  exists c, spline_eval pow10 xk yk y2 j = Ok c.
Proof.
  intros Hyk Hy2 H2. unfold spline_eval.
  set (idx := Z.min (Z.max _ 0) _).
  assert (0 <= idx <= Z.of_nat (length xk) - 2)%Z as Hidx by (unfold idx; lia).
  destruct (getitem_in_range xk (idx + 1)) as (x1 & -> & _); [lia|]. cbn.
  destruct (getitem_in_range xk idx) as (x0 & -> & _); [lia|]. cbn.
  destruct (getitem_in_range yk idx) as (y0 & -> & _); [lia|]. cbn.
  destruct (getitem_in_range yk (idx + 1)) as (y1 & -> & _); [lia|]. cbn.
  destruct (getitem_in_range y2 idx) as (d0 & -> & _); [lia|]. cbn.
  destruct (getitem_in_range y2 (idx + 1)) as (d1 & -> & _); [lia|]. cbn.
  by eexists.
Qed.


Lemma flatten_by_length flux cont :
  length cont = length flux -> length (flatten_by flux cont) = length flux.
Proof. intros H. unfold flatten_by. rewrite length_zip_with. lia. Qed.

(** C10.  On every flux array, for every [knotnum] and [izoff], the
    function returns a pair of arrays as long as the input: no index is out
    of range and no integer modulus is by zero.  With fewer than 10
    samples, [knotnum < 3], a usable range shorter than [3 * knotnum], or
    fewer than 3 knots, the pair is all zeros and all ones. *)
Theorem fit_continuum_spline_never_raises (flux : list Q) (knotnum izoff : Z) :
  exists flat cont,
    fit_continuum_spline np_log10 pow10 flux knotnum izoff = Ok (flat, cont) /\
    length flat = length flux /\
    length cont = length flux /\
    (Spec.no_continuum_case np_log10 flux knotnum izoff ->
     flat = zeros_like flux /\ cont = ones_like flux).
Proof.
  unfold fit_continuum_spline.
  assert (exists flat cont,
            Ok (zeros_like flux, ones_like flux) = Ok (flat, cont) /\
            length flat = length flux /\ length cont = length flux /\
            (Spec.no_continuum_case np_log10 flux knotnum izoff ->
             flat = zeros_like flux /\ cont = ones_like flux)) as Htrivial.
  { do 2 eexists. split; [done|].
    unfold zeros_like, ones_like. by rewrite !length_replicate. }
  destruct (orb _ _) eqn:Hsmall; [done|].
  apply orb_false_iff in Hsmall as [Hn Hk].
  apply Z.ltb_ge in Hn, Hk.
  destruct (chop_left_Ok flux (length flux - 1) 0 0) as (l1 & Hl1 & Hl1b); [lia | lia |].
  destruct (chop_right_Ok flux (length flux - 2) (Z.of_nat (length flux) - 1) 0)
    as (l2 & Hl2 & Hl2b); [lia | lia |].
  rewrite Hl1. cbn. rewrite Hl2. cbn.
  assert (Spec.usable_range flux = Some (l1, l2)) as Hrange
    by (unfold Spec.usable_range; by rewrite Hl1, Hl2).
  destruct (Z.ltb_spec (l2 - l1) (3 * knotnum)) as [|Hlong]; [done|].
  set (kwidth := (Z.of_nat (length flux) / knotnum)%Z).
  assert (1 <= kwidth)%Z as Hkw by (apply Z.div_le_lower_bound; lia).
  assert ((if (0 <? izoff)%Z
           then r ← py_mod izoff kwidth; Ok (r - kwidth)%Z
           else Ok 0%Z)
          = Ok (if (0 <? izoff)%Z then (izoff mod kwidth - kwidth)%Z else 0%Z)) as ->.
  { destruct (0 <? izoff)%Z; [|done]. unfold py_mod.
    by destruct (Z.eqb_spec kwidth 0); [lia|]. }
  cbn.
  destruct (place_knots_Ok flux l1 l2
              (if (0 <? izoff)%Z then (izoff mod kwidth - kwidth)%Z else 0%Z) kwidth)
    as (knots & Hknots & Hklen); [lia|].
  rewrite Hknots. cbn.
  assert (Spec.knots_placed np_log10 flux knotnum izoff = Some (length (xknot knots)))
    as Hplaced.
  { unfold Spec.knots_placed. rewrite Hrange. fold kwidth. by rewrite Hknots. }
  destruct (Nat.leb_spec (length (xknot knots)) 2) as [|Hnk]; [done|].
  destruct (spline_y2_Ok (xknot knots) (yknot knots)) as (y2 & -> & Hy2); [done | lia |].
  cbn.
  destruct (mapM_result_Ok (spline_eval pow10 (xknot knots) (yknot knots) y2)
              (py_range 0 (Z.of_nat (length flux)))) as (cont & -> & Hcont).
  { intros j _. apply spline_eval_Ok; [done | done | lia]. }
  cbn. rewrite py_range_length in Hcont.
  assert (length cont = length flux) as Hcont' by lia.
  do 2 eexists. split; [done|].
  split; [by apply flatten_by_length|]. split; [done|].
  intros [?|[?|[(l1' & l2' & Hr & ?)|(nk & Hp & ?)]]]; try lia.
  - rewrite Hrange in Hr. simplify_eq. lia.
  - rewrite Hplaced in Hp. simplify_eq. lia.
Qed.

End ContinuumFacts.

Lemma fit_continuum_spline_never_raises_witness :
  fit_continuum_spline (fun x => x - 1) (fun x => 1 + x) [1; 2; 3; 4; 5] 13 0
  = Ok (replicate 5 0, replicate 5 1).
Proof.
  destruct (fit_continuum_spline_never_raises (fun x => x - 1) (fun x => 1 + x)
              [1; 2; 3; 4; 5] 13 0) as (flat & cont & -> & _ & _ & Htrivial).
  destruct Htrivial as [-> ->]; [|done].
  left. simpl. lia.
Defined.


(** ** The identify command *)

Section IdentifyFacts.
Import Identify.
Variable path_stem : string -> string.

(** C5 at the failing input: the analysis returns a result that is not a
    success; the exit code is 1, but both lines of the report, the one
    with [ERROR] after a newline included, are printed to stdout and
    nothing reaches stderr. *)
Theorem analysis_failure_is_reported_on_stdout :
  main path_stem Spec.sample_args Spec.failing_world
  = (Returns 1%Z,
     [ (Stdout, "🔍 Starting SNID analysis...");
       (Stdout, carriage_return +:+ "[SUCCESS] Analysis failed");
       (Stdout, "");
       (Stdout, newline +:+ "[ERROR] SNID analysis failed for "
                  +:+ path_stem "data/sn2024abc.dat");
       (Stdout, "   Error: No good matches") ]%string).
Proof. reflexivity. Qed.

Lemma analysis_failure_breaks_rule : ~ Spec.errors_on_stderr_rule path_stem.
Proof.
  intros H. destruct (H Spec.sample_args Spec.failing_world eq_refl) as [[text Hin] _].
  change (main path_stem Spec.sample_args Spec.failing_world).2
    with [ (Stdout, "🔍 Starting SNID analysis...");
           (Stdout, carriage_return +:+ "[SUCCESS] Analysis failed");
           (Stdout, "");
           (Stdout, newline +:+ "[ERROR] SNID analysis failed for "
                      +:+ path_stem "data/sn2024abc.dat");
           (Stdout, "   Error: No good matches") ]%string in Hin.
  repeat (apply elem_of_cons in Hin as [Hin|Hin]; [discriminate Hin|]).
  by apply elem_of_nil in Hin.
Qed.

End IdentifyFacts.


(** ** Clipping and masking *)

Lemma mask_select_zip {T U} (keep : list bool) (v : list T) (u : list U) :
  length v = length keep -> length u = length keep ->
  zip (mask_select keep v) (mask_select keep u) = mask_select keep (zip v u).
Proof.
  revert v u. induction keep as [|b keep IH]; intros [|x v] [|y u] Hv Hu; simplify_eq/=;
    try done.
  destruct b; simpl; by rewrite IH.
Qed.

Lemma mask_select_filter {T} (p : T -> bool) (v : list T) :
  mask_select (map p v) v = List.filter p v.
Proof. induction v as [|x v IH]; simpl; [done|]. destruct (p x); by rewrite IH. Qed.

Lemma mask_select_map_fst {T U} (p : T -> bool) (v : list T) (u : list U) :
  length u = length v ->
  mask_select (map p v) (zip v u) = List.filter (fun q => p q.1) (zip v u).
Proof.
  revert u. induction v as [|x v IH]; intros [|y u] Hu; simplify_eq/=; try done.
  destruct (p x); by rewrite IH.
Qed.

Lemma drop_band_length w keep a b :
  length keep = length w -> length (drop_band w keep a b) = length w.
Proof. intros H. unfold drop_band. rewrite length_zip_with, length_map. lia. Qed.

(** The mask after dropping the ranges one by one. *)
Lemma drop_bands_spec (w : list Q) (ranges : list (Q * Q)) (keep : list bool) :
  length keep = length w ->
  foldl (fun keep r => drop_band w keep r.1 r.2) keep ranges
  = zip_with andb keep (map (Spec.outside_all ranges) w).
Proof.
  revert keep. induction ranges as [|[a b] ranges IH]; intros keep Hlen; simpl.
  - revert keep Hlen. induction w as [|x w IHw]; intros [|k keep] Hlen; simplify_eq/=;
      try done.
    by rewrite andb_true_r, <- IHw.
  - rewrite IH by by apply drop_band_length.
    unfold drop_band. clear IH.
    revert keep Hlen. induction w as [|x w IHw]; intros [|k keep] Hlen; simplify_eq/=;
      try done.
    rewrite IHw by done. f_equal.
    unfold Spec.outside_all. simpl. by rewrite andb_assoc.
Qed.

Lemma zip_with_andb_true {T} (p : T -> bool) (w : list T) :
  zip_with andb (replicate (length w) true) (map p w) = map p w.
Proof. induction w as [|x w IH]; simpl; [done | by rewrite IH]. Qed.

Lemma select_both_spec (p : Q -> bool) (w f : list Q) :
  length f = length w ->
  exists w' f',
    select_both (map p w) w f = Ok (w', f') /\
    zip w' f' = List.filter (fun q => p q.1) (zip w f) /\
    w' = List.filter p w /\
    length w' = length f'.
Proof.
  intros Hf. unfold select_both, np_mask.
  rewrite length_map, Nat.eqb_refl. cbn. rewrite Hf, Nat.eqb_refl. cbn.
  do 2 eexists. split; [done|].
  assert (zip (mask_select (map p w) w) (mask_select (map p w) f)
          = List.filter (fun q => p q.1) (zip w f)) as Hzip.
  { rewrite mask_select_zip by (rewrite length_map; done).
    by apply mask_select_map_fst. }
  split; [done|]. split; [apply mask_select_filter|].
  clear Hzip. revert f Hf. induction w as [|x w IH]; intros [|y f] Hf; simplify_eq/=;
    try done.
  destruct (p x); simpl; [f_equal|]; by apply IH.
Qed.

Lemma select_both_mismatch (keep : list bool) (w f : list Q) :
  length w = length keep -> length f <> length w ->
  select_both keep w f = Raise IndexError.
Proof.
  intros Hw Hf. unfold select_both, np_mask. rewrite Hw, Nat.eqb_refl. cbn.
  destruct (Nat.eqb_spec (length f) (length keep)); [congruence | done].
Qed.

Section WavelengthMaskFacts.
Variable float_str : Q -> string.

Lemma mask_ranges_Ok (w : list Q) (ranges : list (Q * Q)) (keep : list bool) :
  Forall (fun r => r.1 <= r.2) ranges ->
  mask_ranges float_str w keep ranges
  = Ok (foldl (fun keep r => drop_band w keep r.1 r.2) keep ranges).
Proof.
  revert keep. induction ranges as [|[a b] ranges IH]; intros keep Hr; simpl; [done|].
  apply Forall_cons in Hr as [Hab Hr]. simpl in Hab.
  destruct (Qltb b a) eqn:E; [apply Qltb_lt in E; lra|].
  by apply IH.
Qed.

Lemma apply_wavelength_mask_Ok (w f : list Q) (ranges : list (Q * Q)) :
  length f = length w ->
  Forall (fun r => r.1 <= r.2) ranges ->
  exists w' f',
    apply_wavelength_mask float_str w f ranges = Ok (w', f') /\
    zip w' f' = Spec.kept_pairs ranges w f /\
    length w' = length f' /\
    forall x a b, x ∈ w' -> (a, b) ∈ ranges -> ~ (a <= x /\ x <= b).
Proof.
  intros Hf Hr. unfold apply_wavelength_mask.
  rewrite mask_ranges_Ok by done. cbn.
  rewrite drop_bands_spec by apply length_replicate.
  rewrite zip_with_andb_true.
  destruct (select_both_spec (Spec.outside_all ranges) w f Hf)
    as (w' & f' & -> & Hzip & Hw' & Hlen).
  exists w', f'. repeat split; try done.
  intros x a b Hx Hab [Ha Hb]. subst w'.
  apply list_elem_of_In, filter_In in Hx as [_ Hout].
  unfold Spec.outside_all in Hout. rewrite forallb_forall in Hout.
  apply list_elem_of_In in Hab. specialize (Hout _ Hab). simpl in Hout.
  apply negb_true_iff in Hout. unfold in_band in Hout.
  apply Qle_bool_iff in Ha, Hb. by rewrite Ha, Hb in Hout.
Qed.

(** X1.  With ranges [a <= b] and arrays of one length, the mask keeps exactly
    the (wavelength, flux) pairs whose wavelength lies in none of the
    ranges, in their order. *)
Theorem apply_wavelength_mask_keeps_outside (w f : list Q) (ranges : list (Q * Q)) :
  length f = length w ->
  Forall (fun r => r.1 <= r.2) ranges ->
  exists w' f',
    apply_wavelength_mask float_str w f ranges = Ok (w', f') /\
    zip w' f' = Spec.kept_pairs ranges w f /\
    length w' = length f' /\
    forall x a b, x ∈ w' -> (a, b) ∈ ranges -> ~ (a <= x /\ x <= b).
Proof. apply apply_wavelength_mask_Ok. Qed.

(** X2.  The first range with [b < a] stops the function with a
    [ValueError] that names it, whatever the arrays are. *)
Theorem apply_wavelength_mask_inverted_range
    (w f : list Q) (before after : list (Q * Q)) (a b : Q) :
  Forall (fun r => r.1 <= r.2) before ->
  b < a ->
  apply_wavelength_mask float_str w f (before ++ (a, b) :: after)
  = Raise (ValueError ("mask (" +:+ float_str a +:+ "," +:+ float_str b +:+ ") has b < a")).
Proof.
  intros Hbefore Hba. unfold apply_wavelength_mask.
  generalize (replicate (length w) true).
  induction Hbefore as [|[a' b'] before Hab _ IH]; intros keep; simpl.
  - apply Qltb_lt in Hba. by rewrite Hba.
  - simpl in Hab. destruct (Qltb b' a') eqn:E; [apply Qltb_lt in E; lra|].
    apply IH.
Qed.

End WavelengthMaskFacts.

Lemma apply_wavelength_mask_keeps_outside_witness :
  exists w' f',
    apply_wavelength_mask (fun _ => "x"%string) [1; 2; 3] [10; 20; 30] [(2, 2)]
    = Ok (w', f') /\
    zip w' f' = Spec.kept_pairs [(2, 2)] [1; 2; 3] [10; 20; 30] /\
    length w' = length f' /\
    forall x a b, x ∈ w' -> (a, b) ∈ [(2, 2)] -> ~ (a <= x /\ x <= b).
Proof.
  apply (apply_wavelength_mask_keeps_outside (fun _ => "x"%string)
           [1; 2; 3] [10; 20; 30] [(2, 2)]).
  - reflexivity.
  - repeat constructor. simpl. lra.
Defined.

Lemma apply_wavelength_mask_inverted_range_witness :
  apply_wavelength_mask (fun _ => "x"%string) [1; 2; 3] [10; 20] ([(1, 2)] ++ (3, 2) :: [])
  = Raise (ValueError "mask (x,x) has b < a").
Proof.
  apply (apply_wavelength_mask_inverted_range (fun _ => "x"%string)
           [1; 2; 3] [10; 20] [(1, 2)] [] 3 2).
  - repeat constructor. simpl. lra.
  - lra.
Defined.

(** Two arrays of one length are fixed by their pairs. *)
Lemma zip_eq_inv {T U} (a a' : list T) (b b' : list U) :
  length a = length b -> length a' = length b' ->
  zip a b = zip a' b' -> a = a' /\ b = b'.
Proof.
  intros Hab Hab' Hzip. split.
  - rewrite <- (fst_zip a b), <- (fst_zip a' b') by lia. by rewrite Hzip.
  - rewrite <- (snd_zip a b), <- (snd_zip a' b') by lia. by rewrite Hzip.
Qed.

Lemma filter_filter_andb {T} (p q : T -> bool) (l : list T) :
  List.filter q (List.filter p l) = List.filter (fun x => p x && q x) l.
Proof.
  induction l as [|x l IH]; simpl; [done|].
  destruct (p x); simpl; [|done]. destruct (q x); by rewrite IH.
Qed.

Lemma kept_pairs_app (r1 r2 : list (Q * Q)) (w f : list Q) :
  Spec.kept_pairs (r1 ++ r2) w f
  = List.filter (fun p => Spec.outside_all r2 p.1) (Spec.kept_pairs r1 w f).
Proof.
  unfold Spec.kept_pairs. rewrite filter_filter_andb.
  apply filter_ext. intros p. unfold Spec.outside_all. apply forallb_app.
Qed.

Section MaskComposition.
Variable float_str : Q -> string.

(** X3.  Masking in two passes is masking with all the ranges at once; in
    particular a second pass with the same ranges changes nothing. *)
Theorem apply_wavelength_mask_twice (w f w1 f1 : list Q) (r1 r2 : list (Q * Q)) :
  length f = length w ->
  Forall (fun r => r.1 <= r.2) r1 ->
  Forall (fun r => r.1 <= r.2) r2 ->
  apply_wavelength_mask float_str w f r1 = Ok (w1, f1) ->
  apply_wavelength_mask float_str w1 f1 r2
  = apply_wavelength_mask float_str w f (r1 ++ r2) /\
  apply_wavelength_mask float_str w1 f1 r1 = Ok (w1, f1).
Proof.
  intros Hf Hr1 Hr2 H1.
  destruct (apply_wavelength_mask_Ok float_str w f r1 Hf Hr1)
    as (w1' & f1' & E1 & Hzip1 & Hlen1 & _).
  rewrite H1 in E1. injection E1 as <- <-.
  assert (forall r, Forall (fun r => r.1 <= r.2) r ->
            apply_wavelength_mask float_str w1 f1 r
            = apply_wavelength_mask float_str w f (r1 ++ r)) as Hcompose.
  { intros r Hr.
    destruct (apply_wavelength_mask_Ok float_str w1 f1 r (eq_sym Hlen1) Hr)
      as (w2 & f2 & -> & Hzip2 & Hlen2 & _).
    destruct (apply_wavelength_mask_Ok float_str w f (r1 ++ r) Hf)
      as (w3 & f3 & -> & Hzip3 & Hlen3 & _); [by apply Forall_app|].
    rewrite kept_pairs_app, <- Hzip1 in Hzip3.
    unfold Spec.kept_pairs in Hzip2. rewrite <- Hzip3 in Hzip2.
    apply zip_eq_inv in Hzip2 as [-> ->]; done. }
  split; [by apply Hcompose|].
  rewrite (Hcompose r1 Hr1).
  destruct (apply_wavelength_mask_Ok float_str w f (r1 ++ r1) Hf)
    as (w3 & f3 & -> & Hzip3 & Hlen3 & _); [by apply Forall_app|].
  f_equal.
  assert (Spec.kept_pairs (r1 ++ r1) w f = Spec.kept_pairs r1 w f) as Hsame.
  { unfold Spec.kept_pairs. apply filter_ext. intros p.
    unfold Spec.outside_all. rewrite forallb_app. apply andb_diag. }
  rewrite Hsame, <- Hzip1 in Hzip3.
  apply zip_eq_inv in Hzip3 as [-> ->]; done.
Qed.

End MaskComposition.

Lemma apply_wavelength_mask_twice_witness :
  apply_wavelength_mask (fun _ => "x"%string) [1; 3] [10; 30] [(3, 4)]
  = apply_wavelength_mask (fun _ => "x"%string) [1; 2; 3] [10; 20; 30] ([(2, 2)] ++ [(3, 4)]) /\
  apply_wavelength_mask (fun _ => "x"%string) [1; 3] [10; 30] [(2, 2)] = Ok ([1; 3], [10; 30]).
Proof.
  apply (apply_wavelength_mask_twice (fun _ => "x"%string)
           [1; 2; 3] [10; 20; 30] [1; 3] [10; 30] [(2, 2)] [(3, 4)]).
  - reflexivity.
  - repeat constructor. simpl. lra.
  - repeat constructor. simpl. lra.
  - reflexivity.
Defined.

(** ** The clipping helpers *)

Lemma drop_bands_lines (w : list Q) (g : Q -> Q * Q) (lines : list Q) (keep : list bool) :
  foldl (fun keep l => drop_band w keep (g l).1 (g l).2) keep lines
  = foldl (fun keep r => drop_band w keep r.1 r.2) keep (map g lines).
Proof. revert keep. induction lines as [|l lines IH]; intros keep; simpl; [done | apply IH]. Qed.

(** The selection by a mask that drops the given ranges. *)
Lemma select_outside (w f : list Q) (ranges : list (Q * Q)) :
  length f = length w ->
  exists w' f',
    select_both
      (foldl (fun keep r => drop_band w keep r.1 r.2) (replicate (length w) true) ranges)
      w f = Ok (w', f') /\
    zip w' f' = Spec.kept_pairs ranges w f /\
    length w' = length f' /\
    forall x a b, x ∈ w' -> (a, b) ∈ ranges -> ~ (a <= x /\ x <= b).
Proof.
  intros Hf.
  rewrite drop_bands_spec by apply length_replicate.
  rewrite zip_with_andb_true.
  destruct (select_both_spec (Spec.outside_all ranges) w f Hf)
    as (w' & f' & -> & Hzip & Hw' & Hlen).
  exists w', f'. repeat split; try done.
  intros x a b Hx Hab [Ha Hb]. subst w'.
  apply list_elem_of_In, filter_In in Hx as [_ Hout].
  unfold Spec.outside_all in Hout. rewrite forallb_forall in Hout.
  apply list_elem_of_In in Hab. specialize (Hout _ Hab). simpl in Hout.
  apply negb_true_iff in Hout. unfold in_band in Hout.
  apply Qle_bool_iff in Ha, Hb. by rewrite Ha, Hb in Hout.
Qed.

(** X4.  [clip_sky_lines] keeps exactly the pairs whose wavelength is farther
    than [width] from every line, in their order. *)
Theorem clip_sky_lines_keeps_outside (w f : list Q) (width : Q) (lines : list Q) :
  length f = length w ->
  exists w' f',
    clip_sky_lines w f width lines = Ok (w', f') /\
    zip w' f' = Spec.kept_pairs (Spec.line_ranges width lines) w f /\
    length w' = length f' /\
    forall x l, x ∈ w' -> l ∈ lines -> ~ (l - width <= x /\ x <= l + width).
Proof.
  intros Hf. unfold clip_sky_lines.
  rewrite (drop_bands_lines w (fun l => (l - width, l + width))).
  destruct (select_outside w f (Spec.line_ranges width lines) Hf)
    as (w' & f' & E & Hzip & Hlen & Hout).
  exists w', f'. repeat split; try done.
  intros x l Hx Hl. apply Hout; [done|].
  unfold Spec.line_ranges. apply list_elem_of_fmap. by exists l.
Qed.

Lemma clip_sky_lines_keeps_outside_witness :
  exists w' f',
    clip_sky_lines [5500; 5580; 6000] [1; 2; 3] 40 default_sky_lines = Ok (w', f') /\
    zip w' f' = Spec.kept_pairs (Spec.line_ranges 40 default_sky_lines)
                  [5500; 5580; 6000] [1; 2; 3] /\
    length w' = length f' /\
    forall x l, x ∈ w' -> l ∈ default_sky_lines -> ~ (l - 40 <= x /\ x <= l + 40).
Proof.
  apply (clip_sky_lines_keeps_outside [5500; 5580; 6000] [1; 2; 3] 40 default_sky_lines).
  reflexivity.
Defined.

(** X5.  At a redshift that is not negative, [clip_host_emission_lines] keeps
    exactly the pairs whose wavelength is farther than [width] from every
    redshifted host line. *)
Theorem clip_host_emission_lines_keeps_outside (w f : list Q) (z width : Q) :
  0 <= z ->
  length f = length w ->
  exists w' f',
    clip_host_emission_lines w f z width = Ok (w', f') /\
    zip w' f'
    = Spec.kept_pairs
        (Spec.line_ranges width (map (fun l => l * (1 + z)) host_rest_lines)) w f /\
    length w' = length f' /\
    forall x l, x ∈ w' -> l ∈ host_rest_lines ->
      ~ (l * (1 + z) - width <= x /\ x <= l * (1 + z) + width).
Proof.
  intros Hz Hf. unfold clip_host_emission_lines.
  destruct (Qltb z 0) eqn:E; [apply Qltb_lt in E; lra|].
  rewrite (drop_bands_lines w (fun l => (l * (1 + z) - width, l * (1 + z) + width))).
  assert (map (fun l => (l * (1 + z) - width, l * (1 + z) + width)) host_rest_lines
          = Spec.line_ranges width (map (fun l => l * (1 + z)) host_rest_lines)) as ->
    by (unfold Spec.line_ranges; by rewrite map_map).
  destruct (select_outside w f
              (Spec.line_ranges width (map (fun l => l * (1 + z)) host_rest_lines)) Hf)
    as (w' & f' & E' & Hzip & Hlen & Hout).
  exists w', f'. repeat split; try done.
  intros x l Hx Hl. apply Hout; [done|].
  unfold Spec.line_ranges. rewrite map_map. apply list_elem_of_fmap. by exists l.
Qed.

Lemma clip_host_emission_lines_keeps_outside_witness :
  exists w' f',
    clip_host_emission_lines [4000; 7200; 8000] [1; 2; 3] (1 # 10) 40 = Ok (w', f') /\
    zip w' f'
    = Spec.kept_pairs
        (Spec.line_ranges 40 (map (fun l => l * (1 + (1 # 10))) host_rest_lines))
        [4000; 7200; 8000] [1; 2; 3] /\
    length w' = length f' /\
    forall x l, x ∈ w' -> l ∈ host_rest_lines ->
      ~ (l * (1 + (1 # 10)) - 40 <= x /\ x <= l * (1 + (1 # 10)) + 40).
Proof.
  apply (clip_host_emission_lines_keeps_outside [4000; 7200; 8000] [1; 2; 3] (1 # 10) 40).
  - lra.
  - reflexivity.
Defined.

(** X6.  [clip_aband] keeps exactly the pairs outside the band; a band given
    upside down removes nothing. *)
Theorem clip_aband_keeps_outside (w f : list Q) (a b : Q) :
  length f = length w ->
  exists w' f',
    clip_aband w f (a, b) = Ok (w', f') /\
    zip w' f' = Spec.kept_pairs [(a, b)] w f /\
    length w' = length f' /\
    (forall x, x ∈ w' -> ~ (a <= x /\ x <= b)) /\
    (b < a -> w' = w /\ f' = f).
Proof.
  intros Hf. unfold clip_aband.
  destruct (select_both_spec (fun x => negb (in_band a b x)) w f Hf)
    as (w' & f' & -> & Hzip & Hw' & Hlen).
  exists w', f'. split; [done|].
  assert (zip w' f' = Spec.kept_pairs [(a, b)] w f) as Hkept.
  { rewrite Hzip. unfold Spec.kept_pairs. apply filter_ext. intros p.
    unfold Spec.outside_all. simpl. by rewrite andb_true_r. }
  do 2 (split; [done|]). split.
  - intros x Hx [Ha Hb]. subst w'.
    apply list_elem_of_In, filter_In in Hx as [_ Hout].
    apply negb_true_iff in Hout. unfold in_band in Hout.
    apply Qle_bool_iff in Ha, Hb. by rewrite Ha, Hb in Hout.
  - intros Hba.
    assert (forall x, negb (in_band a b x) = true) as Hall.
    { intros x. apply negb_true_iff. unfold in_band.
      destruct (Qle_bool a x) eqn:Ea; [|done].
      destruct (Qle_bool x b) eqn:Eb; [|done].
      apply Qle_bool_iff in Ea, Eb. lra. }
    assert (zip w' f' = zip w f) as Hz.
    { rewrite Hzip. clear -Hall. induction (zip w f) as [|p l IH]; simpl; [done|].
      by rewrite Hall, IH. }
    apply zip_eq_inv in Hz; done.
Qed.

Lemma clip_aband_keeps_outside_witness :
  exists w' f',
    clip_aband [7500; 7600; 7700] [1; 2; 3] default_band = Ok (w', f') /\
    zip w' f' = Spec.kept_pairs [default_band] [7500; 7600; 7700] [1; 2; 3] /\
    length w' = length f' /\
    (forall x, x ∈ w' -> ~ (7575 <= x /\ x <= 7675)) /\
    (7675 < 7575 -> w' = [7500; 7600; 7700] /\ f' = [1; 2; 3]).
Proof.
  apply (clip_aband_keeps_outside [7500; 7600; 7700] [1; 2; 3] 7575 7675).
  reflexivity.
Defined.

Section ClipMismatch.
Variable float_str : Q -> string.

(** X7.  A flux array that is not as long as the wavelength array is an
    [IndexError] in every clipping function, except that a negative redshift
    switches the host-line clipping off before the arrays are looked at. *)
Theorem clipping_length_mismatch (w f : list Q) :
  length f <> length w ->
  (forall band, clip_aband w f band = Raise IndexError) /\
  (forall width lines, clip_sky_lines w f width lines = Raise IndexError) /\
  (forall z width, 0 <= z -> clip_host_emission_lines w f z width = Raise IndexError) /\
  (forall z width, z < 0 -> clip_host_emission_lines w f z width = Ok (w, f)) /\
  (forall ranges, Forall (fun r => r.1 <= r.2) ranges ->
     apply_wavelength_mask float_str w f ranges = Raise IndexError).
Proof.
  intros Hf.
  assert (forall g : Q -> Q * Q, forall lines,
            select_both
              (foldl (fun keep l => drop_band w keep (g l).1 (g l).2)
                 (replicate (length w) true) lines) w f = Raise IndexError) as Hfold.
  { intros g lines. apply select_both_mismatch; [|done].
    rewrite drop_bands_lines, drop_bands_spec by apply length_replicate.
    by rewrite length_zip_with, length_replicate, length_map, Nat.min_id. }
  repeat split.
  - intros [a b]. unfold clip_aband. apply select_both_mismatch; [|done].
    by rewrite length_map.
  - intros width lines. apply (Hfold (fun l => (l - width, l + width))).
  - intros z width Hz. unfold clip_host_emission_lines.
    destruct (Qltb z 0) eqn:E; [apply Qltb_lt in E; lra|].
    apply (Hfold (fun l => (l * (1 + z) - width, l * (1 + z) + width))).
  - intros z width Hz. unfold clip_host_emission_lines.
    apply Qltb_lt in Hz. by rewrite Hz.
  - intros ranges Hr. unfold apply_wavelength_mask.
    rewrite mask_ranges_Ok by done. cbn.
    apply select_both_mismatch; [|done].
    rewrite drop_bands_spec by apply length_replicate.
    by rewrite length_zip_with, length_replicate, length_map, Nat.min_id.
Qed.

End ClipMismatch.

Lemma clipping_length_mismatch_witness :
  clip_aband [1; 2; 3] [10; 20] default_band = Raise IndexError /\
  clip_host_emission_lines [1; 2; 3] [10; 20] (-1) 40 = Ok ([1; 2; 3], [10; 20]).
Proof.
  destruct (clipping_length_mismatch (fun _ => "x"%string) [1; 2; 3] [10; 20])
    as (Ha & _ & _ & Hh & _); [simpl; lia|].
  split; [apply Ha | apply Hh; lra].
Defined.


(** ** The taper of [apodize] *)

Lemma scale_slice_lookup_before start factors out i :
  (i < start)%nat -> scale_slice start factors out !! i = out !! i.
Proof.
  intros Hi. unfold scale_slice.
  destruct (decide (i < length out)%nat) as [Hlt|Hge].
  - rewrite lookup_app_l by (rewrite length_take; lia).
    by rewrite lookup_take_lt.
  - rewrite (lookup_ge_None_2 out) by lia.
    apply lookup_ge_None_2.
    rewrite !length_app, length_zip_with, !length_take, !length_drop. lia.
Qed.

Lemma scale_slice_lookup_after start factors out i :
  (start + length factors <= length out)%nat ->
  (start + length factors <= i)%nat -> scale_slice start factors out !! i = out !! i.
Proof.
  intros Hfit Hi. unfold scale_slice.
  rewrite lookup_app_r by (rewrite length_take; lia).
  rewrite lookup_app_r
    by (rewrite length_zip_with, !length_take, length_drop; lia).
  rewrite lookup_drop, length_zip_with, !length_take, length_drop.
  f_equal. lia.
Qed.

Lemma scale_slice_lookup_inside start factors out k x r :
  (start + length factors <= length out)%nat ->
  out !! (start + k)%nat = Some x -> factors !! k = Some r ->
  scale_slice start factors out !! (start + k)%nat = Some (x * r).
Proof.
  intros Hfit Hx Hr. unfold scale_slice.
  pose proof (lookup_lt_Some _ _ _ Hr) as Hk.
  rewrite lookup_app_r by (rewrite length_take; lia).
  rewrite length_take, Nat.min_l by lia.
  replace (start + k - start)%nat with k by lia.
  rewrite lookup_app_l
    by (rewrite length_zip_with, !length_take, length_drop; lia).
  apply lookup_zip_with_Some. exists x, r. repeat split; [|done].
  rewrite lookup_take_lt by done. by rewrite lookup_drop.
Qed.

(** [int(v / 2.0)] is at most half of [v]. *)
Lemma py_int_half (v : Z) : (0 <= v)%Z -> (2 * py_int (inject_Z v / 2) <= v)%Z.
Proof.
  intros Hv. unfold py_int.
  assert (0 <= inject_Z v / 2) as Hnn.
  { assert (0 <= inject_Z v) by (rewrite <- (Zle_Qle 0); done).
    apply Qle_shift_div_l; lra. }
  destruct (Qltb (inject_Z v / 2) 0) eqn:E; [apply Qltb_lt in E; lra|].
  pose proof (Qfloor_le (inject_Z v / 2)) as Hfl.
  rewrite Zle_Qle, inject_Z_mult.
  assert (inject_Z v == 2 * (inject_Z v / 2)) as Hv2 by field.
  change (inject_Z 2) with 2. generalize dependent (inject_Z v / 2). intros h. intros. lra.
Qed.

Section ApodizeTaper.
Variable cos_pi : Q -> Q.

Lemma taper_ramp_length ns : (1 <= ns)%Z -> length (Spec.taper_ramp cos_pi ns) = Z.to_nat ns.
Proof.
  intros Hns. unfold Spec.taper_ramp.
  destruct (Z.eqb_spec ns 1) as [->|_]; [done|].
  unfold cosine_ramp. rewrite length_map, py_range_length. f_equal. lia.
Qed.

Lemma apodize_taper_shape (arr : list Q) (n1 n2 : Z) (percent : Q) :
  (0 <= n1 <= n2)%Z -> (n2 < Z.of_nat (length arr))%Z -> 0 < percent ->
  let ns := Spec.taper_width n1 n2 percent in
  let ramp := Spec.taper_ramp cos_pi ns in
  let out := apodize cos_pi arr n1 n2 (Some percent) in
  (2 * ns <= n2 - n1 + 1)%Z /\
  (forall i : nat,
     (Z.of_nat i < n1 \/ n1 + ns <= Z.of_nat i <= n2 - ns \/ n2 < Z.of_nat i)%Z ->
     out !! i = arr !! i) /\
  (forall (k : nat) x r,
     arr !! (Z.to_nat n1 + k)%nat = Some x -> ramp !! k = Some r ->
     (1 <= ns)%Z ->
     out !! (Z.to_nat n1 + k)%nat = Some (x * r)) /\
  (forall (k : nat) x r,
     arr !! (Z.to_nat n2 - k)%nat = Some x -> ramp !! k = Some r ->
     (1 <= ns)%Z ->
     out !! (Z.to_nat n2 - k)%nat = Some (x * r)).
Proof.
  intros Hn Hn2 Hp ns ramp out.
  assert (2 * ns <= n2 - n1 + 1)%Z as Hhalf.
  { unfold ns, Spec.taper_width.
    pose proof (py_int_half (n2 - n1 + 1) ltac:(lia)). lia. }
  split; [done|].
  unfold out, apodize.
  assert (negb ((0 <=? n1) && (n1 <=? n2) && (n2 <? Z.of_nat (length arr)))%Z = false) as ->.
  { apply negb_false_iff. rewrite !andb_true_iff.
    repeat split; [apply Z.leb_le | apply Z.leb_le | apply Z.ltb_lt]; lia. }
  apply Qle_bool_false in Hp. rewrite Hp.
  destruct (Z.leb_spec (n2 - n1 + 1) 0) as [|_]; [lia|].
  change (Z.min (py_round (inject_Z (n2 - n1 + 1) * percent / 100))
                (py_int (inject_Z (n2 - n1 + 1) / 2))) with ns.
  destruct (Z.ltb_spec ns 1) as [Hns|Hns]; [repeat split; intros; lia || done|].
  change (if (ns =? 1)%Z then [0] else cosine_ramp cos_pi ns) with ramp.
  assert ((Z.of_nat (length arr) <? n1 + ns) || (n2 - ns + 1 <? 0) = false)%Z as ->.
  { apply orb_false_iff. split; apply Z.ltb_ge; lia. }
  assert (length ramp = Z.to_nat ns) as Hramp by by apply taper_ramp_length.
  set (mid := scale_slice (Z.to_nat n1) ramp arr).
  assert (length mid = length arr) as Hmid by (apply scale_slice_length; lia).
  repeat split.
  - intros i Hi.
    destruct (decide (Z.of_nat i < n2 - ns + 1)%Z) as [Hlow|Hhigh].
    + rewrite scale_slice_lookup_before by lia.
      destruct (decide (Z.of_nat i < n1)%Z).
      * apply scale_slice_lookup_before. lia.
      * apply scale_slice_lookup_after; lia.
    + rewrite scale_slice_lookup_after by (rewrite ?length_reverse; lia).
      apply scale_slice_lookup_after; lia.
  - intros k x r Hx Hr _.
    pose proof (lookup_lt_Some _ _ _ Hr) as Hk.
    rewrite scale_slice_lookup_before by lia.
    apply scale_slice_lookup_inside; [lia | done | done].
  - intros k x r Hx Hr _.
    pose proof (lookup_lt_Some _ _ _ Hr) as Hk.
    replace (Z.to_nat n2 - k)%nat
      with (Z.to_nat (n2 - ns + 1) + (Z.to_nat ns - 1 - k))%nat in * by lia.
    apply scale_slice_lookup_inside.
    + rewrite length_reverse. lia.
    + unfold mid. rewrite scale_slice_lookup_after by lia. done.
    + rewrite reverse_lookup by lia. rewrite <- Hr. f_equal. lia.
Qed.

(** X8.  With valid edges and a positive percentage, [apodize] multiplies the
    first [ns] samples of the valid region by the ramp and the last [ns] by
    the ramp reversed, where [ns] is at most half of the region; every other
    sample is left as it is. *)
Theorem apodize_tapers_edges (arr : list Q) (n1 n2 : Z) (percent : Q) :
  (0 <= n1 <= n2)%Z -> (n2 < Z.of_nat (length arr))%Z -> 0 < percent ->
  let ns := Spec.taper_width n1 n2 percent in
  let ramp := Spec.taper_ramp cos_pi ns in
  let out := apodize cos_pi arr n1 n2 (Some percent) in
  (2 * ns <= n2 - n1 + 1)%Z /\
  (forall i : nat,
     (Z.of_nat i < n1 \/ n1 + ns <= Z.of_nat i <= n2 - ns \/ n2 < Z.of_nat i)%Z ->
     out !! i = arr !! i) /\
  (forall (k : nat) x r,
     arr !! (Z.to_nat n1 + k)%nat = Some x -> ramp !! k = Some r ->
     (1 <= ns)%Z ->
     out !! (Z.to_nat n1 + k)%nat = Some (x * r)) /\
  (forall (k : nat) x r,
     arr !! (Z.to_nat n2 - k)%nat = Some x -> ramp !! k = Some r ->
     (1 <= ns)%Z ->
     out !! (Z.to_nat n2 - k)%nat = Some (x * r)).
Proof. apply apodize_taper_shape. Qed.

(** X9.  Nothing outside the valid region ever changes, and the length is
    kept, whatever the arguments are. *)
Theorem apodize_keeps_outside (arr : list Q) (n1 n2 : Z) (percent : option Q) (i : nat) :
  (Z.of_nat i < n1 \/ n2 < Z.of_nat i)%Z ->
  apodize cos_pi arr n1 n2 percent !! i = arr !! i /\
  length (apodize cos_pi arr n1 n2 percent) = length arr.
Proof.
  intros Hi. split; [|apply apodize_length].
  destruct percent as [percent|]; [|unfold apodize; by repeat case_match].
  destruct (Qlt_le_dec 0 percent) as [Hp|Hp];
    [|by rewrite apodize_nonpositive_percent].
  destruct (decide (0 <= n1 <= n2 /\ n2 < Z.of_nat (length arr))%Z) as [[Hn Hn2]|Hbad].
  - destruct (apodize_taper_shape arr n1 n2 percent Hn Hn2 Hp) as (_ & H & _).
    apply H. lia.
  - unfold apodize.
    assert (negb ((0 <=? n1) && (n1 <=? n2) && (n2 <? Z.of_nat (length arr)))%Z = true) as ->;
      [|done].
    apply negb_true_iff, not_true_iff_false. rewrite !andb_true_iff.
    rewrite !Z.leb_le, Z.ltb_lt. lia.
Qed.

End ApodizeTaper.

Lemma apodize_tapers_edges_witness :
  let arr := [3; 1; 4; 1; 5; 9; 2; 6] in
  let ns := Spec.taper_width 1 6 40 in
  let ramp := Spec.taper_ramp (fun x => 1 - 2 * x) ns in
  let out := apodize (fun x => 1 - 2 * x) arr 1 6 (Some 40) in
  (2 * ns <= 6 - 1 + 1)%Z /\
  (forall i : nat,
     (Z.of_nat i < 1 \/ 1 + ns <= Z.of_nat i <= 6 - ns \/ 6 < Z.of_nat i)%Z ->
     out !! i = arr !! i) /\
  (forall (k : nat) x r,
     arr !! (Z.to_nat 1 + k)%nat = Some x -> ramp !! k = Some r -> (1 <= ns)%Z ->
     out !! (Z.to_nat 1 + k)%nat = Some (x * r)) /\
  (forall (k : nat) x r,
     arr !! (Z.to_nat 6 - k)%nat = Some x -> ramp !! k = Some r -> (1 <= ns)%Z ->
     out !! (Z.to_nat 6 - k)%nat = Some (x * r)).
Proof.
  apply (apodize_tapers_edges (fun x => 1 - 2 * x) [3; 1; 4; 1; 5; 9; 2; 6] 1 6 40).
  - lia.
  - simpl; lia.
  - lra.
Defined.

Lemma apodize_keeps_outside_witness :
  apodize (fun x => 1 - 2 * x) [3; 1; 4; 1; 5] 1 3 (Some 40) !! 4%nat
  = [3; 1; 4; 1; 5] !! 4%nat /\
  length (apodize (fun x => 1 - 2 * x) [3; 1; 4; 1; 5] 1 3 (Some 40)) = 5%nat.
Proof.
  apply (apodize_keeps_outside (fun x => 1 - 2 * x) [3; 1; 4; 1; 5] 1 3 (Some 40) 4).
  simpl; lia.
Defined.


(** ** Padding and restoring the continuum *)

(** X10.  An array that fits is returned left-justified in [NW] samples, the
    rest being zeros. *)
Theorem pad_to_NW_pads (arr : list Q) (NW : nat) :
  (length arr <= NW)%nat ->
  exists out,
    pad_to_NW arr NW = Ok out /\
    length out = NW /\
    take (length arr) out = arr /\
    forall i, (length arr <= i < NW)%nat -> out !! i = Some 0.
Proof.
  intros Hle. unfold pad_to_NW.
  destruct (Nat.eqb_spec (length arr) NW) as [<-|Hne].
  - exists arr. repeat split; [by rewrite firstn_all | intros; lia].
  - destruct (Nat.ltb_spec (length arr) NW) as [Hlt|]; [|lia].
    eexists. split; [done|]. repeat split.
    + rewrite length_app, length_replicate. lia.
    + by rewrite take_app_length.
    + intros i Hi. rewrite lookup_app_r by lia.
      apply lookup_replicate_2. lia.
Qed.

Lemma pad_to_NW_pads_witness :
  exists out,
    pad_to_NW [1; 2] 4 = Ok out /\
    length out = 4%nat /\
    take (length [1; 2]) out = [1; 2] /\
    forall i, (length [1; 2] <= i < 4)%nat -> out !! i = Some 0.
Proof. apply (pad_to_NW_pads [1; 2] 4). simpl; lia. Defined.

(** X11.  An array of more than one sample that does not fit is a [ValueError];
    nothing is cut off. *)
Theorem pad_to_NW_too_long (arr : list Q) (NW : nat) :
  (NW < length arr)%nat -> (1 < length arr)%nat ->
  exists msg, pad_to_NW arr NW = Raise (ValueError msg).
Proof.
  intros Hlt H1. unfold pad_to_NW.
  destruct (Nat.eqb_spec (length arr) NW); [lia|].
  destruct (Nat.ltb_spec (length arr) NW); [lia|].
  destruct (Nat.eqb_spec (length arr) 1); [lia|].
  by eexists.
Qed.

Lemma pad_to_NW_too_long_witness :
  exists msg, pad_to_NW [1; 2; 3] 2 = Raise (ValueError msg).
Proof. apply (pad_to_NW_too_long [1; 2; 3] 2); simpl; lia. Defined.

Lemma unflatten_flatten_lookup (flux cont : list Q) (i : nat) f c :
  flux !! i = Some f -> cont !! i = Some c ->
  zip_with Qmult (map (fun x => x + 1) (flatten_by flux cont)) cont !! i
  = Some (((if Qltb 0 f && Qltb 0 c then f / c - 1 else 0) + 1) * c).
Proof.
  intros Hf Hc. apply lookup_zip_with_Some. eexists _, c. split; [done|]. split; [|done].
  rewrite list_lookup_fmap. unfold flatten_by.
  assert (zip_with (fun f c => if Qltb 0 f && Qltb 0 c then f / c - 1 else 0) flux cont !! i
          = Some (if Qltb 0 f && Qltb 0 c then f / c - 1 else 0)) as ->; [|done].
  apply lookup_zip_with_Some. by exists f, c.
Qed.

(** On a flux flattened by a continuum, [unflatten_on_loggrid] returns, and
    gives the continuum wherever flux or continuum is not positive. *)
Lemma unflatten_flatten_by (flux cont : list Q) :
  length cont = length flux ->
  exists out,
    unflatten_on_loggrid (flatten_by flux cont) cont = Ok out /\
    length out = length flux /\
    forall i f c o,
      flux !! i = Some f -> cont !! i = Some c -> out !! i = Some o ->
      ~ (0 < f /\ 0 < c) -> o = (0 + 1) * c.
Proof.
  intros Hlen. unfold unflatten_on_loggrid, broadcast2.
  rewrite length_map, flatten_by_length, <- Hlen, Nat.eqb_refl by done.
  eexists. split; [done|]. split.
  - rewrite length_zip_with, length_map, flatten_by_length by done. lia.
  - intros i f c o Hf Hc Ho Hn.
    rewrite (unflatten_flatten_lookup flux cont i f c Hf Hc) in Ho.
    injection Ho as <-.
    destruct (Qltb 0 f) eqn:Ef; destruct (Qltb 0 c) eqn:Ec; simpl; try done.
    apply Qltb_lt in Ef, Ec. tauto.
Qed.



(** ** The continuum and the flattened flux *)

Lemma mapM_result_length {A B} (f : A -> result B) (xs : list A) ys :
  mapM f xs = Ok ys -> length ys = length xs.
Proof.
  revert ys. induction xs as [|x xs IH]; intros ys; simpl.
  - by intros [= <-].
  - destruct (f x) as [y|]; cbn; [|done].
    destruct (mapM f xs) as [ys'|]; cbn; [|done].
    intros [= <-]. simpl. f_equal. by apply IH.
Qed.

Lemma zeros_like_lookup (v : list Q) i x : zeros_like v !! i = Some x -> x = 0.
Proof. unfold zeros_like. intros H. by apply lookup_replicate in H as [-> _]. Qed.

Lemma flatten_by_lookup flux cont i fl :
  flatten_by flux cont !! i = Some fl ->
  exists f c, flux !! i = Some f /\ cont !! i = Some c /\
              fl = if Qltb 0 f && Qltb 0 c then f / c - 1 else 0.
Proof.
  unfold flatten_by. intros H. apply lookup_zip_with_Some in H as (f & c & -> & Hf & Hc).
  by exists f, c.
Qed.

Section ContinuumShape.
Variables np_log10 pow10 : Q -> Q.

(** The two shapes of what [fit_continuum_spline] returns. *)
Lemma fit_continuum_spline_shape flux knotnum izoff flat cont :
  fit_continuum_spline np_log10 pow10 flux knotnum izoff = Ok (flat, cont) ->
  (flat = zeros_like flux /\ cont = ones_like flux) \/
  (flat = flatten_by flux cont /\ length cont = length flux).
Proof.
  unfold fit_continuum_spline. intros H.
  destruct (orb _ _); [left; by injection H as <- <-|].
  destruct (chop_left _ _ _ _) as [l1|]; cbn in H; [|done].
  destruct (chop_right _ _ _ _) as [l2|]; cbn in H; [|done].
  destruct (_ <? _)%Z; [left; by injection H as <- <-|].
  match type of H with (?r ≫= _) = _ => destruct r as [istart|] end; cbn in H; [|done].
  destruct (place_knots _ _ _ _ _ _) as [knots|]; cbn in H; [|done].
  destruct (_ <=? 2)%nat; [left; by injection H as <- <-|].
  destruct (spline_y2 _ _) as [y2|]; cbn in H; [|done].
  destruct (mapM _ _) as [cont'|] eqn:Hcont; cbn in H; [|done].
  injection H as <- <-. right. split; [done|].
  apply mapM_result_length in Hcont. rewrite py_range_length in Hcont. lia.
Qed.

(** X12.  Whatever [fit_continuum_spline] returns, the shapes agree, so
    [unflatten_on_loggrid] on its two arrays returns an array as long as
    the flux; and at every sample where the flux or the continuum is not
    positive the result is [(0 + 1) * cont], the continuum. *)
Theorem unflatten_gives_continuum_off_data
    (flux : list Q) (knotnum izoff : Z) (flat cont : list Q) :
  fit_continuum_spline np_log10 pow10 flux knotnum izoff = Ok (flat, cont) ->
  exists out,
    unflatten_on_loggrid flat cont = Ok out /\
    length out = length flux /\
    forall i f c o,
      flux !! i = Some f -> cont !! i = Some c -> out !! i = Some o ->
      ~ (0 < f /\ 0 < c) -> o = (0 + 1) * c /\ o == c.
Proof.
  intros H. apply fit_continuum_spline_shape in H as [[-> ->]|[-> Hlen]].
  - unfold unflatten_on_loggrid, broadcast2, zeros_like, ones_like.
    rewrite length_map, !length_replicate, Nat.eqb_refl.
    eexists. split; [done|]. split.
    + by rewrite length_zip_with, length_map, !length_replicate, Nat.min_id.
    + intros i f c o _ Hc Ho _.
      apply lookup_zip_with_Some in Ho as (a & c' & -> & Ha & Hc').
      rewrite list_lookup_fmap in Ha.
      destruct (replicate (length flux) 0 !! i) as [z|] eqn:Hz; [|done].
      apply lookup_replicate in Hz as [-> _]. injection Ha as <-.
      assert (c' = c) as -> by congruence.
      split; [done | ring].
  - destruct (unflatten_flatten_by flux cont Hlen) as (out & -> & Hout & Hrest).
    exists out. do 2 (split; [done|]).
    intros i f c o Hf Hc Ho Hn.
    rewrite (Hrest i f c o Hf Hc Ho Hn). split; [done | ring].
Qed.

End ContinuumShape.

Lemma fit_continuum_spline_wavy :
  match fit_continuum_spline (fun x => x - 1) (fun x => 1 + x) Spec.wavy 3 0 with
  | Ok _ => true
  | Raise _ => false
  end = true.
Proof. reflexivity. Qed.

(** Twenty samples with a zero at either end and three knots, enough for
    the spline to be fitted: the ends come back as the continuum. *)
Lemma unflatten_gives_continuum_off_data_witness :
  exists flat cont out,
    fit_continuum_spline (fun x => x - 1) (fun x => 1 + x) Spec.wavy 3 0 = Ok (flat, cont) /\
    unflatten_on_loggrid flat cont = Ok out /\
    length out = length Spec.wavy /\
    forall i f c o,
      Spec.wavy !! i = Some f -> cont !! i = Some c -> out !! i = Some o ->
      ~ (0 < f /\ 0 < c) -> o = (0 + 1) * c /\ o == c.
Proof.
  pose proof fit_continuum_spline_wavy as Hrun.
  destruct (fit_continuum_spline (fun x => x - 1) (fun x => 1 + x) Spec.wavy 3 0)
    as [[flat cont]|] eqn:E; [|discriminate Hrun].
  destruct (unflatten_gives_continuum_off_data _ _ _ _ _ _ _ E) as (out & Hout & Hrest).
  exists flat, cont, out. split; [reflexivity|]. split; [exact Hout | exact Hrest].
Defined.


(** ** [fit_continuum]: nothing outside the observed range *)

Lemma positive_indices_from (o : nat) (flux : list Q) :
  let l := omap (fun kx : nat * Q => if Qltb 0 kx.2 then Some kx.1 else None)
                (imap (fun k x => ((o + k)%nat, x)) flux) in
  StronglySorted lt l /\ Forall (fun k => (o <= k)%nat) l.
Proof.
  revert o. induction flux as [|x flux IH]; intros o; simpl; [by repeat constructor|].
  rewrite (imap_ext _ (fun k y => ((S o + k)%nat, y))) by (intros; simpl; f_equal; lia).
  destruct (IH (S o)) as [Hs Hb].
  destruct (Qltb 0 x); simpl.
  - split; constructor; try done.
    + eapply Forall_impl; [exact Hb|]. simpl. lia.
    + lia.
    + eapply Forall_impl; [exact Hb|]. simpl. lia.
  - split; [done|]. eapply Forall_impl; [exact Hb|]. simpl. lia.
Qed.

Lemma positive_indices_sorted flux : StronglySorted lt (positive_indices flux).
Proof. apply (positive_indices_from 0 flux). Qed.

Lemma elem_of_positive_indices flux k :
  k ∈ positive_indices flux <-> exists x, flux !! k = Some x /\ 0 < x.
Proof.
  unfold positive_indices. rewrite list_elem_of_omap. split.
  - intros ([i x] & Hin & Hk). apply elem_of_lookup_imap in Hin as (i' & x' & [= -> ->] & Hx).
    simpl in Hk. destruct (Qltb 0 x') eqn:E; [|done]. injection Hk as <-.
    exists x'. split; [done | by apply Qltb_lt].
  - intros (x & Hx & Hpos). exists (k, x). split.
    + apply elem_of_lookup_imap. by exists k, x.
    + simpl. apply Qltb_lt in Hpos. by rewrite Hpos.
Qed.

Lemma nat_sorted_head_bound (l : list nat) a :
  StronglySorted lt l -> head l = Some a -> forall x, x ∈ l -> (a <= x)%nat.
Proof.
  intros Hs Hh x Hx. destruct Hs as [|b l Hl Hb]; simplify_eq/=.
  apply elem_of_cons in Hx as [->|Hx]; [done|].
  rewrite Forall_forall in Hb. specialize (Hb _ Hx). lia.
Qed.

Lemma nat_sorted_last_bound (l : list nat) z :
  StronglySorted lt l -> last l = Some z -> forall x, x ∈ l -> (x <= z)%nat.
Proof.
  induction 1 as [|b l Hl IH Hb]; intros Hlast x Hx; [done|].
  destruct l as [|c l].
  - simpl in Hlast. apply list_elem_of_singleton in Hx. by simplify_eq.
  - apply elem_of_cons in Hx as [->|Hx].
    + rewrite Forall_forall in Hb.
      assert (z ∈ c :: l) as Hz by (apply last_Some_elem_of; exact Hlast).
      specialize (Hb _ Hz). lia.
    + by apply IH.
Qed.

Lemma zero_outside_length i0 i1 v : length (zero_outside i0 i1 v) = length v.
Proof. unfold zero_outside. apply length_imap. Qed.

Lemma zero_outside_lookup i0 i1 v k :
  zero_outside i0 i1 v !! k
  = (fun x => if ((k <? i0) || (i1 <? k))%nat then 0 else x) <$> v !! k.
Proof. unfold zero_outside. apply list_lookup_imap. Qed.

Section FitContinuumFacts.
Variables np_log10 pow10 : Q -> Q.

(** X13.  Whatever [fit_continuum] returns, both arrays are as long as the flux;
    the flattened flux is at least -1 everywhere and 0 wherever the flux is not
    positive; and when the flux is positive somewhere, the flattened flux
    and the continuum are both 0 at every sample before the first and after
    the last positive one. *)
Theorem fit_continuum_zero_outside_data
    (flux : list Q) (knotnum izoff : Z) (flat cont : list Q) :
  fit_continuum np_log10 pow10 flux knotnum izoff = Ok (flat, cont) ->
  length flat = length flux /\
  length cont = length flux /\
  (forall i fl, flat !! i = Some fl -> -1 <= fl) /\
  (forall i f, flux !! i = Some f -> f <= 0 -> flat !! i = Some 0) /\
  (forall p fp, flux !! p = Some fp -> 0 < fp ->
     forall i, (i < length flux)%nat ->
       (forall j f, (j <= i)%nat -> flux !! j = Some f -> f <= 0) \/
       (forall j f, (i <= j)%nat -> flux !! j = Some f -> f <= 0) ->
       flat !! i = Some 0 /\ cont !! i = Some 0).
Proof.
  unfold fit_continuum. intros H.
  destruct (fit_continuum_spline np_log10 pow10 flux knotnum izoff) as [[flat0 cont0]|]
    eqn:Hspline; cbn in H; [|done].
  apply fit_continuum_spline_shape in Hspline.
  assert (length flat0 = length flux /\ length cont0 = length flux) as [Hlf Hlc].
  { destruct Hspline as [[-> ->]|[-> Hlen]].
    - unfold zeros_like, ones_like. by rewrite !length_replicate.
    - split; [by apply flatten_by_length | done]. }
  assert (forall i f fl, flux !! i = Some f -> f <= 0 -> flat0 !! i = Some fl -> fl = 0)
    as Hflat0.
  { intros i f fl Hf Hneg Hfl. destruct Hspline as [[-> ->]|[-> Hlen]].
    - by apply zeros_like_lookup in Hfl.
    - apply flatten_by_lookup in Hfl as (f' & c & Hf' & _ & ->).
      assert (f' = f) as -> by congruence.
      destruct (Qltb 0 f) eqn:E; [apply Qltb_lt in E; lra | done]. }
  assert (forall i fl, flat0 !! i = Some fl -> -1 <= fl) as Hlow0.
  { intros i fl Hfl. destruct Hspline as [[-> ->]|[-> Hlen]].
    - apply zeros_like_lookup in Hfl as ->. lra.
    - apply flatten_by_lookup in Hfl as (f & c & _ & _ & ->).
      destruct (Qltb 0 f) eqn:Ef; destruct (Qltb 0 c) eqn:Ec; simpl; try lra.
      apply Qltb_lt in Ef, Ec.
      assert (0 < f / c) by (apply Qlt_shift_div_l; lra). lra. }
  pose proof (positive_indices_sorted flux) as Hsorted.
  destruct (head (positive_indices flux)) as [i0|] eqn:Hhead.
  - destruct (last (positive_indices flux)) as [i1|] eqn:Hlast.
    + injection H as <- <-. rewrite !zero_outside_length.
      do 2 (split; [done|]). split.
      { intros i fl Hfl. rewrite zero_outside_lookup in Hfl.
        destruct (flat0 !! i) as [fl0|] eqn:Hfl0; [|done]. simpl in Hfl.
        injection Hfl as <-. case_match; [lra | by eapply Hlow0]. }
      split.
      * intros i f Hf Hneg. rewrite zero_outside_lookup.
        destruct (lookup_lt_is_Some_2 flat0 i) as [fl Hfl];
          [rewrite Hlf; by eapply lookup_lt_Some|].
        rewrite Hfl. simpl. rewrite (Hflat0 i f fl Hf Hneg Hfl). by case_match.
      * intros p fp Hp Hpos i Hi Hout.
        assert (((i <? i0) || (i1 <? i))%nat = true) as Hedge.
        { apply orb_true_iff.
          assert (i0 ∈ positive_indices flux) as Hi0 by by apply head_Some_elem_of.
          assert (i1 ∈ positive_indices flux) as Hi1 by by apply last_Some_elem_of.
          apply elem_of_positive_indices in Hi0 as (x0 & Hx0 & Hx0pos).
          apply elem_of_positive_indices in Hi1 as (x1 & Hx1 & Hx1pos).
          destruct Hout as [Hbefore|Hafter].
          - left. apply Nat.ltb_lt.
            destruct (decide (i0 <= i)%nat) as [Hle|]; [|lia].
            specialize (Hbefore i0 x0 Hle Hx0). lra.
          - right. apply Nat.ltb_lt.
            destruct (decide (i <= i1)%nat) as [Hle|]; [|lia].
            specialize (Hafter i1 x1 Hle Hx1). lra. }
        rewrite !zero_outside_lookup, Hedge.
        destruct (lookup_lt_is_Some_2 flat0 i) as [fl ->]; [lia|].
        destruct (lookup_lt_is_Some_2 cont0 i) as [c ->]; [lia|].
        done.
    + destruct (positive_indices flux); [done|]. by rewrite last_cons in Hlast;
        destruct (last l).
  - injection H as <- <-. do 2 (split; [done|]). split; [done|]. split.
    + intros i f Hf Hneg.
      destruct (lookup_lt_is_Some_2 flat0 i) as [fl Hfl];
        [rewrite Hlf; by eapply lookup_lt_Some|].
      by rewrite Hfl, (Hflat0 i f fl Hf Hneg Hfl).
    + intros p fp Hp Hpos.
      assert (p ∈ positive_indices flux) as Hin
        by (apply elem_of_positive_indices; eauto).
      destruct (positive_indices flux); [by apply elem_of_nil in Hin | done].
Qed.

End FitContinuumFacts.

Lemma fit_continuum_wavy :
  match fit_continuum (fun x => x - 1) (fun x => 1 + x) Spec.wavy 3 0 with
  | Ok _ => true
  | Raise _ => false
  end = true.
Proof. reflexivity. Qed.

Lemma fit_continuum_zero_outside_data_witness :
  exists flat cont,
    fit_continuum (fun x => x - 1) (fun x => 1 + x) Spec.wavy 3 0 = Ok (flat, cont) /\
    length flat = length Spec.wavy /\
    length cont = length Spec.wavy /\
    (forall i fl, flat !! i = Some fl -> -1 <= fl) /\
    (forall i f, Spec.wavy !! i = Some f -> f <= 0 -> flat !! i = Some 0) /\
    (forall p fp, Spec.wavy !! p = Some fp -> 0 < fp ->
       forall i, (i < length Spec.wavy)%nat ->
         (forall j f, (j <= i)%nat -> Spec.wavy !! j = Some f -> f <= 0) \/
         (forall j f, (i <= j)%nat -> Spec.wavy !! j = Some f -> f <= 0) ->
         flat !! i = Some 0 /\ cont !! i = Some 0).
Proof.
  pose proof fit_continuum_wavy as Hrun.
  destruct (fit_continuum (fun x => x - 1) (fun x => 1 + x) Spec.wavy 3 0)
    as [[flat cont]|] eqn:E; [|discriminate Hrun].
  exists flat, cont. split; [reflexivity|].
  exact (fit_continuum_zero_outside_data _ _ _ _ _ _ _ E).
Defined.


(** ** [log_rebin]: what the flux values cannot change *)

Lemma same_outcome_bind {A B} (R : A -> A -> Prop) (R' : B -> B -> Prop)
    (r r' : result A) (k k' : A -> result B) :
  Spec.same_outcome R r r' ->
  (forall x x', R x x' -> Spec.same_outcome R' (k x) (k' x')) ->
  Spec.same_outcome R' (r ≫= k) (r' ≫= k').
Proof. destruct r, r'; simpl; try done. intros HR Hk. by apply Hk. Qed.

Lemma for_each_same_outcome {A S} (R : S -> S -> Prop) (xs : list A)
    (body body' : A -> S -> result S) (st st' : S) :
  (forall x st st', R st st' -> Spec.same_outcome R (body x st) (body' x st')) ->
  R st st' ->
  Spec.same_outcome R (for_each xs body st) (for_each xs body' st').
Proof.
  intros Hbody. revert st st'. induction xs as [|x xs IH]; intros st st' HR; simpl; [done|].
  eapply same_outcome_bind; [by apply Hbody | done].
Qed.

Lemma getitem_same_outcome (R : Q -> Q -> Prop) (v v' : list Q) (i : Z) :
  Forall2 R v v' -> Spec.same_outcome R (getitem v i) (getitem v' i).
Proof.
  intros HR. unfold getitem. rewrite <- (Forall2_length _ _ _ HR).
  destruct (_ && _)%Z; [|done].
  generalize (Z.to_nat (if (i <? 0)%Z then (i + Z.of_nat (length v))%Z else i)).
  intros k. destruct (v !! k) as [x|] eqn:Hx.
  - destruct (Forall2_lookup_l _ _ _ _ _ HR Hx) as (x' & -> & Hxx'). done.
  - apply lookup_ge_None in Hx. rewrite (Forall2_length _ _ _ HR) in Hx.
    apply lookup_ge_None in Hx. by rewrite Hx.
Qed.

Section LogRebinOutcome.
Variable NW : nat.
Variables W0 DWLOG : Q.
Variables np_log np_exp : Q -> Q.

Lemma add_at_same_length i v v' (fdest fdest' : list Q) :
  length fdest = length fdest' ->
  Spec.same_outcome (fun x y : list Q => length x = length y)
    (add_at i v fdest) (add_at i v' fdest').
Proof.
  intros Hfd. unfold add_at.
  eapply (same_outcome_bind (fun _ _ => True)).
  - apply getitem_same_outcome. by apply Forall2_true.
  - intros x x' _. unfold setitem. rewrite <- Hfd.
    destruct (_ && _)%Z; [|done]. simpl. by rewrite !length_insert.
Qed.

Lemma rebin_bin_same_length fsrc fsrc' l s0log s1log dlambda i (fdest fdest' : list Q) :
  length fsrc = length fsrc' ->
  length fdest = length fdest' ->
  Spec.same_outcome (fun x y : list Q => length x = length y)
    (rebin_bin fsrc l s0log s1log dlambda i fdest)
    (rebin_bin fsrc' l s0log s1log dlambda i fdest').
Proof.
  intros Hsrc Hfd. unfold rebin_bin.
  destruct (Qle_bool _ 0); [done|].
  eapply (same_outcome_bind (fun _ _ => True)).
  - apply getitem_same_outcome. by apply Forall2_true.
  - intros f f' _. by apply add_at_same_length.
Qed.

Lemma rebin_pixel_same_length s fsrc fsrc' l (fdest fdest' : list Q) :
  length fsrc = length fsrc' ->
  length fdest = length fdest' ->
  Spec.same_outcome (fun x y : list Q => length x = length y)
    (rebin_pixel NW W0 DWLOG np_log s fsrc l fdest)
    (rebin_pixel NW W0 DWLOG np_log s fsrc' l fdest').
Proof.
  intros Hsrc Hfd. unfold rebin_pixel.
  destruct (getitem s (Z.of_nat l)) as [sl|]; cbn; [|done].
  destruct (getitem s (Z.of_nat l + 1)) as [sl1|]; cbn; [|done].
  destruct (floor_int (slog_of W0 DWLOG np_log sl)) as [f0|]; cbn; [|done].
  destruct (floor_int (slog_of W0 DWLOG np_log sl1)) as [f1|]; cbn; [|done].
  apply (for_each_same_outcome (fun x y : list Q => length x = length y)); [|done].
  intros i st st' Hst. by apply rebin_bin_same_length.
Qed.

(** X14.  Whether [log_rebin] returns, and what it raises, is decided by the
    wavelengths and the length of the flux alone: on two flux arrays of one
    length it raises the same exception, or returns the same wavelength
    axis and rebinned fluxes of one length. *)
Theorem log_rebin_outcome_ignores_flux_values (wave fsrc fsrc' : list Q) :
  length fsrc = length fsrc' ->
  Spec.same_outcome
    (fun r r' => r'.1 = r.1 /\ length r'.2 = length r.2)
    (log_rebin NW W0 DWLOG np_log np_exp wave fsrc)
    (log_rebin NW W0 DWLOG np_log np_exp wave fsrc').
Proof.
  intros Hsrc. unfold log_rebin.
  destruct (pixel_edges wave) as [s|]; cbn; [|done].
  eapply (same_outcome_bind (fun x y : list Q => length x = length y)).
  - apply (for_each_same_outcome (fun x y : list Q => length x = length y)); [|done].
    intros l st st' Hst. by apply rebin_pixel_same_length.
  - intros fd fd' Hfd. simpl. split; [done|]. by rewrite !length_imap.
Qed.

End LogRebinOutcome.

(** A run that returns and one that raises, each with two fluxes. *)
Lemma log_rebin_outcome_ignores_flux_values_witness :
  Spec.same_outcome
    (fun r r' => r'.1 = r.1 /\ length r'.2 = length r.2)
    (log_rebin Spec.default_NW Spec.default_W0 Spec.default_DWLOG
       (fun x => x - 1) (fun x => 1 + x) [3000; 3500; 4000] [1; 2; 3])
    (log_rebin Spec.default_NW Spec.default_W0 Spec.default_DWLOG
       (fun x => x - 1) (fun x => 1 + x) [3000; 3500; 4000] [0; 7; 0]) /\
  Spec.same_outcome
    (fun r r' => r'.1 = r.1 /\ length r'.2 = length r.2)
    (log_rebin Spec.default_NW Spec.default_W0 Spec.default_DWLOG
       (fun x => x - 1) (fun x => 1 + x) [1; 4] [1; 2])
    (log_rebin Spec.default_NW Spec.default_W0 Spec.default_DWLOG
       (fun x => x - 1) (fun x => 1 + x) [1; 4] [5; 5]).
Proof.
  split.
  - apply (log_rebin_outcome_ignores_flux_values Spec.default_NW Spec.default_W0
             Spec.default_DWLOG (fun x => x - 1) (fun x => 1 + x)
             [3000; 3500; 4000] [1; 2; 3] [0; 7; 0]).
    reflexivity.
  - apply (log_rebin_outcome_ignores_flux_values Spec.default_NW Spec.default_W0
             Spec.default_DWLOG (fun x => x - 1) (fun x => 1 + x) [1; 4] [1; 2] [5; 5]).
    reflexivity.
Defined.


(** ** [prep_template] *)

Lemma for_each_Ok_invariant {A S} (P : S -> Prop) (xs : list A)
    (body : A -> S -> result S) (st st' : S) :
  (forall x st st', P st -> body x st = Ok st' -> P st') ->
  P st -> for_each xs body st = Ok st' -> P st'.
Proof.
  intros Hbody. revert st. induction xs as [|x xs IH]; intros st Hst; simpl.
  - by intros [= <-].
  - destruct (body x st) as [st1|] eqn:Hb; cbn; [|done].
    apply IH. by eapply Hbody.
Qed.

Lemma setitem_Ok_length v i x v' : setitem v i x = Ok v' -> length v' = length v.
Proof.
  unfold setitem. destruct (_ && _)%Z; [|done]. intros [= <-]. apply length_insert.
Qed.

Section PrepTemplateFacts.
Variable NW : nat.
Variables W0 DWLOG : Q.
Variables np_log np_exp : Q -> Q.

Lemma rebin_pixel_Ok_length s fsrc l fdest fdest' :
  rebin_pixel NW W0 DWLOG np_log s fsrc l fdest = Ok fdest' ->
  length fdest' = length fdest.
Proof.
  unfold rebin_pixel.
  destruct (getitem s (Z.of_nat l)) as [sl|]; cbn; [|done].
  destruct (getitem s (Z.of_nat l + 1)) as [sl1|]; cbn; [|done].
  destruct (floor_int (slog_of W0 DWLOG np_log sl)) as [f0|]; cbn; [|done].
  destruct (floor_int (slog_of W0 DWLOG np_log sl1)) as [f1|]; cbn; [|done].
  apply (for_each_Ok_invariant (fun fd => length fd = length fdest)); [|done].
  intros i st st' Hst. unfold rebin_bin.
  destruct (Qle_bool _ 0); [by intros [= <-]|].
  destruct (getitem fsrc (Z.of_nat l)) as [f|]; cbn; [|done].
  unfold add_at. destruct (getitem st (i - 1)) as [x|]; cbn; [|done].
  intros Hset. apply setitem_Ok_length in Hset. congruence.
Qed.

Lemma log_rebin_Ok_length wave fsrc log_wave fdest :
  log_rebin NW W0 DWLOG np_log np_exp wave fsrc = Ok (log_wave, fdest) ->
  length log_wave = NW /\ length fdest = NW.
Proof.
  unfold log_rebin.
  destruct (pixel_edges wave) as [s|]; cbn; [|done].
  destruct (for_each _ _ _) as [fd|] eqn:Hfd; cbn; [|done].
  intros [= <- <-]. rewrite length_map, length_seq, length_imap. split; [done|].
  revert Hfd. apply (for_each_Ok_invariant (fun fd => length fd = NW)).
  - intros l st st' Hst Hpix. apply rebin_pixel_Ok_length in Hpix. congruence.
  - apply length_replicate.
Qed.

(** X15.  Whatever [prep_template] returns has the [NW] samples of the grid, so
    that [pad_to_NW] gives it back as it is. *)
Theorem prep_template_fills_grid (tpl_wave flux_tpl : list Q) (skip_if_rebinned : bool)
    (rebinned : list Q) :
  prep_template NW W0 DWLOG np_log np_exp tpl_wave flux_tpl skip_if_rebinned = Ok rebinned ->
  length rebinned = NW /\ pad_to_NW rebinned NW = Ok rebinned.
Proof.
  intros H.
  assert (length rebinned = NW) as Hlen.
  { unfold prep_template in H.
    destruct skip_if_rebinned; simpl in H.
    - destruct (Nat.eqb_spec (length flux_tpl) NW) as [Heq|_]; [by injection H as <-|].
      destruct (log_rebin _ _ _ _ _ _ _) as [[lw fd]|] eqn:Hr; cbn in H; [|done].
      injection H as <-. by apply log_rebin_Ok_length in Hr as [_ ?].
    - destruct (log_rebin _ _ _ _ _ _ _) as [[lw fd]|] eqn:Hr; cbn in H; [|done].
      injection H as <-. by apply log_rebin_Ok_length in Hr as [_ ?]. }
  split; [done|]. unfold pad_to_NW. by rewrite Hlen, Nat.eqb_refl.
Qed.

End PrepTemplateFacts.

Lemma prep_template_fills_grid_witness :
  length [1; 2; 3] = 3%nat /\ pad_to_NW [1; 2; 3] 3 = Ok [1; 2; 3].
Proof.
  apply (prep_template_fills_grid 3 1 1 (fun x => x - 1) (fun x => 1 + x)
           [] [1; 2; 3] true [1; 2; 3]).
  reflexivity.
Defined.

(** ** What the smoothing asks of SciPy *)

(** X16.  The smoothing functions, and the legacy names [medfilt] and [medwfilt]
    for them, call SciPy's filter on the data with a window of at least 3
    samples and at most the length of the data, and with an order below the
    window: two filters that agree on such calls give the same results. *)
Theorem savgol_calls_stay_in_range
    (sg sg' : list Q -> Z -> Z -> option (list Q)) (data : list Q) (polyorder : Z) :
  (forall w p, (3 <= w <= Z.of_nat (length data))%Z -> (p <= w - 1)%Z ->
     sg data w p = sg' data w p) ->
  (forall window_length,
     savgol_filter_fixed sg data window_length polyorder
     = savgol_filter_fixed sg' data window_length polyorder) /\
  (forall wave fwhm_angstrom,
     savgol_filter_wavelength sg wave data fwhm_angstrom polyorder
     = savgol_filter_wavelength sg' wave data fwhm_angstrom polyorder) /\
  (forall medlen, medfilt sg data medlen = medfilt sg' data medlen) /\
  (forall wave fwmed maxdup,
     medwfilt sg wave data fwmed maxdup = medwfilt sg' wave data fwmed maxdup).
Proof.
  intros Hagree.
  assert (forall polyorder window_length,
            savgol_filter_fixed sg data window_length polyorder
            = savgol_filter_fixed sg' data window_length polyorder) as Hfixed.
  { intros po window_length. unfold savgol_filter_fixed.
    destruct (Z.ltb_spec window_length 3); [done|].
    set (w := Z.min _ (Z.of_nat (length data))).
    destruct (Z.ltb_spec w 3); [done|].
    rewrite Hagree; [done | unfold w; lia | lia]. }
  assert (forall polyorder wave fwhm,
            savgol_filter_wavelength sg wave data fwhm polyorder
            = savgol_filter_wavelength sg' wave data fwhm polyorder) as Hwave.
  { intros po wave fwhm. unfold savgol_filter_wavelength.
    destruct (negb _); [done|].
    destruct (Qle_bool fwhm 0); [done|].
    destruct (wavelength_window wave fwhm) as [w0|]; cbn; [|done].
    set (w := Z.min w0 (Z.of_nat (length data))).
    destruct (Z.ltb_spec w 3); [done|].
    rewrite Hagree; [done | unfold w; lia | lia]. }
  split; [apply Hfixed|]. split; [apply Hwave|].
  split; [intros; apply Hfixed | intros; apply Hwave].
Qed.



Lemma savgol_calls_stay_in_range_witness :
  (forall window_length,
     savgol_filter_fixed Spec.savgol_interp Spec.spike window_length 3
     = savgol_filter_fixed (fun d w p => if (w <=? 5)%Z then Spec.savgol_interp d w p else None)
         Spec.spike window_length 3) /\
  (forall wave fwhm_angstrom,
     savgol_filter_wavelength Spec.savgol_interp wave Spec.spike fwhm_angstrom 3
     = savgol_filter_wavelength
         (fun d w p => if (w <=? 5)%Z then Spec.savgol_interp d w p else None)
         wave Spec.spike fwhm_angstrom 3).
Proof.
  destruct (savgol_calls_stay_in_range Spec.savgol_interp
           (fun d w p => if (w <=? 5)%Z then Spec.savgol_interp d w p else None)
           Spec.spike 3) as (Hfixed & Hwave & _); [|by split].
  intros w p Hw _. simpl in Hw.
  destruct (Z.leb_spec w 5); [done | lia].
Defined.


(** ** More on the cluster selection *)

Lemma sorted_take_drop_bound {A} (key : A -> Q) (l : list A) (n : nat) v u :
  StronglySorted (fun a b => key b <= key a) l ->
  v ∈ take n l -> u ∈ drop n l -> key u <= key v.
Proof.
  intros Hs. revert n. induction Hs as [|x l Hl IH Hx]; intros n Hv Hu.
  - rewrite take_nil in Hv. by apply elem_of_nil in Hv.
  - destruct n as [|n]; [by apply elem_of_nil in Hv|]. simpl in Hv, Hu.
    apply elem_of_cons in Hv as [->|Hv]; [|by eapply IH].
    rewrite Forall_forall in Hx. apply Hx. by eapply subseteq_drop.
Qed.

Lemma sorted_take {A} (R : A -> A -> Prop) (l : list A) (n : nat) :
  StronglySorted R l -> StronglySorted R (take n l).
Proof.
  intros Hs. revert n. induction Hs as [|x l Hl IH Hx]; intros [|n]; simpl;
    try constructor; [apply IH|].
  apply Forall_forall. intros y Hy. rewrite Forall_forall in Hx.
  apply Hx. by eapply subseteq_take.
Qed.

Lemma penalty_factor_bounds (n : nat) :
  (1 <= n)%nat ->
  let p := if (n <? 5)%nat then (95 # 100) ^ (5 - Z.of_nat n) else 1 in
  0 < p /\ p <= 1 /\ ((n < 5)%nat -> p < 1) /\ ((5 <= n)%nat -> p = 1).
Proof.
  intros Hn.
  destruct n as [|[|[|[|[|n]]]]]; [lia| | | | |]; simpl;
    (split; [reflexivity|]); (split; [discriminate|]); (split; [|done || lia]);
    reflexivity || lia.
Qed.

Section ClusterSelectionMore.

(** X17.  The five values kept for a cluster are its largest metric values, in
    descending order: nothing left out exceeds any of them; and the mean
    of the cluster is [np.mean] of these values. *)
Theorem top_5_values_are_largest (use_rlap_cos : bool) (c : Candidate) (sc : ClusterScore) :
  score_cluster use_rlap_cos c = Some sc ->
  let values := map (get_metric use_rlap_cos) (cand_matches c) in
  exists rest,
    top_5_values sc ++ rest ≡ₚ values /\
    length (top_5_values sc) = (5 `min` length values)%nat /\
    StronglySorted (fun a b => b <= a) (top_5_values sc) /\
    (forall v u, v ∈ top_5_values sc -> u ∈ rest -> u <= v) /\
    top_5_mean sc = np_mean (top_5_values sc).
Proof.
  intros H values.
  destruct (score_cluster_Some _ _ _ H) as (Hne & _ & Htop & Hmean & _).
  fold values in Htop, Hmean.
  pose proof (sort_desc_sorted id values) as Hsorted.
  exists (drop 5 (sort_desc id values)). rewrite Htop, Hmean.
  split; [by rewrite take_drop, sort_desc_perm|].
  split; [by rewrite length_take, sort_desc_length|].
  split; [by apply sorted_take|].
  assert (forall v u, v ∈ take 5 (sort_desc id values) ->
            u ∈ drop 5 (sort_desc id values) -> u <= v) as Hbound
    by (intros v u; apply (sorted_take_drop_bound id _ 5 v u Hsorted)).
  by split.
Qed.

(** X18.  The penalty never raises a score and never changes its sign: the factor
    lies in (0, 1], is 1 exactly from five matches on, and a cluster is
    rated "high" only if the mean of its top values is at least 10, and
    above 10 when it has fewer than five matches. *)
Theorem penalty_only_lowers (use_rlap_cos : bool) (c : Candidate) (sc : ClusterScore) :
  score_cluster use_rlap_cos c = Some sc ->
  0 < penalty_factor sc /\
  penalty_factor sc <= 1 /\
  ((cluster_size sc < 5)%nat <-> penalty_factor sc < 1) /\
  (0 <= top_5_mean sc -> 0 <= penalized_score sc /\ penalized_score sc <= top_5_mean sc) /\
  (top_5_mean sc <= 0 -> top_5_mean sc <= penalized_score sc /\ penalized_score sc <= 0) /\
  (_calculate_absolute_quality sc = quality_high ->
   10 <= top_5_mean sc /\ ((cluster_size sc < 5)%nat -> 10 < top_5_mean sc)).
Proof.
  intros H.
  destruct (score_cluster_Some _ _ _ H) as (Hne & Hsize & _ & _ & Hpen & Hscore & _).
  assert (1 <= length (cand_matches c))%nat as Hlen
    by (destruct (cand_matches c); [done | simpl; lia]).
  destruct (penalty_factor_bounds _ Hlen) as (Hpos & Hle & Hlt & Heq).
  cbv zeta in *. rewrite <- Hpen in *. rewrite Hsize.
  assert ((length (cand_matches c) < 5)%nat <-> penalty_factor sc < 1) as Hiff.
  { split; [done|]. intros Hp.
    destruct (decide (length (cand_matches c) < 5)%nat) as [|Hge]; [done|].
    rewrite Heq in Hp by lia. lra. }
  do 3 (split; [done|]).
  unfold _calculate_absolute_quality. rewrite Hscore. clear Hscore Hpen.
  set (p := penalty_factor sc) in *. clearbody p.
  set (m := top_5_mean sc) in *. clearbody m.
  split; [|split].
  - intros Hm. split; [by apply Qmult_le_0_compat; lra|].
    assert (0 <= m * (1 - p)) by (apply Qmult_le_0_compat; lra). lra.
  - intros Hm.
    assert (0 <= (- m) * (1 - p)) by (apply Qmult_le_0_compat; lra).
    assert (0 <= (- m) * p) by (apply Qmult_le_0_compat; lra).
    lra.
  - destruct (Qle_bool 10 (m * p)) eqn:E; [|by repeat case_match].
    intros _. apply Qle_bool_iff in E.
    destruct (Qlt_le_dec m 0) as [Hneg|Hnn].
    { assert (0 <= (- m) * p) by (apply Qmult_le_0_compat; lra). lra. }
    assert (0 <= m * (1 - p)) by (apply Qmult_le_0_compat; lra).
    split; [lra|]. intros Hsmall. apply Hiff in Hsmall.
    assert (0 < m) by (destruct (Qlt_le_dec 0 m); [done|];
      assert (m == 0) as Hm0 by lra; rewrite Hm0 in E; lra).
    assert (0 < m * (1 - p)) by (apply Qmult_lt_0_compat; lra). lra.
Qed.

(** X19.  [all_cluster_scores] holds the scored candidates, each once, in
    descending order of the penalized score; the margin over the second
    and the relative margin are never negative, and they are missing
    exactly when one cluster only was scored. *)
Theorem cluster_scores_are_ranked (cands : list Candidate) (use_rlap_cos : bool)
    (best : Candidate) (a : Assessment) :
  find_winning_cluster_top5_method cands use_rlap_cos = Some (best, a) ->
  all_cluster_scores a ≡ₚ score_clusters use_rlap_cos cands /\
  StronglySorted (fun x y => penalized_score y <= penalized_score x) (all_cluster_scores a) /\
  (forall m, margin_vs_second (confidence_assessment a) = Some m -> 0 <= m) /\
  (forall r, relative_margin (confidence_assessment a) = Some r -> 0 <= r) /\
  (margin_vs_second (confidence_assessment a) = None <->
   length (all_cluster_scores a) = 1%nat) /\
  (length (all_cluster_scores a) = 1%nat ->
   confidence_level (confidence_assessment a) = conf_high).
Proof.
  intros H. pose proof (find_winning_Some _ _ _ _ H) as (Hall & Hhead & _).
  assert (confidence_assessment a = _calculate_cluster_confidence (all_cluster_scores a))
    as Hconf.
  { unfold find_winning_cluster_top5_method in H. destruct cands; [done|].
    destruct (sort_desc _ _) eqn:Es; [done|]. by injection H as _ <-. }
  pose proof (sort_desc_sorted penalized_score (score_clusters use_rlap_cos cands))
    as Hsorted.
  rewrite <- Hall in Hsorted.
  split; [rewrite Hall; apply sort_desc_perm|]. split; [done|].
  rewrite Hconf. clear Hconf Hall H.
  destruct (all_cluster_scores a) as [|s1 [|s2 rest]]; [done| |].
  - simpl. repeat split; try done.
  - assert (penalized_score s2 <= penalized_score s1) as Hle.
    { apply StronglySorted_inv in Hsorted as [_ Hs1].
      by apply Forall_cons in Hs1 as [? _]. }
    simpl. repeat split; try done; try (simpl; lia).
    + intros m [= <-]. lra.
    + destruct (Qltb 0 (penalized_score s2)) eqn:E; [|done].
      intros r [= <-]. apply Qltb_lt in E.
      apply Qle_shift_div_l; [done|]. lra.
Qed.

(** X20.  No winner is returned exactly when no candidate has a match. *)
Theorem no_winner_iff_no_matches (cands : list Candidate) (use_rlap_cos : bool) :
  find_winning_cluster_top5_method cands use_rlap_cos = None <->
  forall c, c ∈ cands -> cand_matches c = [].
Proof.
  split.
  - intros Hnone c Hc. destruct (cand_matches c) as [|m ms] eqn:Em; [done|].
    destruct (find_winning_is_Some cands use_rlap_cos) as [x Hx]; [|congruence].
    exists c. split; [done|]. by rewrite Em.
  - intros Hall. unfold find_winning_cluster_top5_method.
    destruct cands as [|c0 cands]; [done|].
    assert (score_clusters use_rlap_cos (c0 :: cands) = []) as ->; [|done].
    unfold score_clusters. generalize dependent (c0 :: cands). intros l Hl.
    induction l as [|c l IH]; [done|]. simpl.
    assert (score_cluster use_rlap_cos c = None) as ->.
    { unfold score_cluster. rewrite Hl; [done|]. apply elem_of_cons. by left. }
    apply IH. intros c' Hc'. apply Hl, elem_of_cons. by right.
Qed.

End ClusterSelectionMore.

Lemma top_5_values_are_largest_witness :
  exists sc rest,
    score_cluster true (Spec.candidate_of "Ia" 0 [9; 12; 10; 8; 11; 7]) = Some sc /\
    top_5_values sc ++ rest ≡ₚ [9; 12; 10; 8; 11; 7] /\
    (forall v u, v ∈ top_5_values sc -> u ∈ rest -> u <= v).
Proof.
  destruct (score_cluster true (Spec.candidate_of "Ia" 0 [9; 12; 10; 8; 11; 7]))
    as [sc|] eqn:E; [|discriminate E].
  destruct (top_5_values_are_largest true _ sc E) as (rest & Hperm & _ & _ & Hbound & _).
  exists sc, rest. split; [done|]. split; [exact Hperm | exact Hbound].
Defined.

Lemma penalty_only_lowers_witness :
  exists sc,
    score_cluster true (Spec.candidate_of "Ia" 0 [12; 11]) = Some sc /\
    0 < penalty_factor sc /\
    penalty_factor sc <= 1 /\
    ((cluster_size sc < 5)%nat <-> penalty_factor sc < 1).
Proof.
  destruct (score_cluster true (Spec.candidate_of "Ia" 0 [12; 11])) as [sc|] eqn:E;
    [|discriminate E].
  destruct (penalty_only_lowers true _ sc E) as (Hpos & Hle & Hiff & _).
  exists sc. by repeat split; try apply Hiff.
Defined.

Lemma cluster_scores_are_ranked_witness :
  exists best a,
    find_winning_cluster_top5_method Spec.tied_candidates true = Some (best, a) /\
    all_cluster_scores a ≡ₚ score_clusters true Spec.tied_candidates /\
    forall m, margin_vs_second (confidence_assessment a) = Some m -> 0 <= m.
Proof.
  destruct (find_winning_cluster_top5_method Spec.tied_candidates true)
    as [[best a]|] eqn:E; [|by vm_compute in E].
  destruct (cluster_scores_are_ranked _ _ _ _ E) as (Hperm & _ & Hmargin & _).
  exists best, a. by repeat split.
Defined.


(** ** More on the subtype vote *)

Lemma Qdiv_nonneg (a b : Q) : 0 <= a -> 0 <= b -> 0 <= a / b.
Proof.
  intros Ha Hb. unfold Qdiv. apply Qmult_le_0_compat; [done|].
  by apply Qinv_le_0_compat.
Qed.

Lemma Qsum_nonneg (l : list Q) : Forall (fun v => 0 <= v) l -> 0 <= Qsum l.
Proof.
  induction 1 as [|v l Hv _ IH]; [by compute|].
  change (Qsum (v :: l)) with (v + Qsum l). lra.
Qed.

Lemma Qsum_elem_bound (l : list Q) (v : Q) :
  Forall (fun v => 0 <= v) l -> v ∈ l -> v <= Qsum l.
Proof.
  induction 1 as [|x l Hx Hl IH]; intros Hv; [by apply elem_of_nil in Hv|].
  change (Qsum (x :: l)) with (x + Qsum l).
  apply elem_of_cons in Hv as [->|Hv].
  - pose proof (Qsum_nonneg l Hl). lra.
  - specialize (IH Hv). lra.
Qed.

Lemma max_by_score_elem scores b :
  max_by_score scores = Some b -> b ∈ scores.
Proof.
  unfold max_by_score. destruct scores as [|s scores]; [done|]. intros [= <-].
  assert (forall l s0, foldl (fun best x : string * Q => if Qltb best.2 x.2 then x else best) s0 l
                       ∈ s0 :: l) as Hfold.
  { clear. induction l as [|x l IH]; intros s0; simpl; [apply elem_of_cons; by left|].
    destruct (Qltb s0.2 x.2).
    - apply elem_of_cons. right. apply IH.
    - specialize (IH s0). apply elem_of_cons in IH as [->|IH].
      + apply elem_of_cons. by left.
      + apply elem_of_cons. right. apply elem_of_cons. by right. }
  apply Hfold.
Qed.

Section SubtypeVoteMore.
Variable get_best_metric_value : Match -> Q.

Lemma collect_members_Ok gamma k_star resp_cut i matches ms :
  collect_members get_best_metric_value gamma k_star resp_cut i matches = Ok ms ->
  (forall mem, mem ∈ ms ->
     exists j m g,
       matches !! j = Some m /\
       Spec.responsibility gamma k_star (i + j) = Some g /\
       resp_cut <= g /\
       subtype mem = Spec.vote_of m /\
       metric_value mem = get_best_metric_value m) /\
  (ms = [] ->
   forall j m g, matches !! j = Some m ->
     Spec.responsibility gamma k_star (i + j) = Some g -> g < resp_cut).
Proof.
  revert i ms. induction matches as [|m matches IH]; intros i ms; simpl.
  - intros [= <-]. split; [intros mem Hmem; by apply elem_of_nil in Hmem | done].
  - destruct (gamma !! i ≫= (.!! k_star)) as [g|] eqn:Hg; [|done].
    destruct (collect_members _ gamma k_star resp_cut (S i) matches) as [rest|] eqn:Hrest;
      [|done].
    destruct (IH _ _ Hrest) as [IHmem IHnil].
    assert (forall mem, mem ∈ rest ->
              exists j m0 g0,
                (m :: matches) !! j = Some m0 /\
                Spec.responsibility gamma k_star (i + j) = Some g0 /\
                resp_cut <= g0 /\ subtype mem = Spec.vote_of m0 /\
                metric_value mem = get_best_metric_value m0) as Hrest'.
    { intros mem Hmem. destruct (IHmem mem Hmem) as (j & m0 & g0 & Hj & Hg0 & Hrest0).
      exists (S j), m0, g0. split; [done|]. split; [|done].
      by replace (i + S j)%nat with (S i + j)%nat by lia. }
    destruct (Qle_bool resp_cut g) eqn:Hcut; intros [= <-].
    + split; [|done]. intros mem Hmem. apply elem_of_cons in Hmem as [->|Hmem];
        [|by apply Hrest'].
      exists 0%nat, m, g. rewrite Nat.add_0_r. apply Qle_bool_iff in Hcut.
      by repeat split.
    + split; [done|]. intros -> [|j] m0 g0 Hj Hg0.
      * rewrite Nat.add_0_r in Hg0. unfold Spec.responsibility in Hg0.
        simplify_eq/=. by apply Qle_bool_false.
      * apply (IHnil eq_refl j m0 g0); [done|].
        by replace (S i + j)%nat with (i + S j)%nat by lia.
Qed.

Lemma collect_members_Raise gamma k_star resp_cut i matches e :
  collect_members get_best_metric_value gamma k_star resp_cut i matches = Raise e ->
  e = IndexError /\
  exists j, (j < length matches)%nat /\ Spec.responsibility gamma k_star (i + j) = None.
Proof.
  revert i. induction matches as [|m matches IH]; intros i; simpl; [done|].
  destruct (gamma !! i ≫= (.!! k_star)) as [g|] eqn:Hg.
  - destruct (collect_members _ gamma k_star resp_cut (S i) matches) as [rest|] eqn:Hrest.
    + by destruct (Qle_bool resp_cut g).
    + intros [= <-]. destruct (IH _ Hrest) as (-> & j & Hj & Hnone).
      split; [done|]. exists (S j). split; [lia|].
      by replace (i + S j)%nat with (S i + j)%nat by lia.
  - intros [= <-]. split; [done|]. exists 0%nat. split; [lia|].
    by rewrite Nat.add_0_r.
Qed.

Lemma group_append_keys (P : Member -> Prop) k v groups :
  k = subtype v -> P v ->
  Forall (fun g => Forall (fun mem => subtype mem = g.1 /\ P mem) g.2) groups ->
  Forall (fun g => Forall (fun mem => subtype mem = g.1 /\ P mem) g.2)
    (group_append k v groups).
Proof.
  intros -> Hv. induction 1 as [|[k' vs] groups Hg Hgs IH]; simpl.
  - by repeat constructor.
  - destruct (String.eqb_spec (subtype v) k') as [<-|Hne]; constructor; simpl in *; try done.
    apply Forall_app. split; [done|]. by repeat constructor.
Qed.

Lemma subtype_groups_keys (cluster_members : list Member) :
  Forall (fun g => Forall (fun mem => subtype mem = g.1 /\ mem ∈ cluster_members) g.2)
    (subtype_groups cluster_members).
Proof.
  unfold subtype_groups.
  assert (forall (P : Member -> Prop) l acc,
            Forall P l ->
            Forall (fun g => Forall (fun mem => subtype mem = g.1 /\ P mem) g.2) acc ->
            Forall (fun g => Forall (fun mem => subtype mem = g.1 /\ P mem) g.2)
              (foldl (fun groups member => group_append (subtype member) member groups) acc l))
    as Hfold.
  { intros P l. induction l as [|x l IH]; intros acc Hl Hacc; simpl; [done|].
    apply Forall_cons in Hl as [Hx Hl].
    apply IH; [done|]. by apply group_append_keys. }
  apply Hfold; [|constructor]. by apply Forall_forall.
Qed.

Lemma subtype_groups_not_nil (cluster_members : list Member) :
  cluster_members <> [] -> subtype_groups cluster_members <> [].
Proof.
  unfold subtype_groups. destruct cluster_members as [|x l]; [done|]. intros _. simpl.
  assert (forall l acc, acc <> [] ->
            foldl (fun groups member => group_append (subtype member) member groups) acc l
            <> []) as Hfold.
  { clear. induction l as [|y l IH]; intros acc Hacc; simpl; [done|].
    apply IH. destruct acc as [|[k' vs] acc]; [done|]. simpl.
    by destruct (String.eqb (subtype y) k'). }
  by apply Hfold.
Qed.

Lemma subtype_score_nonneg members :
  Forall (fun mem => 0 <= metric_value mem) members -> 0 <= subtype_score members.
Proof.
  intros Hnn. unfold subtype_score.
  set (top := map metric_value (take 5 (sort_desc metric_value members))).
  assert (0 <= inject_Z (Z.of_nat (length top))) as Hlen
    by (rewrite <- (Zle_Qle 0); lia).
  apply Qmult_le_0_compat; [|apply Qdiv_nonneg; [done | lra]].
  apply Qdiv_nonneg; [|done]. apply Qsum_nonneg.
  apply Forall_forall. intros v Hv. unfold top in Hv.
  apply list_elem_of_fmap in Hv as (mem & -> & Hmem).
  apply subseteq_take, sort_desc_elem in Hmem.
  rewrite Forall_forall in Hnn. by apply Hnn.
Qed.

(** X21.  What the subtype vote can answer.  The only exception is the
    [IndexError] of a match without its entry of [gamma].  When no match
    reaches [resp_cut] the answer is ["Unknown"] with zeros; otherwise the
    winner is the subtype of a match that does, and with metric values that
    are not negative the confidence lies between 0 and 1 and the margin is
    not negative. *)
Theorem subtype_vote_outcome
    (k_star : nat) (matches : list Match) (gamma : list (list Q)) (resp_cut : Q) :
  match choose_subtype_weighted_voting get_best_metric_value k_star matches gamma resp_cut with
  | Raise e =>
      e = IndexError /\
      exists i, (i < length matches)%nat /\ Spec.responsibility gamma k_star i = None
  | Ok (best, confidence, margin, second) =>
      ((forall i m g, matches !! i = Some m ->
          Spec.responsibility gamma k_star i = Some g -> g < resp_cut) /\
       (best, confidence, margin, second) = ("Unknown"%string, 0, 0, None)) \/
      ((exists i m g, matches !! i = Some m /\
          Spec.responsibility gamma k_star i = Some g /\ resp_cut <= g /\
          best = Spec.vote_of m) /\
       ((forall m, m ∈ matches -> 0 <= get_best_metric_value m) ->
        0 <= confidence /\ confidence <= 1 /\ 0 <= margin))
  end.
Proof.
  unfold choose_subtype_weighted_voting.
  destruct (collect_members _ gamma k_star resp_cut 0 matches) as [ms|e] eqn:Hms.
  - apply collect_members_Ok in Hms as [Hmem Hnil].
    destruct ms as [|mem0 ms0] eqn:Ems.
    { left. split; [|done]. intros i m g. apply (Hnil eq_refl i m g). }
    assert (ms <> []) as Hms_ne by by rewrite Ems.
    rewrite <- Ems in *. clear Ems mem0 ms0 Hnil.
    set (scores := subtype_scores (subtype_groups ms)).
    destruct (max_by_score scores) as [[best best_score]|] eqn:Hmax.
    2:{ unfold max_by_score in Hmax. destruct scores eqn:Es; [|done].
        unfold scores, subtype_scores in Es. apply fmap_nil_inv in Es.
        by apply subtype_groups_not_nil in Es. }
    right.
    apply max_by_score_elem in Hmax.
    unfold scores, subtype_scores in Hmax.
    apply list_elem_of_fmap in Hmax as ([s members] & [= -> ->] & Hgroup). simpl.
    pose proof (subtype_groups_keys ms) as Hkeys.
    pose proof (subtype_groups_nonempty ms) as Hne.
    rewrite Forall_forall in Hkeys, Hne.
    specialize (Hkeys _ Hgroup). specialize (Hne _ Hgroup). simpl in Hkeys, Hne.
    split.
    + destruct members as [|mem members]; [done|].
      apply Forall_cons in Hkeys as [[Hsub Hin] _].
      destruct (Hmem mem Hin) as (j & m & g & Hj & Hg & Hcut & Hvote & _).
      exists j, m, g. repeat split; try done. congruence.
    + intros Hnn.
      assert (Forall (fun v => 0 <= v) (map snd scores)) as Hscores.
      { apply Forall_forall. intros v Hv.
        apply list_elem_of_fmap in Hv as ([s' v'] & -> & Hv). simpl.
        unfold scores, subtype_scores in Hv.
        apply list_elem_of_fmap in Hv as ([s'' members'] & [= -> ->] & Hgroup'). simpl.
        apply subtype_score_nonneg, Forall_forall. intros mem Hmem'.
        pose proof (subtype_groups_keys ms) as Hkeys'. rewrite Forall_forall in Hkeys'.
        specialize (Hkeys' _ Hgroup'). simpl in Hkeys'. rewrite Forall_forall in Hkeys'.
        destruct (Hkeys' _ Hmem') as [_ Hin].
        destruct (Hmem mem Hin) as (j & m & g & Hj & _ & _ & _ & ->).
        apply Hnn. by eapply list_elem_of_lookup_2. }
      assert (subtype_score members ∈ map snd scores) as Hbest.
      { apply list_elem_of_fmap. exists (s, subtype_score members). split; [done|].
        unfold scores, subtype_scores. apply list_elem_of_fmap. by exists (s, members). }
      pose proof (Qsum_elem_bound _ _ Hscores Hbest) as Hle.
      rewrite Forall_forall in Hscores. pose proof (Hscores _ Hbest) as Hb0.
      split; [|split].
      * destruct (Qltb 0 (Qsum (map snd scores))) eqn:E; [|lra].
        apply Qltb_lt in E. apply Qdiv_nonneg; lra.
      * destruct (Qltb 0 (Qsum (map snd scores))) eqn:E; [|lra].
        apply Qltb_lt in E. apply Qle_shift_div_r; [done|]. lra.
      * pose proof (sort_desc_sorted id (map snd scores)) as Hsorted.
        destruct (sort_desc id (map snd scores)) as [|v1 [|v2 rest]]; simpl; [lra | lra |].
        destruct (Qltb 0 v2) eqn:E; [|lra]. apply Qltb_lt in E.
        apply StronglySorted_inv in Hsorted as [_ Hv1].
        apply Forall_cons in Hv1 as [Hv12 _]. unfold id in Hv12.
        apply Qmult_le_0_compat; [|lra]. apply Qdiv_nonneg; lra.
  - apply collect_members_Raise in Hms as (-> & j & Hj & Hnone). split; [done|].
    by exists j.
Qed.

End SubtypeVoteMore.


(** ** The clusters of one type *)

Lemma mask_select_fmap {T U} (f : T -> U) (mask : list bool) (v : list T) :
  mask_select mask (map f v) = map f (mask_select mask v).
Proof.
  revert v. induction mask as [|b mask IH]; intros [|x v]; simpl; try done.
  destruct b; simpl; by rewrite IH.
Qed.

Lemma mask_select_elem {T} (mask : list bool) (v : list T) (i : nat) x :
  mask !! i = Some true -> v !! i = Some x -> x ∈ mask_select mask v.
Proof.
  revert v i. induction mask as [|b mask IH]; intros [|y v] [|i] Hm Hv; simplify_eq/=.
  - apply elem_of_cons. by left.
  - destruct b; [apply elem_of_cons; right|]; by eapply IH.
Qed.

Lemma elem_of_mask_select {T} (mask : list bool) (v : list T) x :
  x ∈ mask_select mask v -> exists i, mask !! i = Some true /\ v !! i = Some x.
Proof.
  revert v. induction mask as [|b mask IH]; intros [|y v] Hx; simpl in Hx;
    try by apply elem_of_nil in Hx.
  destruct b.
  - apply elem_of_cons in Hx as [->|Hx]; [by exists 0%nat|].
    destruct (IH _ Hx) as (i & Hm & Hv). by exists (S i).
  - destruct (IH _ Hx) as (i & Hm & Hv). by exists (S i).
Qed.

Section TypeClusters.
Variable gmm_fit_predict : list Q -> nat -> option (nat * list nat).

Lemma build_cluster_Some type_matches rlaps labels q use_rlap_cos id ci :
  build_cluster type_matches (map redshift type_matches) rlaps
    (map (get_metric use_rlap_cos) type_matches) labels q id = Some ci ->
  ci_id ci = id /\
  ci_matches ci = mask_select (map (Nat.eqb id) labels) type_matches /\
  ci_matches ci <> [] /\
  ci_size ci = length (ci_matches ci) /\
  ci_mean_metric ci = np_mean (map (get_metric use_rlap_cos) (ci_matches ci)) /\
  ci_cluster_method ci = direct_gmm.
Proof.
  unfold build_cluster. rewrite !mask_select_fmap.
  destruct (mask_select (map (Nat.eqb id) labels) type_matches) as [|m ms] eqn:E; [done|].
  simpl. intros [= <-]. simpl. by repeat split.
Qed.

(** X22.  A successful clustering of one type either comes from the mixture
    model, and then every cluster holds exactly the matches that carry its
    label, is not empty, and reports the mean metric of its own matches,
    and every match with a label below the number of components is in the
    cluster of that label; or it is the single cluster of all the matches,
    which is used only when fewer than two components are allowed. *)
Theorem type_clusters_follow_labels
    (type_matches : list Match) (max_clusters : Z) (quality_threshold : Q)
    (use_rlap_cos : bool) (n : nat) (clusters : list ClusterInfo) (gmm : bool) :
  _perform_direct_gmm_clustering gmm_fit_predict type_matches max_clusters
    quality_threshold use_rlap_cos = TypeSuccess n clusters gmm ->
  let allowed := Z.min max_clusters (Z.of_nat (length type_matches / 2 + 1)) in
  (gmm = true ->
   (2 <= allowed)%Z /\
   exists labels,
     gmm_fit_predict (map redshift type_matches) (Z.to_nat allowed) = Some (n, labels) /\
     length labels = length type_matches /\
     Forall (fun ci =>
       (ci_id ci < n)%nat /\
       ci_matches ci = mask_select (map (Nat.eqb (ci_id ci)) labels) type_matches /\
       ci_matches ci <> [] /\
       ci_size ci = length (ci_matches ci) /\
       ci_mean_metric ci = np_mean (map (get_metric use_rlap_cos) (ci_matches ci)) /\
       ci_cluster_method ci = direct_gmm) clusters /\
     forall i m l, type_matches !! i = Some m -> labels !! i = Some l -> (l < n)%nat ->
       exists ci, ci ∈ clusters /\ ci_id ci = l /\ m ∈ ci_matches ci) /\
  (gmm = false ->
   (allowed < 2)%Z /\ n = 1%nat /\
   exists ci, clusters = [ci] /\ ci_matches ci = type_matches /\
              ci_size ci = length type_matches /\
              ci_cluster_method ci = single_cluster).
Proof.
  intros H allowed. unfold _perform_direct_gmm_clustering in H.
  destruct (mapM rlap type_matches) as [rlaps|]; [|done].
  fold allowed in H.
  destruct (Z.ltb_spec allowed 2) as [Hlt|Hge].
  - unfold _create_single_cluster_result in H.
    destruct (np_max _) as [zmax|]; [|done]. cbn in H.
    destruct (np_min (map redshift type_matches)) as [zmin|]; [|done]. cbn in H.
    destruct (np_min rlaps) as [r|]; [|done]. cbn in H.
    destruct (np_min _) as [mv|]; [|done]. cbn in H.
    injection H as <- <- <-. split; [done|]. intros _. do 2 (split; [done|]).
    eexists. by repeat split.
  - destruct (gmm_fit_predict _ _) as [[n' labels]|] eqn:Hfit; [|done].
    destruct (Nat.eqb_spec (length labels) (length type_matches)) as [Hlen|]; [|done].
    simpl in H. injection H as <- <- <-. split; [|done]. intros _. split; [done|].
    exists labels. do 2 (split; [done|]). split.
    + apply Forall_forall. intros ci Hci.
      apply list_elem_of_omap in Hci as (id & Hid & Hci).
      apply elem_of_seq in Hid.
      apply build_cluster_Some in Hci as (<- & Hrest). split; [lia | done].
    + intros i m l Hm Hl Hln.
      destruct (build_cluster type_matches (map redshift type_matches) rlaps
                  (map (get_metric use_rlap_cos) type_matches) labels quality_threshold l)
        as [ci|] eqn:Hci.
      * exists ci. split; [apply list_elem_of_omap; exists l; split;
                           [apply elem_of_seq; lia | done]|].
        apply build_cluster_Some in Hci as (Hid & -> & _). split; [done|].
        eapply mask_select_elem; [|done].
        rewrite list_lookup_fmap, Hl. simpl. by rewrite Nat.eqb_refl.
      * exfalso. unfold build_cluster in Hci. rewrite mask_select_fmap in Hci.
        assert (m ∈ mask_select (map (Nat.eqb l) labels) type_matches) as Hin.
        { eapply mask_select_elem; [|done].
          rewrite list_lookup_fmap, Hl. simpl. by rewrite Nat.eqb_refl. }
        destruct (mask_select (map (Nat.eqb l) labels) type_matches);
          [by apply elem_of_nil in Hin | done].
Qed.

End TypeClusters.

Lemma type_clusters_follow_labels_witness :
  exists n clusters ci,
    _perform_direct_gmm_clustering (fun _ _ => None) Spec.wide_pair 1 (1 # 50) true
    = TypeSuccess n clusters false /\
    clusters = [ci] /\ ci_matches ci = Spec.wide_pair /\
    ci_size ci = length Spec.wide_pair /\ ci_cluster_method ci = single_cluster.
Proof.
  destruct (_perform_direct_gmm_clustering (fun _ _ => None) Spec.wide_pair 1 (1 # 50) true)
    as [|n clusters gmm] eqn:E; [discriminate E|].
  destruct (type_clusters_follow_labels _ _ _ _ _ _ _ _ E) as [_ Hsingle].
  assert (gmm = false) as -> by (vm_compute in E; by injection E as _ _ <-).
  destruct (Hsingle eq_refl) as (_ & _ & ci & Hci & Hrest).
  by exists n, clusters, ci.
Defined.


(** ** The entry point of the clustering *)

Lemma find_type_group_append t k m groups :
  snd <$> List.find (fun g : string * list Match => String.eqb t g.1)
            (type_group_append k m groups)
  = if String.eqb t k
    then Some (default [] (snd <$> List.find (fun g : string * list Match => String.eqb t g.1)
                                     groups) ++ [m])
    else snd <$> List.find (fun g : string * list Match => String.eqb t g.1) groups.
Proof.
  induction groups as [|[k' ms] groups IH]; simpl.
  - by destruct (String.eqb t k).
  - destruct (String.eqb_spec k k') as [->|Hkk']; simpl.
    + by destruct (String.eqb_spec t k').
    + destruct (String.eqb_spec t k') as [->|Htk']; simpl; [|done].
      by destruct (String.eqb_spec k' k) as [->|_].
Qed.

Lemma type_group_append_keys k m groups :
  NoDup (map fst groups) -> NoDup (map fst (type_group_append k m groups)).
Proof.
  assert (forall x, x ∈ map fst (type_group_append k m groups) ->
            x = k \/ x ∈ map fst groups) as Hkeys.
  { induction groups as [|[k' ms] groups IH]; simpl; intros x Hx.
    - apply list_elem_of_singleton in Hx. by left.
    - destruct (String.eqb_spec k k') as [->|Hkk']; simpl in Hx; [by right|].
      apply elem_of_cons in Hx as [->|Hx]; [right; apply elem_of_cons; by left|].
      destruct (IH x Hx) as [->|Hin]; [by left | right; apply elem_of_cons; by right]. }
  clear Hkeys.
  induction groups as [|[k' ms] groups IH]; simpl; intros Hnd.
  - apply NoDup_singleton.
  - apply NoDup_cons in Hnd as [Hk' Hnd].
    destruct (String.eqb_spec k k') as [->|Hkk']; simpl; [by apply NoDup_cons|].
    apply NoDup_cons. split; [|by apply IH].
    intros Hin. apply Hk'. clear IH Hnd Hk'.
    induction groups as [|[k'' ms'] groups IH]; simpl in Hin.
    + apply list_elem_of_singleton in Hin. congruence.
    + destruct (String.eqb k k''); simpl in Hin |- *; [done|].
      apply elem_of_cons in Hin as [->|Hin]; [apply elem_of_cons; by left|].
      apply elem_of_cons. right. by apply IH.
Qed.

Lemma type_groups_find (matches : list Match) (t : string) :
  NoDup (map fst (type_groups matches)) /\
  snd <$> List.find (fun g : string * list Match => String.eqb t g.1) (type_groups matches)
  = match Spec.matches_of_type t matches with
    | [] => None
    | ms => Some ms
    end.
Proof.
  unfold type_groups.
  assert (forall l prefix acc,
            NoDup (map fst acc) ->
            snd <$> List.find (fun g : string * list Match => String.eqb t g.1) acc
            = match Spec.matches_of_type t prefix with [] => None | ms => Some ms end ->
            NoDup (map fst (foldl (fun groups m => type_group_append (type_of m) m groups)
                              acc l)) /\
            snd <$> List.find (fun g : string * list Match => String.eqb t g.1)
                      (foldl (fun groups m => type_group_append (type_of m) m groups) acc l)
            = match Spec.matches_of_type t (prefix ++ l) with [] => None | ms => Some ms end)
    as Hfold.
  { induction l as [|m l IH]; intros prefix acc Hnd Hacc; simpl.
    - by rewrite app_nil_r.
    - replace (prefix ++ m :: l) with ((prefix ++ [m]) ++ l) by by rewrite <- app_assoc.
      apply IH; [by apply type_group_append_keys|].
      rewrite find_type_group_append, Hacc.
      unfold Spec.matches_of_type. rewrite List.filter_app. simpl.
      rewrite (String.eqb_sym t).
      destruct (String.eqb (type_of m) t); simpl.
      + by destruct (List.filter _ prefix).
      + by rewrite app_nil_r. }
  apply (Hfold matches [] []); [constructor | done].
Qed.

Lemma find_NoDup_key (groups : list (string * list Match)) t ms :
  NoDup (map fst groups) -> (t, ms) ∈ groups ->
  List.find (fun g : string * list Match => String.eqb t g.1) groups = Some (t, ms).
Proof.
  induction groups as [|[k vs] groups IH]; intros Hnd Hin; [by apply elem_of_nil in Hin|].
  simpl in Hnd. apply NoDup_cons in Hnd as [Hk Hnd]. simpl.
  apply elem_of_cons in Hin as [[= <- <-]|Hin].
  - by rewrite String.eqb_refl.
  - destruct (String.eqb_spec t k) as [->|_]; [|by apply IH].
    destruct Hk. apply list_elem_of_fmap. by exists (k, ms).
Qed.

Lemma type_groups_elem (matches : list Match) (t : string) (ms : list Match) :
  (t, ms) ∈ type_groups matches <->
  ms = Spec.matches_of_type t matches /\ ms <> [].
Proof.
  destruct (type_groups_find matches t) as [Hnd Hfind]. split.
  - intros Hin. rewrite (find_NoDup_key _ t ms Hnd Hin) in Hfind. simpl in Hfind.
    destruct (Spec.matches_of_type t matches); [done|]. by injection Hfind as ->.
  - intros [-> Hne].
    destruct (Spec.matches_of_type t matches) as [|m ms'] eqn:E; [done|].
    destruct (List.find _ (type_groups matches)) as [[k vs]|] eqn:Hf; [|done].
    simpl in Hfind. injection Hfind as ->.
    apply find_some in Hf as [Hin Hk]. simpl in Hk.
    apply String.eqb_eq in Hk as <-. by apply list_elem_of_In.
Qed.

(** X23.  The matches are grouped by the type of their template (["Unknown"]
    when it has none): there is one group for every type that occurs, and
    it holds all the matches of that type in their order. *)
Theorem type_groups_partition (matches : list Match) (t : string) (ms : list Match) :
  (t, ms) ∈ type_groups matches <->
  ms = Spec.matches_of_type t matches /\ ms <> [].
Proof. apply type_groups_elem. Qed.

Lemma annotated_fields use_rlap_cos c :
  cand_type (annotated use_rlap_cos c) = cand_type c /\
  cand_cluster_id (annotated use_rlap_cos c) = cand_cluster_id c /\
  cand_matches (annotated use_rlap_cos c) = cand_matches c.
Proof.
  unfold annotated, score_cluster. by destruct (cand_matches c) eqn:E.
Qed.

Section EntryFacts.
Variable gmm_fit_predict : list Q -> nat -> option (nat * list nat).

Lemma type_candidates_Raise sn_type type_matches max q use_rlap_cos e :
  type_candidates gmm_fit_predict sn_type type_matches max q use_rlap_cos = Raise e ->
  e = KeyError.
Proof.
  unfold type_candidates. destruct (_perform_direct_gmm_clustering _ _ _ _ _); [done|].
  destruct tr_gmm_model; simpl; [done|]. by intros [= <-].
Qed.

Lemma type_candidates_Ok sn_type type_matches max q use_rlap_cos cs :
  type_candidates gmm_fit_predict sn_type type_matches max q use_rlap_cos = Ok cs ->
  Forall (fun c => cand_type c = Some sn_type /\ cand_matches c <> [] /\
                   forall m, m ∈ cand_matches c -> m ∈ type_matches) cs /\
  (cs <> [] -> (2 <= max)%Z).
Proof.
  unfold type_candidates.
  destruct (_perform_direct_gmm_clustering _ _ _ _ _) as [|n clusters gmm] eqn:Hperf.
  { intros [= <-]. split; [constructor | done]. }
  destruct gmm; simpl; [|done]. intros [= <-].
  unfold _perform_direct_gmm_clustering in Hperf.
  destruct (mapM rlap type_matches) as [rlaps|]; [|done].
  destruct (Z.ltb_spec (Z.min max (Z.of_nat (length type_matches / 2 + 1))) 2) as [|Hmax].
  { unfold _create_single_cluster_result in Hperf.
    destruct (np_max _); [|done]. cbn in Hperf.
    destruct (np_min (map redshift type_matches)); [|done]. cbn in Hperf.
    destruct (np_min rlaps); [|done]. cbn in Hperf.
    by destruct (np_min _). }
  split; [|lia].
  destruct (gmm_fit_predict _ _) as [[n' labels]|]; [|done].
  destruct (negb _); [done|]. injection Hperf as <- <-.
  apply Forall_forall. intros c Hc.
  apply list_elem_of_omap in Hc as (id & _ & Hc).
  destruct (List.find _ _) as [ci|] eqn:Hfind; [|done]. injection Hc as <-.
  apply find_some in Hfind as [Hci _]. apply list_elem_of_In in Hci.
  apply list_elem_of_omap in Hci as (id' & _ & Hci).
  apply build_cluster_Some in Hci as (_ & Hm & Hne & _).
  simpl. split; [done|]. split; [done|].
  intros m Hin. rewrite Hm in Hin.
  apply elem_of_mask_select in Hin as (i & _ & Hi). by eapply list_elem_of_lookup_2.
Qed.

Lemma collect_candidates_Raise groups max q use_rlap_cos acc e :
  collect_candidates gmm_fit_predict groups max q use_rlap_cos acc = Raise e -> e = KeyError.
Proof.
  revert acc. induction groups as [|[t ms] groups IH]; intros acc; simpl; [done|].
  destruct (type_candidates _ t ms max q use_rlap_cos) as [cs|e'] eqn:Hc; cbn.
  - apply IH.
  - intros [= <-]. by eapply type_candidates_Raise.
Qed.

Lemma collect_candidates_KeyError groups max q use_rlap_cos acc t ms :
  (t, ms) ∈ groups ->
  type_candidates gmm_fit_predict t ms max q use_rlap_cos = Raise KeyError ->
  collect_candidates gmm_fit_predict groups max q use_rlap_cos acc = Raise KeyError.
Proof.
  revert acc. induction groups as [|[t' ms'] groups IH]; intros acc Hin Hraise;
    [by apply elem_of_nil in Hin|].
  simpl. apply elem_of_cons in Hin as [[= <- <-]|Hin].
  - by rewrite Hraise.
  - destruct (type_candidates _ t' ms' max q use_rlap_cos) as [cs|e] eqn:Hc; cbn.
    + by apply IH.
    + f_equal. by eapply type_candidates_Raise.
Qed.

Lemma collect_candidates_Ok (P : Candidate -> Prop) groups max q use_rlap_cos acc cands :
  (forall t ms c cs, (t, ms) ∈ groups ->
     type_candidates gmm_fit_predict t ms max q use_rlap_cos = Ok cs -> c ∈ cs -> P c) ->
  Forall P acc ->
  collect_candidates gmm_fit_predict groups max q use_rlap_cos acc = Ok cands ->
  Forall P cands.
Proof.
  revert acc. induction groups as [|[t ms] groups IH]; intros acc Hstep Hacc; simpl.
  - by intros [= <-].
  - destruct (type_candidates _ t ms max q use_rlap_cos) as [cs|] eqn:Hc; cbn; [|done].
    apply IH.
    + intros t' ms' c cs' Hin. apply Hstep. apply elem_of_cons. by right.
    + apply Forall_app. split; [done|]. apply Forall_forall. intros c Hcin.
      eapply (Hstep t ms c cs); [apply elem_of_cons; by left | done | done].
Qed.

Lemma filtered_type_groups_elem min_matches matches t ms :
  (t, ms) ∈ filtered_type_groups min_matches (type_groups matches) <->
  ms = Spec.matches_of_type t matches /\ ms <> [] /\ (min_matches <= Z.of_nat (length ms))%Z.
Proof.
  unfold filtered_type_groups. rewrite list_elem_of_In, filter_In, <- list_elem_of_In.
  rewrite type_groups_elem. simpl. rewrite Z.leb_le. tauto.
Qed.

(** X24.  The call answers "insufficient_matches" exactly when no type has
    [min_matches_per_type] matches. *)
Theorem insufficient_matches_iff
    (matches : list Match) (min_matches_per_type : Z) (quality_threshold : Q)
    (max_clusters_per_type : Z) (use_rlap_cos : bool) :
  perform_direct_gmm_clustering gmm_fit_predict matches min_matches_per_type
    quality_threshold max_clusters_per_type use_rlap_cos
  = Ok (ClusteringFailure "insufficient_matches") <->
  forall m, m ∈ matches ->
    (Z.of_nat (length (Spec.matches_of_type (type_of m) matches)) < min_matches_per_type)%Z.
Proof.
  unfold perform_direct_gmm_clustering.
  destruct (filtered_type_groups min_matches_per_type (type_groups matches))
    as [|[t ms] rest] eqn:Ef.
  - split; [|done]. intros _ m Hm.
    destruct (Z.lt_ge_cases
                (Z.of_nat (length (Spec.matches_of_type (type_of m) matches)))
                min_matches_per_type) as [|Hge]; [done|].
    assert ((type_of m, Spec.matches_of_type (type_of m) matches)
            ∈ filtered_type_groups min_matches_per_type (type_groups matches)) as Hin.
    { apply filtered_type_groups_elem. split; [done|]. split; [|done].
      intros Hnil. assert (m ∈ Spec.matches_of_type (type_of m) matches) as Hmin.
      { apply list_elem_of_In, filter_In. split; [by apply list_elem_of_In|].
        apply String.eqb_refl. }
      rewrite Hnil in Hmin. by apply elem_of_nil in Hmin. }
    rewrite Ef in Hin. by apply elem_of_nil in Hin.
  - split.
    + intros H. exfalso.
      destruct (collect_candidates _ _ _ _ _ _) as [[|c cands]|];
        unfold mbind, result_bind in H; try done.
      by destruct (find_winning_cluster_top5_method _ _) as [[? ?]|].
    + intros Hall. exfalso.
      assert ((t, ms) ∈ filtered_type_groups min_matches_per_type (type_groups matches))
        as Hin by (rewrite Ef; apply elem_of_cons; by left).
      apply filtered_type_groups_elem in Hin as (-> & Hne & Hmin).
      destruct (Spec.matches_of_type t matches) as [|m ms'] eqn:Em; [done|].
      assert (m ∈ Spec.matches_of_type t matches) as Hm
        by (rewrite Em; apply elem_of_cons; by left).
      apply list_elem_of_In, filter_In in Hm as [Hm Ht].
      apply String.eqb_eq in Ht. apply list_elem_of_In in Hm.
      specialize (Hall m Hm). rewrite Ht, Em in Hall. lia.
Qed.

(** X25.  A type that is clustered by the single-cluster fallback, which
    happens when fewer than two components are allowed, makes the whole
    call raise [KeyError]: the result of the fallback has no ['gmm_model']. *)
Theorem single_cluster_fallback_raises_KeyError
    (matches : list Match) (min_matches_per_type : Z) (quality_threshold : Q)
    (max_clusters_per_type : Z) (use_rlap_cos : bool) (m0 : Match) :
  m0 ∈ matches ->
  let type_matches := Spec.matches_of_type (type_of m0) matches in
  (min_matches_per_type <= Z.of_nat (length type_matches))%Z ->
  Forall (fun m => is_Some (rlap m)) type_matches ->
  (max_clusters_per_type < 2)%Z \/ (length type_matches < 2)%nat ->
  perform_direct_gmm_clustering gmm_fit_predict matches min_matches_per_type
    quality_threshold max_clusters_per_type use_rlap_cos
  = Raise KeyError.
Proof.
  intros Hm0 type_matches Hmin Hrlap Hfew.
  assert (m0 ∈ type_matches) as Hm0t.
  { apply list_elem_of_In, filter_In. split; [by apply list_elem_of_In|].
    apply String.eqb_refl. }
  assert ((type_of m0, type_matches)
          ∈ filtered_type_groups min_matches_per_type (type_groups matches)) as Hin.
  { apply filtered_type_groups_elem. split; [done|]. split; [|done].
    intros Hnil. rewrite Hnil in Hm0t. by apply elem_of_nil in Hm0t. }
  assert (type_candidates gmm_fit_predict (type_of m0) type_matches max_clusters_per_type
            quality_threshold use_rlap_cos = Raise KeyError) as Hraise.
  { unfold type_candidates, _perform_direct_gmm_clustering.
    destruct (mapM rlap type_matches) as [rlaps|] eqn:Hrl.
    2:{ assert (is_Some (mapM rlap type_matches)) as [? ?] by by apply mapM_is_Some.
        congruence. }
    apply length_mapM in Hrl.
    destruct (Z.ltb_spec (Z.min max_clusters_per_type
                            (Z.of_nat (length type_matches / 2 + 1))) 2) as [_|Hge].
    2:{ exfalso. destruct Hfew as [|Hlen]; [lia|].
        assert (length type_matches / 2 = 0)%nat by (apply Nat.div_small; lia). lia. }
    unfold _create_single_cluster_result.
    destruct type_matches as [|m ms]; [by apply elem_of_nil in Hm0t|].
    destruct rlaps as [|r rs]; [done|]. done. }
  unfold perform_direct_gmm_clustering.
  destruct (filtered_type_groups min_matches_per_type (type_groups matches)) as [|g rest]
    eqn:Ef; [by apply elem_of_nil in Hin|].
  rewrite <- Ef in *.
  by rewrite (collect_candidates_KeyError _ _ _ _ _ _ _ Hin Hraise).
Qed.

(** X26.  A call that succeeds.  The best cluster is one of the candidates
    returned, and none of them has a larger penalized score; every
    candidate has matches, all of its own type and all taken from the
    input; at least two clusters per type were allowed; and the number of
    types clustered is the number of types with enough matches. *)
Theorem clustering_success_is_consistent
    (matches : list Match) (min_matches_per_type : Z) (quality_threshold : Q)
    (max_clusters_per_type : Z) (use_rlap_cos : bool)
    (best : Candidate) (cands : list Candidate) (qa : Assessment) (n_types : nat) :
  perform_direct_gmm_clustering gmm_fit_predict matches min_matches_per_type
    quality_threshold max_clusters_per_type use_rlap_cos
  = Ok (ClusteringSuccess best cands qa n_types) ->
  best ∈ cands /\
  winning_cluster qa = best /\
  Forall (fun c =>
    cand_penalized_score c <= cand_penalized_score best /\
    cand_matches c <> [] /\
    exists t, cand_type c = Some t /\
      (min_matches_per_type <= Z.of_nat (length (Spec.matches_of_type t matches)))%Z /\
      forall m, m ∈ cand_matches c -> type_of m = t /\ m ∈ matches) cands /\
  (2 <= max_clusters_per_type)%Z /\
  n_types = length (filtered_type_groups min_matches_per_type (type_groups matches)).
Proof.
  unfold perform_direct_gmm_clustering.
  destruct (filtered_type_groups min_matches_per_type (type_groups matches)) as [|g rest]
    eqn:Ef; [done|]. rewrite <- Ef. clear g rest Ef.
  destruct (collect_candidates _ _ _ _ _ _) as [raw|] eqn:Hraw;
    unfold mbind, result_bind; [|done].
  destruct raw as [|c0 raw0] eqn:Eraw; [done|]. rewrite <- Eraw in *.
  destruct (find_winning_cluster_top5_method raw use_rlap_cos) as [[best' qa']|] eqn:Hwin;
    [|done].
  intros [= <- <- <- <-].
  pose proof (find_winning_Some _ _ _ _ Hwin) as (Hall & Hhead & Hwc & Hbest).
  rewrite Hall in Hhead. apply sort_desc_head_first_max in Hhead as Hfirst.
  pose proof (first_max_elem _ _ _ Hfirst) as Hwin_in.
  apply list_elem_of_omap in Hwin_in as (cw & Hcw & Hscw).
  assert (best' = annotated use_rlap_cos cw) as Hbest_ann
    by (unfold annotated; by rewrite Hscw).
  assert (cand_penalized_score best' = penalized_score (winning_cluster_info qa')) as Hps.
  { apply score_cluster_Some in Hscw. rewrite Hbest. tauto. }
  assert (Forall (fun c => cand_matches c <> [] /\
            exists t, cand_type c = Some t /\
              (min_matches_per_type
               <= Z.of_nat (length (Spec.matches_of_type t matches)))%Z /\
              forall m, m ∈ cand_matches c -> type_of m = t /\ m ∈ matches) raw /\
          (2 <= max_clusters_per_type)%Z) as [Hraw_ok Hmax].
  { split.
    - revert Hraw. apply collect_candidates_Ok; [|constructor].
      intros t ms c cs Hin Hcs Hc.
      apply filtered_type_groups_elem in Hin as (-> & _ & Hmin).
      apply type_candidates_Ok in Hcs as [Hcs _]. rewrite Forall_forall in Hcs.
      destruct (Hcs c Hc) as (Ht & Hne & Hsub). split; [done|].
      exists t. do 2 (split; [done|]). intros m Hm. specialize (Hsub m Hm).
      apply list_elem_of_In, filter_In in Hsub as [Hsub Heq].
      apply String.eqb_eq in Heq. by apply list_elem_of_In in Hsub.
    - assert (Forall (fun _ => (2 <= max_clusters_per_type)%Z) raw) as Hall2.
      { revert Hraw. apply collect_candidates_Ok; [|constructor].
        intros t ms c cs _ Hcs Hc. apply type_candidates_Ok in Hcs as [_ Hcs].
        apply Hcs. intros ->. by apply elem_of_nil in Hc. }
      rewrite Eraw in Hall2. by apply Forall_cons in Hall2 as [? _]. }
  split; [apply list_elem_of_fmap; by exists cw|].
  split; [done|]. split; [|done].
  apply Forall_forall. intros c Hc.
  apply list_elem_of_fmap in Hc as (c' & -> & Hc').
  rewrite Forall_forall in Hraw_ok. destruct (Hraw_ok c' Hc') as (Hne & t & Ht & Hmin & Hsub).
  destruct (annotated_fields use_rlap_cos c') as (Hty & _ & Hms).
  rewrite Hty, Hms. split; [|split; [done | by exists t]].
  destruct (score_cluster_is_Some use_rlap_cos c' Hne) as [sc Hsc].
  unfold annotated. rewrite Hsc.
  destruct (score_cluster_Some _ _ _ Hsc) as (_ & _ & _ & _ & _ & _ & _ & _ & _ & ->).
  rewrite Hps. eapply first_max_bound; [done|].
  apply list_elem_of_omap. eauto.
Qed.

End EntryFacts.

Lemma single_cluster_fallback_raises_KeyError_witness :
  perform_direct_gmm_clustering (fun _ _ => None) Spec.wide_pair 2 (1 # 50) 1 true
  = Raise KeyError.
Proof.
  apply (single_cluster_fallback_raises_KeyError (fun _ _ => None) Spec.wide_pair 2 (1 # 50) 1
           true (Spec.match_of "Ia" 0 5)).
  - apply elem_of_cons. by left.
  - vm_compute. discriminate.
  - repeat constructor; by eexists.
  - left. lia.
Defined.

Lemma clustering_success_is_consistent_witness :
  exists best cands qa n_types,
    perform_direct_gmm_clustering (fun zs _ => Some (1%nat, map (fun _ => 0%nat) zs))
      Spec.wide_pair 2 (1 # 50) 10 true
    = Ok (ClusteringSuccess best cands qa n_types) /\
    best ∈ cands /\ winning_cluster qa = best /\ n_types = 1%nat.
Proof.
  destruct (perform_direct_gmm_clustering (fun zs _ => Some (1%nat, map (fun _ => 0%nat) zs))
              Spec.wide_pair 2 (1 # 50) 10 true)
    as [[reason|best cands qa n_types]|e] eqn:E;
    [by vm_compute in E | | by vm_compute in E].
  destruct (clustering_success_is_consistent _ _ _ _ _ _ _ _ _ _ E)
    as (Hin & Hwin & _ & _ & Hn).
  exists best, cands, qa, n_types. by repeat split.
Defined.


(** A subtype made of a no-break space and an ideographic space is
    blank. *)
Example all_space_unicode :
  Clustering.all_space
    (String (ascii_of_nat 194) (String (ascii_of_nat 160)
      (String (ascii_of_nat 227) (String (ascii_of_nat 128) (String (ascii_of_nat 128)
        " ")))))
  = true /\
  Clustering.all_space (String (ascii_of_nat 194) (String (ascii_of_nat 161) "")) = false.
Proof. by split. Qed.


(** ** Exit code and output streams of the identify command *)

Section IdentifyReporting.
Import Identify.
Variable path_stem : string -> string.

Lemma validate_prints_on_stdout exists_ finder dir :
  Forall (fun ev : event => ev.1 <> Stderr)
    (_validate_and_fix_templates_dir exists_ finder dir).1.
Proof.
  unfold _validate_and_fix_templates_dir.
  destruct dir as [d|]; [destruct (exists_ d)|];
    destruct finder as [?| |e]; try destruct (is_file_not_found e); simpl;
    by repeat constructor.
Qed.

Lemma finish_on_stdout total elapsed message : (finish total elapsed message).1 = Stdout.
Proof. unfold finish. by destruct (0 <? total)%nat. Qed.

Lemma has_prefix_ERROR (x : string) :
  Spec.has_prefix "[ERROR] " ("[ERROR] " +:+ x) = true.
Proof. unfold Spec.has_prefix. simpl. by destruct x. Qed.

Lemma save_logs_only w :
  Forall (fun ev : event => ev.1 <> Stderr) (_save_spectrum_outputs w).1.
Proof.
  unfold _save_spectrum_outputs.
  assert (Forall (fun ev : event => ev.1 <> Stderr)
            (map (fun r : level * string => (Logger r.1, r.2)) (w_save_records w))) as H.
  { apply Forall_forall. intros ev Hev. apply list_elem_of_fmap in Hev as (r & -> & _). done. }
  destruct (w_save_raised w) as [e|]; [|done].
  destruct (exc_class e); simpl; try done;
    (apply Forall_app; split; [done | by repeat constructor]).
Qed.

(** What the closing handlers do with an exception: exit code 1 and one
    line on stderr, or the exception passed on with nothing written. *)
Lemma handle_reports args w out e :
  match (handle args w out e).1 with
  | Returns code =>
      code = 1%Z /\ exc_class e <> IsBaseException /\
      exists text rest,
        (handle args w out e).2 = (out ++ (Stderr, text) :: rest)%list /\
        Spec.has_prefix "[ERROR] " text = true /\
        (rest = [] \/ (verbose args = true /\ rest = [(Stderr, w_traceback w)]))
  | Raises e' =>
      e' = e /\ exc_class e = IsBaseException /\ (handle args w out e).2 = out
  end.
Proof.
  unfold handle. destruct (exc_class e); simpl; [| |done].
  - do 2 (split; [done|]). eexists _, []. split; [done|]. split; [done | by left].
  - do 2 (split; [done|]). destruct (verbose args) eqn:Ev.
    + eexists _, _. split; [done|]. split; [done | right; done].
    + eexists _, []. split; [done|]. split; [done | by left].
Qed.

(** X27.  [main] returns 0 or 1, or lets through an exception of one of its
    calls that is no [Exception] ([KeyboardInterrupt], [SystemExit]).  With
    0 the analysis has returned a successful result and no [print] of this
    file has written to stderr.  With 1 either an error line that starts
    with [[ERROR] ] was printed to stderr, after lines on stdout and
    logging calls only and followed by nothing but the traceback of the
    verbose mode; or the analysis has returned a result that is no success,
    and then nothing was printed to stderr.  When an exception is let
    through, nothing was printed to stderr either.  (Where the records of
    the logging calls are written is configured outside this file.) *)
Theorem exit_code_and_streams (args : Args) (w : World) :
  let code := (main path_stem args w).1 in
  let out := (main path_stem args w).2 in
  (code = Returns 0%Z \/ code = Returns 1%Z \/
   exists e, code = Raises e /\ exc_class e = IsBaseException) /\
  (code = Returns 0%Z ->
   Forall (fun ev : event => ev.1 <> Stderr) out /\
   exists r, w_analysis w = Returns (Some r) /\ success r = true) /\
  (code = Returns 1%Z ->
   (Forall (fun ev : event => ev.1 <> Stderr) out /\
    exists res, w_analysis w = Returns res /\
                forall r, res = Some r -> success r = false) \/
   (exists pre text rest,
      out = (pre ++ (Stderr, text) :: rest)%list /\
      Forall (fun ev : event => ev.1 <> Stderr) pre /\
      Spec.has_prefix "[ERROR] " text = true /\
      (rest = [] \/ (verbose args = true /\ rest = [(Stderr, w_traceback w)])))) /\
  (forall e, code = Raises e -> Forall (fun ev : event => ev.1 <> Stderr) out).
Proof.
  set (quiet := Forall (fun ev : event => ev.1 <> Stderr)).
  set (P := fun (code : outcome Z) (out : list event) =>
    (code = Returns 0%Z \/ code = Returns 1%Z \/
     exists e, code = Raises e /\ exc_class e = IsBaseException) /\
    (code = Returns 0%Z ->
     quiet out /\
     exists r, w_analysis w = Returns (Some r) /\ success r = true) /\
    (code = Returns 1%Z ->
     (quiet out /\
      exists res, w_analysis w = Returns res /\
                  forall r, res = Some r -> success r = false) \/
     (exists pre text rest,
        out = (pre ++ (Stderr, text) :: rest)%list /\
        quiet pre /\
        Spec.has_prefix "[ERROR] " text = true /\
        (rest = [] \/ (verbose args = true /\ rest = [(Stderr, w_traceback w)])))) /\
    (forall e, code = Raises e -> quiet out)).
  change (P (main path_stem args w).1 (main path_stem args w).2).
  assert (forall out e, quiet out -> P (handle args w out e).1 (handle args w out e).2)
    as Hhandle.
  { intros out e Hout. pose proof (handle_reports args w out e) as H.
    destruct (handle args w out e).1 as [code|e'].
    - destruct H as (-> & _ & text & rest & -> & Hpre & Hrest).
      split; [by right; left|]. split; [done|]. split; [|done].
      intros _. right. by exists out, text, rest.
    - destruct H as (-> & Hclass & ->).
      split; [right; right; by exists e|]. by repeat split. }
  assert (forall out text, quiet out -> Spec.has_prefix "[ERROR] " text = true ->
            P (Returns 1%Z) (out ++ [(Stderr, text)])) as Hdirect.
  { intros out text Hout Hpre. split; [by right; left|]. split; [done|].
    split; [|done]. intros _. right. exists out, text, []. by repeat split; try left. }
  assert (forall out res, w_analysis w = Returns res ->
            (forall r, res = Some r -> success r = false) ->
            quiet out -> P (Returns 1%Z) out) as Hfailed.
  { intros out res Hres Hno Hout. split; [by right; left|]. split; [done|].
    split; [|done]. intros _. left. split; [done|]. by exists res. }
  assert (forall out r, w_analysis w = Returns (Some r) -> success r = true ->
            quiet out -> P (Returns 0%Z) out) as Hdone.
  { intros out r Hres Hs Hout. split; [by left|]. split; [|by split].
    intros _. split; [done|]. by exists r. }
  clearbody P. subst quiet. unfold main.
  destruct (w_logging w) as [e|]; [apply Hhandle; constructor|].
  destruct (w_exists w (spectrum_path args)); simpl.
  2:{ apply (Hdirect []); [constructor | apply has_prefix_ERROR]. }
  pose proof (validate_prints_on_stdout (w_exists w) (w_finder w) (templates_dir args))
    as Hval.
  destruct (_validate_and_fix_templates_dir _ _ _) as [out0 [dir|e]]; simpl in Hval.
  2:{ destruct (is_file_not_found e); [|by apply Hhandle].
      apply (Hdirect out0); [done | apply has_prefix_ERROR]. }
  set (outl := if verbose args then _ else out0).
  assert (Forall (fun ev : event => ev.1 <> Stderr) outl) as Houtl.
  { unfold outl. destruct (verbose args); [|done].
    apply Forall_app. split; [done | by repeat constructor]. }
  clearbody outl. clear out0 Hval.
  destruct (w_preprocess w) as [e|]; [by apply Hhandle|].
  set (out1 := if verbose args then outl else _).
  assert (Forall (fun ev : event => ev.1 <> Stderr) out1) as Hout1.
  { unfold out1. destruct (verbose args); [done|].
    apply Forall_app. split; [done|]. constructor; [done|].
    apply Forall_forall. intros ev Hev. apply list_elem_of_fmap in Hev as (s & -> & _). done. }
  clearbody out1. clear outl Houtl.
  destruct (w_analysis w) as [res|e] eqn:Hres; [|by apply Hhandle].
  set (out2 := if verbose args then out1 else _).
  assert (Forall (fun ev : event => ev.1 <> Stderr) out2) as Hout2.
  { unfold out2. destruct (verbose args); [done|].
    apply Forall_app. split; [done|].
    constructor; [by rewrite finish_on_stdout | by repeat constructor]. }
  clearbody out2. clear out1 Hout1.
  destruct res as [r|]; simpl.
  2:{ apply (Hfailed _ None); [done | done |].
      apply Forall_app. split; [done | by repeat constructor]. }
  destruct (success r) eqn:Hs; simpl.
  2:{ apply (Hfailed _ (Some r)); [done | by intros ? [= <-] |].
      apply Forall_app. split; [done|].
      constructor; [done|]. destruct (error_message r); by repeat constructor. }
  destruct (w_saving w) as [e|]; [by apply Hhandle|].
  pose proof (save_logs_only w) as Hsave.
  destruct (_save_spectrum_outputs w) as [records [[]|e]]; simpl in Hsave.
  2:{ apply Hhandle. apply Forall_app. by split. }
  assert (Forall (fun ev : event => ev.1 <> Stderr) (out2 ++ records)) as Hout3
    by (apply Forall_app; by split).
  set (saved := if negb (minimal args) then _ else _).
  assert (Forall (fun ev : event => ev.1 <> Stderr) saved) as Hsaved.
  { unfold saved. destruct (minimal args); simpl; [by repeat constructor|].
    destruct (complete args); by repeat constructor. }
  clearbody saved.
  destruct (w_formatter w) as [text| |e| |e] eqn:Hfmt.
  - apply (Hdone _ r); [done | done |].
    repeat (apply Forall_app; split); try done; by repeat constructor.
  - apply (Hdone _ r); [done | done |].
    repeat (apply Forall_app; split); try done; by repeat constructor.
  - by apply Hhandle.
  - apply (Hdone _ r); [done | done |].
    repeat (apply Forall_app; split); try done; by repeat constructor.
  - apply Hhandle. apply Forall_app. split; [done | by repeat constructor].
Qed.

(** An interrupt during the analysis leaves [main]: no exit code, and
    nothing after the progress line. *)
Example interrupt_leaves_main :
  main path_stem Spec.sample_args Spec.interrupted_world
  = (Raises {| exc_class := IsBaseException; str_e := "" |},
     [ (Stdout, "🔍 Starting SNID analysis...");
       (Stdout, carriage_return +:+ "🔍 Loaded 120 templates") ]%string).
Proof. reflexivity. Qed.

(** A failure to save is logged and the run goes on; when the summary then
    raises, the rule line above it has been printed already. *)
Example summary_failure_after_rule_line :
  main path_stem Spec.sample_args Spec.summary_failing_world
  = (Returns 1%Z,
     [ (Stdout, "🔍 Starting SNID analysis...");
       (Stdout, carriage_return +:+ "[SUCCESS] Analysis complete");
       (Stdout, "");
       (Logger WARNING, "Failed to save outputs: disk full");
       (Stdout, newline +:+ rule80);
       (Stderr, "[ERROR] Error during SNID identification: no summary") ]%string).
Proof. reflexivity. Qed.

End IdentifyReporting.


(** ** The automatic Gaussian width *)

Lemma np_clip_bounds (x lo hi : Q) : lo <= hi -> lo <= np_clip x lo hi /\ np_clip x lo hi <= hi.
Proof.
  intros Hlh. unfold np_clip.
  destruct (Q.max_spec x lo) as [[? Hm]|[? Hm]];
    destruct (Q.min_spec (Qmax x lo) hi) as [[? Hn]|[? Hn]]; rewrite Hn, ?Hm; lra.
Qed.

Lemma np_clip_monotone (x y lo hi : Q) : x <= y -> np_clip x lo hi <= np_clip y lo hi.
Proof.
  intros Hxy. unfold np_clip.
  destruct (Q.max_spec x lo) as [[? Hm]|[? Hm]];
    destruct (Q.max_spec y lo) as [[? Hm']|[? Hm']];
    destruct (Q.min_spec (Qmax x lo) hi) as [[? Hn]|[? Hn]];
    destruct (Q.min_spec (Qmax y lo) hi) as [[? Hn']|[? Hn']];
    rewrite Hn, Hn', ?Hm, ?Hm'; lra.
Qed.

Section AutoSigmaFacts.
Variables np_median np_std : list Q -> Q.

(** X28.  The width is always between 10 and 100 bins.  With at most ten
    positive samples it is the clipped twenty-fifth of the grid size; with
    more, the noise moves the unclipped value by a factor between 0.7 and
    1.5, whatever the median and the deviation are. *)
Theorem auto_sigma_is_bounded (flux : list Q) (wave_grid_size : option Z) :
  let sigma := calculate_auto_gaussian_sigma np_median np_std flux wave_grid_size in
  let size := inject_Z (default (Z.of_nat (length flux)) wave_grid_size) in
  10 <= sigma /\ sigma <= 100 /\
  ((length (List.filter (Qltb 0) flux) <= 10)%nat -> sigma = np_clip (size / 25) 10 100) /\
  (0 <= size ->
   np_clip (size / 25 * (7 # 10)) 10 100 <= sigma /\
   sigma <= np_clip (size / 25 * (15 # 10)) 10 100).
Proof.
  intros sigma size. unfold sigma, calculate_auto_gaussian_sigma. fold size.
  split; [apply np_clip_bounds; lra|]. split; [apply np_clip_bounds; lra|]. split.
  - intros Hfew. destruct (Nat.ltb_spec 10 (length (List.filter (Qltb 0) flux))); [lia|done].
  - intros Hsize.
    assert (0 <= size / 25) as Hbase by (apply Qle_shift_div_l; lra).
    destruct (10 <? _)%nat.
    + set (factor := np_clip _ (7 # 10) (15 # 10)).
      destruct (np_clip_bounds (1 + (2 # 10)
                  * ((if Qltb 0 (np_median (List.filter (Qltb 0) flux))
                      then np_std (List.filter (Qltb 0) flux)
                           / np_median (List.filter (Qltb 0) flux)
                      else 1) - (1 # 10))) (7 # 10) (15 # 10)) as [Hlo Hhi]; [lra|].
      fold factor in Hlo, Hhi.
      split; apply np_clip_monotone.
      * assert (0 <= size / 25 * (factor - (7 # 10))) by (apply Qmult_le_0_compat; lra). lra.
      * assert (0 <= size / 25 * ((15 # 10) - factor)) by (apply Qmult_le_0_compat; lra). lra.
    + split; apply np_clip_monotone; lra.
Qed.

End AutoSigmaFacts.


(** ** The visualization data *)

Section VisualizationFacts.
Variable get_best_metric_value : Match -> Q.

Lemma viz_add_matches_consistent sn_type type_index cluster_id matches d :
  (sn_type, type_index) ∈ viz_type_mapping d ->
  Spec.viz_consistent get_best_metric_value d ->
  Spec.viz_consistent get_best_metric_value
    (viz_add_matches get_best_metric_value sn_type type_index cluster_id matches d) /\
  viz_type_mapping (viz_add_matches get_best_metric_value sn_type type_index cluster_id matches d)
  = viz_type_mapping d /\
  viz_matches (viz_add_matches get_best_metric_value sn_type type_index cluster_id matches d)
  = viz_matches d ++ matches.
Proof.
  unfold viz_add_matches. revert d.
  induction matches as [|m matches IH]; intros d Hin Hd; simpl.
  - by rewrite app_nil_r.
  - match goal with |- context [foldl ?f ?d0 matches] => destruct (IH d0) as (Hc & Hmap & Hms) end.
    + done.
    + destruct Hd as (Hz & Hr & Ht & Hti & Hci & Hnd & Hseq & Hcur & Hrows).
      unfold Spec.viz_consistent. simpl.
      rewrite Hz, Hr, !map_app, !length_app, Ht, Hti, Hci. simpl.
      repeat split; try done.
      intros i t k Hit Hik.
      destruct (decide (i < length (viz_types d))%nat) as [Hlt|Hge].
      * rewrite lookup_app_l in Hit by done.
        rewrite lookup_app_l in Hik by lia. by eapply Hrows.
      * rewrite lookup_app_r in Hit by lia.
        rewrite lookup_app_r in Hik by lia.
        rewrite Ht, Hti in *.
        destruct (i - length (viz_matches d))%nat; simplify_eq/=. done.
    + split; [done|]. split; [done|]. rewrite Hms. simpl. by rewrite <- app_assoc.
Qed.

Lemma type_index_of_Some sn_type mapping k :
  type_index_of sn_type mapping = Some k -> (sn_type, k) ∈ mapping.
Proof.
  unfold type_index_of. destruct (List.find _ _) as [[t k']|] eqn:Hf; [|done].
  intros [= <-]. apply find_some in Hf as [Hin Heq]. simpl in Heq.
  apply String.eqb_eq in Heq as ->. by apply list_elem_of_In.
Qed.

Lemma type_index_of_None sn_type mapping :
  type_index_of sn_type mapping = None -> sn_type ∉ map fst mapping.
Proof.
  unfold type_index_of. destruct (List.find _ _) as [p|] eqn:Hf; [done|]. intros _ Hin.
  apply list_elem_of_fmap in Hin as ([t k] & -> & Hin). apply list_elem_of_In in Hin.
  pose proof (find_none _ _ Hf _ Hin) as Hne. simpl in Hne.
  by rewrite String.eqb_refl in Hne.
Qed.

Lemma viz_register_consistent sn_type d d' type_index :
  viz_register sn_type d = (d', type_index) ->
  Spec.viz_consistent get_best_metric_value d ->
  Spec.viz_consistent get_best_metric_value d' /\
  (sn_type, type_index) ∈ viz_type_mapping d' /\
  viz_matches d' = viz_matches d.
Proof.
  unfold viz_register. intros Hreg Hd.
  destruct (type_index_of sn_type (viz_type_mapping d)) as [k|] eqn:Hk.
  - injection Hreg as <- <-. split; [done|]. split; [|done]. by apply type_index_of_Some.
  - injection Hreg as <- <-.
    destruct Hd as (Hz & Hr & Ht & Hti & Hci & Hnd & Hseq & Hcur & Hrows).
    split; [|split; [simpl; apply elem_of_app; right; by apply list_elem_of_singleton | done]].
    unfold Spec.viz_consistent. simpl.
    rewrite !map_app, length_app. simpl.
    repeat split; try done.
    + apply NoDup_app. split; [done|]. split; [|apply NoDup_singleton].
      intros x Hx Hx'. apply list_elem_of_singleton in Hx' as ->.
      by apply type_index_of_None in Hk.
    + rewrite Hseq, Hcur. replace (length (viz_type_mapping d) + 1)%nat
        with (S (length (viz_type_mapping d))) by lia.
      by rewrite seq_S.
    + lia.
    + intros i t k Hit Hik. apply elem_of_app. left. by eapply Hrows.
Qed.

Lemma viz_empty_consistent : Spec.viz_consistent get_best_metric_value viz_empty.
Proof.
  unfold Spec.viz_consistent. simpl. repeat split; try done; by constructor.
Qed.

Lemma viz_candidate_consistent d candidate :
  Spec.viz_consistent get_best_metric_value d ->
  Spec.viz_consistent get_best_metric_value
    (viz_candidate get_best_metric_value d candidate) /\
  viz_matches (viz_candidate get_best_metric_value d candidate)
  = viz_matches d ++ cand_matches candidate.
Proof.
  intros Hd. unfold viz_candidate.
  destruct (viz_register _ d) as [d' type_index] eqn:Hreg.
  apply viz_register_consistent in Hreg as (Hd' & Hin & Hms); [|done].
  destruct (viz_add_matches_consistent (default "Unknown"%string (cand_type candidate))
              type_index (default 0%nat (cand_cluster_id candidate))
              (cand_matches candidate) d' Hin Hd') as (Hc & _ & Hm).
  split; [done|]. by rewrite Hm, Hms.
Qed.

Lemma viz_type_result_consistent d type_result :
  Spec.viz_consistent get_best_metric_value d ->
  Spec.viz_consistent get_best_metric_value
    (viz_type_result get_best_metric_value d type_result).
Proof.
  intros Hd. unfold viz_type_result. destruct type_result as [sn_type [|n clusters gmm]];
    [done|].
  destruct (viz_register _ d) as [d' type_index] eqn:Hreg.
  apply viz_register_consistent in Hreg as (Hd' & Hin & _); [|done].
  clear Hd. revert d' Hin Hd'.
  induction clusters as [|ci clusters IH]; intros d' Hin Hd'; simpl; [done|].
  destruct (viz_add_matches_consistent sn_type type_index (ci_id ci) (ci_matches ci)
              d' Hin Hd') as (Hc & Hmap & _).
  apply IH; [by rewrite Hmap | done].
Qed.

(** X29.  The arrays returned are parallel: the redshifts and metric
    values are those of the matches listed, row by row, and the type, type
    index and cluster id arrays have the same length; the type mapping
    numbers the distinct types 0, 1, 2, ... in the order of their first
    appearance, and every row's type index is the number of its type.  When
    [all_candidates] is there, the matches listed are those of the
    candidates, in order. *)
Theorem visualization_rows_are_parallel
    (all_candidates : option (list Candidate))
    (type_clustering_results : list (string * TypeResult)) :
  let d := create_3d_visualization_data get_best_metric_value all_candidates
             type_clustering_results in
  Spec.viz_consistent get_best_metric_value d /\
  forall candidates, all_candidates = Some candidates ->
    viz_matches d = concat (map cand_matches candidates).
Proof.
  unfold create_3d_visualization_data. destruct all_candidates as [candidates|].
  - assert (forall l d0, Spec.viz_consistent get_best_metric_value d0 ->
              Spec.viz_consistent get_best_metric_value
                (foldl (viz_candidate get_best_metric_value) d0 l) /\
              viz_matches (foldl (viz_candidate get_best_metric_value) d0 l)
              = viz_matches d0 ++ concat (map cand_matches l)) as Hfold.
    { induction l as [|c l IH]; intros d0 Hd0; simpl; [by rewrite app_nil_r|].
      destruct (viz_candidate_consistent d0 c Hd0) as [Hc Hm].
      destruct (IH _ Hc) as [Hc' Hm']. split; [done|].
      by rewrite Hm', Hm, <- app_assoc. }
    destruct (Hfold candidates viz_empty viz_empty_consistent) as [Hc Hm].
    split; [done|]. by intros ? [= <-].
  - split; [|done].
    assert (forall l d0, Spec.viz_consistent get_best_metric_value d0 ->
              Spec.viz_consistent get_best_metric_value
                (foldl (viz_type_result get_best_metric_value) d0 l)) as Hfold.
    { induction l as [|r l IH]; intros d0 Hd0; simpl; [done|].
      by apply IH, viz_type_result_consistent. }
    apply Hfold, viz_empty_consistent.
Qed.

End VisualizationFacts.
